(** * testgol: Conway's Game of Life on a torus, two renderers

    A shallow embedding of the two Go programs of the repository:

    - [src/main.go], the mesh variant: every advancing generation rebuilds a
      vertex and an index buffer for one [DrawTriangles] call
      (module [Mesh]);
    - [src/unnamed/part_000], the raster variant: every advancing generation
      rebuilds a packed RGBA pixel buffer (module [Raster]).

    Both programs share, word for word, [Grid], [NewGrid], [CountNeighbors],
    [CheckRule] and the cell loop of [UpdateCells]; these are embedded once
    (module [Life]) over the fields of [Game] that they use.

    Conventions of the embedding.
    - A Go slice is a [list]; reading or writing outside of it panics, and a
      panic is [None].  Every access goes through [at_] or [store], which
      check the bounds as the Go runtime does.
    - Go's [int] has 64 bits.  The sizes that [Init] computes before it
      allocates and the corner coordinates that [UpdateTriangles] computes
      from [Cellsize] keep their wrap-around ([wrap64]).  Every other [int]
      of the programs is a loop counter or an offset that the size of an
      allocated slice bounds, and is computed in [Z].  The other
      fixed-width types keep their wrap-around: [int64] (cell values, the
      neighbour sum, [Elapsed]) through [wrap64], [uint16] (the cursors of
      [UpdateTriangles]) through [wrap16].
    - [/] and [%] on [int] truncate towards zero: [Z.quot] and [Z.rem];
      a zero divisor panics.
    - A [float32] field of a vertex only ever receives the conversion of an
      [int] or of a [uint8], or a literal.  The conversion rounds to 24
      significant bits, to the nearest and to even on a tie; what it gives
      is again an integer, and the model keeps that integer ([float32]).
    - [Grids] holds two pointers.  [Init], the only code that fills it, puts
      two distinct grids there, every row of each allocated on its own, so
      the model holds the two grids by value.
    - The ebiten images ([Tiles], [Cache], [OffScreen]), the console dump and
      the profiler belong to the renderer and are left out.  Of
      [ebiten.NewImage] the model keeps the panic for a width or a height
      below 1 ([NewImage]).  Limits that the machine sets (the largest
      allocation of [make], the largest image of the device) and the check
      of [WritePixels], which wants exactly four bytes for every pixel of
      the image, are not modelled; the statements that say that a call
      returns name the sizes for which they say so. *)

From Stdlib Require Import ZArith List Bool Lia.
From stdpp Require Import base option list.

Local Open Scope Z_scope.

(** ** Fixed-width integers *)

Definition wrap64 (z : Z) : Z := (z + 2 ^ 63) mod 2 ^ 64 - 2 ^ 63.
Definition wrap16 (z : Z) : Z := z mod 2 ^ 16.

(** ** Slices *)

Definition len {A} (l : list A) : Z := Z.of_nat (length l).

(** [l[i]] *)
Definition at_ {A} (l : list A) (i : Z) : option A :=
  if (0 <=? i) && (i <? len l) then l !! Z.to_nat i else None.

(** [l[i] = v] *)
Definition store {A} (l : list A) (i : Z) (v : A) : option (list A) :=
  if (0 <=? i) && (i <? len l) then Some (<[Z.to_nat i := v]> l) else None.

(** [make([]T, n)]: panics on a negative length.  (The runtime also refuses
    a length beyond what it can allocate; that limit is the machine's and is
    not modelled.) *)
Definition make {A} (zero : A) (n : Z) : option (list A) :=
  if n <? 0 then None else Some (replicate (Z.to_nat n) zero).

(** ** Counted loops

    [for i := lo; i < hi; i++ { body }] over a state [S]; the body may
    panic. *)

Fixpoint for_loop {S} (n : nat) (i : Z) (body : Z -> S -> option S) (s : S)
  : option S :=
  match n with
  | O => Some s
  | Datatypes.S n' =>
      match body i s with
      | Some s' => for_loop n' (i + 1) body s'
      | None => None
      end
  end.

Definition for_range {S} (lo hi : Z) (body : Z -> S -> option S) (s : S)
  : option S :=
  for_loop (Z.to_nat (hi - lo)) lo body s.

(** ** The simulation core shared by both programs *)

Module Life.

Record Grid := mkGrid {
  Data : list (list Z);
  Width : Z;
  Height : Z;
  Density : Z
}.

(** [NewGrid]: [height] rows of [width] zeroes; each row is allocated on its
    own. *)
Definition NewGrid (width height density : Z) : option Grid :=
  rows ← make ([] : list Z) height;
  data ← for_range 0 height
            (fun y d => row ← make 0 width; store d y row) rows;
  Some (mkGrid data width height density).

(** [grid.Data[y][x]] *)
Definition get (grid : Grid) (y x : Z) : option Z :=
  row ← at_ (Data grid) y; at_ row x.

(** [grid.Data[y][x] = v] *)
Definition set (grid : Grid) (y x v : Z) : option Grid :=
  row ← at_ (Data grid) y;
  row' ← store row x v;
  data' ← store (Data grid) y row';
  Some (mkGrid data' (Width grid) (Height grid) (Density grid)).

(** [CountNeighbors]: the receiver's fields [Width], [Height], [Grids] and
    [Index] are the first four arguments. *)
Definition CountNeighbors (W H : Z) (Grids : list Grid) (Index : Z)
    (x y : Z) : option Z :=
  sum ← for_range (-1) 2 (fun nbgX =>
           for_range (-1) 2 (fun nbgY sum =>
             if W =? 0 then None else
             if H =? 0 then None else
             let col := Z.rem (x + nbgX + W) W in
             let row := Z.rem (y + nbgY + H) H in
             grid ← at_ Grids Index;
             v ← get grid row col;
             Some (wrap64 (sum + v)))) 0;
  grid ← at_ Grids Index;
  v ← get grid y x;
  Some (wrap64 (sum - v)).

(** [CheckRule] *)
Definition CheckRule (state neighbors : Z) : Z :=
  if (state =? 0) && (neighbors =? 3) then 1
  else if (state =? 1) && ((neighbors =? 2) || (neighbors =? 3)) then 1
  else 0.

(** The cell loop of [UpdateCells]: reads [Grids[Index]], writes
    [Grids[next]]. *)
Definition step_cells (W H : Z) (Grids : list Grid) (Index next : Z)
  : option (list Grid) :=
  for_range 0 H (fun y =>
    for_range 0 W (fun x grids =>
      cur ← at_ grids Index;
      state ← get cur y x;
      neighbors ← CountNeighbors W H grids Index x y;
      let nextstate := CheckRule state neighbors in
      tgt ← at_ grids next;
      tgt' ← set tgt y x nextstate;
      store grids next tgt')) Grids.

End Life.

(** ** The random source of [Init]

    [rand.Intn(n)] panics for [n <= 0] and otherwise returns a value of
    [0, n).  The source is a function from the number of the call to a raw
    value, reduced into the range. *)

Definition Intn (rnd : Z -> Z) (k n : Z) : option Z :=
  if n <=? 0 then None else Some (rnd k mod n).

(** The seeding loop of [Init], the same in both programs: the state is the
    grid being filled and the number of draws made so far. *)
Definition seed (rnd : Z -> Z) (W H density : Z) (grida : Life.Grid)
  : option (Life.Grid * Z) :=
  for_range 0 H (fun y =>
    for_range 0 W (fun x '(grid, k) =>
      r ← Intn rnd k density;
      if r =? 1
      then grid' ← Life.set grid y x 1; Some (grid', k + 1)
      else Some (grid, k + 1))) (grida, 0).

(** ** Images

    [ebiten.NewImage(width, height)] panics for a width or a height below 1.
    The images are outside of the model; of the call this panic is kept. *)

Definition NewImage (width height : Z) : option unit :=
  if (width <? 1) || (height <? 1) then None else Some tt.

(** ** The mesh variant, [src/main.go] *)

Module Mesh.

Import Life.

(** [color.RGBA] *)
Record RGBA := mkRGBA { R : Z; G : Z; B : Z; A : Z }.

(** [ebiten.Vertex], the fields the program writes. *)
Record Vertex := mkVertex {
  DstX : Z; DstY : Z;
  SrcX : Z; SrcY : Z;
  ColorR : Z; ColorG : Z; ColorB : Z; ColorA : Z
}.

(** [ebiten.Vertex{}] *)
Definition Vertex0 : Vertex := mkVertex 0 0 0 0 0 0 0 0.

(** [float32(n)] of an integer [n]: [n] rounded to 24 significant bits, to
    the nearest, and to the even one of two that are equally near. *)
Definition float32 (n : Z) : Z :=
  let a := Z.abs n in
  if a <? 2 ^ 24 then n else
  let e := Z.log2 a - 23 in
  let q := Z.shiftr a e in
  let r := a - Z.shiftl q e in
  let half := Z.shiftl 1 (e - 1) in
  let q := if (half <? r) || ((r =? half) && Z.odd q) then q + 1 else q in
  Z.sgn n * Z.shiftl q e.

Record Game := mkGame {
  Width : Z; Height : Z; Cellsize : Z; Density : Z;
  ScreenWidth : Z; ScreenHeight : Z;
  Grids : list Grid;
  Index : Z;
  Black : RGBA; White : RGBA; Grey : RGBA;
  Elapsed : Z;
  TPG : Z;
  Vertices : list Vertex;
  Indices : list Z;
  Pause : bool; Debug : bool
}.

Definition set_Grids (g : Game) (v : list Grid) : Game :=
  mkGame (Width g) (Height g) (Cellsize g) (Density g) (ScreenWidth g)
    (ScreenHeight g) v (Index g) (Black g) (White g) (Grey g) (Elapsed g)
    (TPG g) (Vertices g) (Indices g) (Pause g) (Debug g).

Definition set_Index (g : Game) (v : Z) : Game :=
  mkGame (Width g) (Height g) (Cellsize g) (Density g) (ScreenWidth g)
    (ScreenHeight g) (Grids g) v (Black g) (White g) (Grey g) (Elapsed g)
    (TPG g) (Vertices g) (Indices g) (Pause g) (Debug g).

Definition set_Colors (g : Game) (black white grey : RGBA) : Game :=
  mkGame (Width g) (Height g) (Cellsize g) (Density g) (ScreenWidth g)
    (ScreenHeight g) (Grids g) (Index g) black white grey (Elapsed g)
    (TPG g) (Vertices g) (Indices g) (Pause g) (Debug g).

Definition set_Elapsed (g : Game) (v : Z) : Game :=
  mkGame (Width g) (Height g) (Cellsize g) (Density g) (ScreenWidth g)
    (ScreenHeight g) (Grids g) (Index g) (Black g) (White g) (Grey g) v
    (TPG g) (Vertices g) (Indices g) (Pause g) (Debug g).

Definition set_Vertices (g : Game) (v : list Vertex) : Game :=
  mkGame (Width g) (Height g) (Cellsize g) (Density g) (ScreenWidth g)
    (ScreenHeight g) (Grids g) (Index g) (Black g) (White g) (Grey g)
    (Elapsed g) (TPG g) v (Indices g) (Pause g) (Debug g).

Definition set_Indices (g : Game) (v : list Z) : Game :=
  mkGame (Width g) (Height g) (Cellsize g) (Density g) (ScreenWidth g)
    (ScreenHeight g) (Grids g) (Index g) (Black g) (White g) (Grey g)
    (Elapsed g) (TPG g) (Vertices g) v (Pause g) (Debug g).

Definition set_Pause (g : Game) (v : bool) : Game :=
  mkGame (Width g) (Height g) (Cellsize g) (Density g) (ScreenWidth g)
    (ScreenHeight g) (Grids g) (Index g) (Black g) (White g) (Grey g)
    (Elapsed g) (TPG g) (Vertices g) (Indices g) v (Debug g).

(** [Init] *)
Definition Init (rnd : Z -> Z) (game : Game) : option Game :=
  grida ← NewGrid (Width game) (Height game) (Density game);
  gridb ← NewGrid (Width game) (Height game) (Density game);
  '(grida, _) ← seed rnd (Width game) (Height game) (Density game) grida;
  let game := set_Grids game [grida; gridb] in
  let game := set_Colors game (mkRGBA 0 0 0 255) (mkRGBA 200 200 200 255)
                (mkRGBA 128 128 128 255) in
  _ ← NewImage (Cellsize game) (Cellsize game);
  _ ← NewImage (ScreenWidth game) (ScreenHeight game);
  let lenvertices := wrap64 (ScreenHeight game * ScreenWidth game) in
  vertices ← make Vertex0 lenvertices;
  indices ← make 0 (wrap64 (lenvertices + Z.quot lenvertices 2));
  Some (set_Indices (set_Vertices game vertices) indices).

Definition CountNeighbors (game : Game) (x y : Z) : option Z :=
  Life.CountNeighbors (Width game) (Height game) (Grids game) (Index game) x y.

(** [ClearVertices] *)
Definition ClearVertices (game : Game) : option Game :=
  vertices ← for_range 0 (len (Vertices game))
                (fun i vs => store vs i Vertex0) (Vertices game);
  let game := set_Vertices game vertices in
  Some (set_Indices game
          (take (Z.to_nat (len (Indices game))) (Indices game))).

(** The local state of [UpdateTriangles]: the two buffers it writes and its
    three cursors; [index] and [base] are [uint16]. *)
Record Tri := mkTri {
  vertices : list Vertex;
  indices : list Z;
  idx : Z;
  index : Z;
  base : Z
}.

(** The corner [(i, j)] of the cell [(cellx, celly)]; its coordinates are
    computed in [int]. *)
Definition corner (game : Game) (cellx celly i j : Z) : Vertex :=
  let x := wrap64 (wrap64 (wrap64 (cellx * Cellsize game)
                           + wrap64 (i * Cellsize game)) + 1) in
  let y := wrap64 (wrap64 (wrap64 (celly * Cellsize game)
                           + wrap64 (j * Cellsize game)) + 1) in
  let x := if i =? 1 then wrap64 (x - 1) else x in
  let y := if j =? 1 then wrap64 (y - 1) else y in
  mkVertex (float32 x) (float32 y) 1 1
    (float32 (R (Black game))) (float32 (G (Black game)))
    (float32 (B (Black game))) 1.

(** The body of the cell loop of [UpdateTriangles]. *)
Definition cell_triangles (game : Game) (celly cellx : Z) (t : Tri)
  : option Tri :=
  grid ← at_ (Grids game) (Index game);
  state ← get grid celly cellx;
  t ← (if state =? 1 then
         for_range 0 2 (fun i =>
           for_range 0 2 (fun j t =>
             vs ← store (vertices t) (idx t) (corner game cellx celly i j);
             Some (mkTri vs (indices t) (idx t + 1) (index t) (base t)))) t
       else Some t);
  let index := index t in
  let base := base t in
  ix ← store (indices t) index base;
  ix ← store ix (wrap16 (index + 1)) (wrap16 (base + 1));
  ix ← store ix (wrap16 (index + 2)) (wrap16 (base + 3));
  ix ← store ix (wrap16 (index + 3)) base;
  ix ← store ix (wrap16 (index + 4)) (wrap16 (base + 2));
  ix ← store ix (wrap16 (index + 5)) (wrap16 (base + 3));
  Some (mkTri (vertices t) ix (idx t) (wrap16 (index + 6)) (wrap16 (base + 4))).

(** The two nested loops of [UpdateTriangles] from given buffers. *)
Definition triangles (game : Game) : option Tri :=
  for_range 0 (Height game) (fun celly =>
    for_range 0 (Width game) (fun cellx => cell_triangles game celly cellx))
    (mkTri (Vertices game) (Indices game) 0 0 0).

(** [UpdateTriangles] *)
Definition UpdateTriangles (game : Game) : option Game :=
  t ← triangles game;
  Some (set_Indices (set_Vertices game (vertices t)) (indices t)).

(** [UpdateCells]; the console dump of the debug mode only reads
    [Grids[next]]. *)
Definition UpdateCells (game : Game) : option Game :=
  if Pause game then Some game else
  if Elapsed game <? TPG game
  then Some (set_Elapsed game (wrap64 (Elapsed game + 1)))
  else
    let next := Z.lxor (Index game) 1 in
    game ← ClearVertices game;
    grids ← step_cells (Width game) (Height game) (Grids game) (Index game) next;
    let game := set_Grids game grids in
    game ← UpdateTriangles game;
    let game := set_Index game (Z.lxor (Index game) 1) in
    let game := set_Elapsed game 0 in
    if Debug game then _ ← at_ (Grids game) next; Some game else Some game.

(** [Update]; [space] is [inpututil.IsKeyJustPressed(ebiten.KeySpace)]. *)
Definition Update (space : bool) (game : Game) : option Game :=
  game ← UpdateCells game;
  Some (if space then set_Pause game (negb (Pause game)) else game).

(** The [Game] that [main] builds before it calls [Init]. *)
Definition main_game : Game :=
  let size := 200 in
  let cellsize := 4 in
  mkGame size size cellsize 5 (size * cellsize) (size * cellsize)
    [] 0 (mkRGBA 0 0 0 0) (mkRGBA 0 0 0 0) (mkRGBA 0 0 0 0) 0 5 [] []
    false true.

End Mesh.

(** ** The raster variant, [src/unnamed/part_000] *)

Module Raster.

Import Life.

Record Game := mkGame {
  Width : Z; Height : Z; Cellsize : Z; Density : Z;
  ScreenWidth : Z; ScreenHeight : Z;
  Grids : list Grid;
  Index : Z;
  Elapsed : Z;
  TPG : Z;
  Pause : bool; Debug : bool; Profile : bool; Gridlines : bool;
  Pixels : list Z
}.

Definition set_Grids (g : Game) (v : list Grid) : Game :=
  mkGame (Width g) (Height g) (Cellsize g) (Density g) (ScreenWidth g)
    (ScreenHeight g) v (Index g) (Elapsed g) (TPG g) (Pause g) (Debug g)
    (Profile g) (Gridlines g) (Pixels g).

Definition set_Index (g : Game) (v : Z) : Game :=
  mkGame (Width g) (Height g) (Cellsize g) (Density g) (ScreenWidth g)
    (ScreenHeight g) (Grids g) v (Elapsed g) (TPG g) (Pause g) (Debug g)
    (Profile g) (Gridlines g) (Pixels g).

Definition set_Elapsed (g : Game) (v : Z) : Game :=
  mkGame (Width g) (Height g) (Cellsize g) (Density g) (ScreenWidth g)
    (ScreenHeight g) (Grids g) (Index g) v (TPG g) (Pause g) (Debug g)
    (Profile g) (Gridlines g) (Pixels g).

Definition set_Pause (g : Game) (v : bool) : Game :=
  mkGame (Width g) (Height g) (Cellsize g) (Density g) (ScreenWidth g)
    (ScreenHeight g) (Grids g) (Index g) (Elapsed g) (TPG g) v (Debug g)
    (Profile g) (Gridlines g) (Pixels g).

Definition set_Pixels (g : Game) (v : list Z) : Game :=
  mkGame (Width g) (Height g) (Cellsize g) (Density g) (ScreenWidth g)
    (ScreenHeight g) (Grids g) (Index g) (Elapsed g) (TPG g) (Pause g)
    (Debug g) (Profile g) (Gridlines g) v.

(** [Init] *)
Definition Init (rnd : Z -> Z) (game : Game) : option Game :=
  grida ← NewGrid (Width game) (Height game) (Density game);
  gridb ← NewGrid (Width game) (Height game) (Density game);
  '(grida, _) ← seed rnd (Width game) (Height game) (Density game) grida;
  let game := set_Grids game [grida; gridb] in
  pixels ← make 0 (wrap64 (wrap64 (ScreenWidth game * ScreenHeight game) * 4));
  _ ← NewImage (ScreenWidth game) (ScreenHeight game);
  Some (set_Pixels game pixels).

Definition CountNeighbors (game : Game) (x y : Z) : option Z :=
  Life.CountNeighbors (Width game) (Height game) (Grids game) (Index game) x y.

(** The colour byte of the screen pixel [(x, y)]. *)
Definition pixel_col (game : Game) (x y : Z) : option Z :=
  if Cellsize game =? 0 then None else
  let gridx := Z.quot x (Cellsize game) in
  let gridy := Z.quot y (Cellsize game) in
  let col := 255 in
  grid ← at_ (Grids game) (Index game);
  state ← get grid gridy gridx;
  let col := if state =? 1 then 0 else col in
  let col :=
    if Gridlines game then
      if (Z.rem x (Cellsize game) =? 0) || (Z.rem y (Cellsize game) =? 0)
      then 128 else col
    else col in
  Some col.

(** The body of the pixel loop of [UpdatePixels].  The locals [gridx],
    [gridy], [col] and [idx] are assigned afresh in every round before they
    are read, so the buffer is the whole state of the loop. *)
Definition pixel (game : Game) (y x : Z) (pixels : list Z)
  : option (list Z) :=
  col ← pixel_col game x y;
  let idx := 4 * (x + y * ScreenWidth game) in
  px ← store pixels idx col;
  px ← store px (idx + 1) col;
  px ← store px (idx + 2) col;
  store px (idx + 3) 255.

(** [UpdatePixels], the loop over the pixels.  The call that closes it,
    [game.OffScreen.WritePixels(game.Pixels)], hands the buffer to the image
    and writes nothing of the game; it wants [len(Pixels)] to be exactly four
    bytes for every pixel of the image, and is not modelled. *)
Definition UpdatePixels (game : Game) : option Game :=
  pixels ← for_range 0 (ScreenHeight game) (fun y =>
              for_range 0 (ScreenWidth game) (fun x => pixel game y x))
              (Pixels game);
  Some (set_Pixels game pixels).

(** [UpdateCells] *)
Definition UpdateCells (game : Game) : option Game :=
  if Pause game then Some game else
  if Elapsed game <? TPG game
  then Some (set_Elapsed game (wrap64 (Elapsed game + 1)))
  else
    let next := Z.lxor (Index game) 1 in
    grids ← step_cells (Width game) (Height game) (Grids game) (Index game) next;
    let game := set_Grids game grids in
    let game := set_Index game (Z.lxor (Index game) 1) in
    let game := set_Elapsed game 0 in
    UpdatePixels game.

(** [Update]; [space] is [inpututil.IsKeyJustPressed(ebiten.KeySpace)]. *)
Definition Update (space : bool) (game : Game) : option Game :=
  game ← UpdateCells game;
  Some (if space then set_Pause game (negb (Pause game)) else game).

(** The [Game] that [main] builds before it calls [Init]. *)
Definition main_game : Game :=
  let size := 500 in
  let cellsize := 4 in
  mkGame size size cellsize 8 (size * cellsize) (size * cellsize)
    [] 0 0 10 false false false false [].

End Raster.

(** Running [Update] once per frame, one key state per frame. *)
Fixpoint frames {G} (update : bool -> G -> option G) (keys : list bool)
    (game : G) : option G :=
  match keys with
  | [] => Some game
  | k :: keys' =>
      match update k game with
      | Some game' => frames update keys' game'
      | None => None
      end
  end.

(** ** Vocabulary of the statements *)

(** The shape of a grid that [NewGrid] allocated for [W] columns and [H]
    rows. *)
Definition grid_ok (W H : Z) (grid : Life.Grid) : Prop :=
  len (Life.Data grid) = H /\
  Forall (fun row => len row = W) (Life.Data grid).

(** The invariant of the data model: every cell is 0 or 1. *)
Definition grid_bits (grid : Life.Grid) : Prop :=
  Forall (Forall (fun v => v = 0 \/ v = 1)) (Life.Data grid).

(** The cell in column [x] of row [y]. *)
Definition cell (grid : Life.Grid) (x y : Z) : Z :=
  default 0 (Life.get grid y x).

(** The coordinate before and after [i] on a circle of [n] places. *)
Definition before (n i : Z) : Z := if i =? 0 then n - 1 else i - 1.
Definition after (n i : Z) : Z := if i =? n - 1 then 0 else i + 1.

(** The sum of the eight cells around [(x, y)] on the torus. *)
Definition neighbours (W H : Z) (grid : Life.Grid) (x y : Z) : Z :=
  cell grid (before W x) (before H y) + cell grid x (before H y)
  + cell grid (after W x) (before H y)
  + cell grid (before W x) y + cell grid (after W x) y
  + cell grid (before W x) (after H y) + cell grid x (after H y)
  + cell grid (after W x) (after H y).

(** The sum of the nine cells of the offset square around [(x, y)], the
    coordinates reduced modulo the size of the grid. *)
Definition square9 (W H : Z) (grid : Life.Grid) (x y : Z) : Z :=
  fold_right Z.add 0
    (map (fun d : Z * Z => cell grid ((x + fst d) mod W) ((y + snd d) mod H))
       [(-1, -1); (-1, 0); (-1, 1); (0, -1); (0, 0); (0, 1);
        (1, -1); (1, 0); (1, 1)]).

(** The two grids of a game, as [Init] sets them up: two grids of the
    game's size, one of them active. *)
Definition grids_ok (W H : Z) (Grids : list Life.Grid) (Index : Z) : Prop :=
  0 <= W /\ 0 <= H /\ (Index = 0 \/ Index = 1) /\
  len Grids = 2 /\ Forall (grid_ok W H) Grids.

(** The next generation of a cell, from the active grid [cur]. *)
Definition next_cell (W H : Z) (cur : Life.Grid) (x y : Z) : Z :=
  Life.CheckRule (cell cur x y) (wrap64 (neighbours W H cur x y)).

(** The number of places below [n] at which [P] holds. *)
Fixpoint count_below (P : Z -> bool) (n : nat) : Z :=
  match n with
  | O => 0
  | Datatypes.S n' => count_below P n' + (if P (Z.of_nat n') then 1 else 0)
  end.

(** Cells in row-major order: the cell [(x, y)] is at place [y * W + x].
    [alive_at] tells whether the cell at place [k] is alive, [alive_before]
    counts the living cells at the places below [k]. *)
Definition alive_at (W : Z) (grid : Life.Grid) (k : Z) : bool :=
  cell grid (k mod W) (k / W) =? 1.

Definition alive_before (W : Z) (grid : Life.Grid) (k : Z) : Z :=
  count_below (alive_at W grid) (Z.to_nat k).

(** The quad of a cell: the six indices of its two triangles, relative to
    the base vertex. *)
Definition quad (j : Z) : Z :=
  if j =? 0 then 0 else if j =? 1 then 1 else if j =? 2 then 3
  else if j =? 3 then 0 else if j =? 4 then 2 else 3.

(** A mesh game as [Init] sets it up, with buffers large enough for
    [UpdateTriangles]: four vertices for every cell, and six indices for
    every cell or all that a [uint16] cursor can reach. *)
Definition mesh_ok (g : Mesh.Game) : Prop :=
  grids_ok (Mesh.Width g) (Mesh.Height g) (Mesh.Grids g) (Mesh.Index g) /\
  4 * (Mesh.Width g * Mesh.Height g) <= len (Mesh.Vertices g) /\
  Z.min (6 * (Mesh.Width g * Mesh.Height g)) 65536 <= len (Mesh.Indices g).

(** A generation has advanced from [(grids, index)] to [(grids', index')]:
    the index is flipped, the grid that was active is still in its place and
    as it was, and every cell of the newly active grid is [CheckRule] of the
    old cell and of its count of neighbours, [count]. *)
Definition advanced (W H : Z) (grids : list Life.Grid) (index : Z)
    (count : Z -> Z -> option Z) (grids' : list Life.Grid) (index' : Z)
  : Prop :=
  index' = Z.lxor index 1 /\
  exists cur tgt,
    at_ grids index = Some cur /\ at_ grids' index = Some cur /\
    at_ grids' index' = Some tgt /\
    forall x y, 0 <= x < W -> 0 <= y < H ->
      exists state n,
        Life.get cur y x = Some state /\ count x y = Some n /\
        Life.get tgt y x = Some (Life.CheckRule state n).

(** The vertex buffer that a rebuild from the grid [grid] leaves: the four
    corners of every living cell, cell after cell in row-major order, from
    the start of the buffer, and [Vertex0] from there on. *)
Definition mesh_of (g : Mesh.Game) (grid : Life.Grid) (vs : list Mesh.Vertex)
  : Prop :=
  let W := Mesh.Width g in
  let n := Mesh.Width g * Mesh.Height g in
  len vs = len (Mesh.Vertices g) /\
  (forall k c, 0 <= k < n -> alive_at W grid k = true -> 0 <= c < 4 ->
     at_ vs (4 * alive_before W grid k + c)
     = Some (Mesh.corner g (k mod W) (k / W) (c / 2) (c mod 2))) /\
  (forall p, 4 * alive_before W grid n <= p < len vs ->
     at_ vs p = Some Mesh.Vertex0).

(** A raster game as [Init] sets it up after [main] has derived the screen
    from the grid: the screen is covered by the cells, and the pixel buffer
    holds four bytes for every pixel of the screen. *)
Definition raster_ok (g : Raster.Game) : Prop :=
  grids_ok (Raster.Width g) (Raster.Height g) (Raster.Grids g)
    (Raster.Index g) /\
  0 < Raster.Cellsize g /\
  0 <= Raster.ScreenWidth g <= Raster.Width g * Raster.Cellsize g /\
  0 <= Raster.ScreenHeight g <= Raster.Height g * Raster.Cellsize g /\
  4 * (Raster.ScreenWidth g * Raster.ScreenHeight g) <= len (Raster.Pixels g).

(** The grey level of the screen pixel [(x, y)] for the grid [grid]: the
    gridline colour on a cell boundary when gridlines are on, otherwise
    black for a living cell and white for a dead one. *)
Definition grey_level (g : Raster.Game) (grid : Life.Grid) (x y : Z) : Z :=
  if Raster.Gridlines g
     && ((x mod Raster.Cellsize g =? 0) || (y mod Raster.Cellsize g =? 0))
  then 128
  else if cell grid (x / Raster.Cellsize g) (y / Raster.Cellsize g) =? 1
       then 0 else 255.

(** The pixel buffer that a rebuild from the grid [grid] leaves. *)
Definition raster_of (g : Raster.Game) (grid : Life.Grid) (px : list Z)
  : Prop :=
  len px = len (Raster.Pixels g) /\
  forall x y, 0 <= x < Raster.ScreenWidth g -> 0 <= y < Raster.ScreenHeight g ->
    let p := 4 * (x + y * Raster.ScreenWidth g) in
    let c := grey_level g grid x y in
    at_ px p = Some c /\ at_ px (p + 1) = Some c /\
    at_ px (p + 2) = Some c /\ at_ px (p + 3) = Some 255.

(** Two small games, used to run the programs on a concrete input: a grid of
    four columns and three rows with two living cells side by side, which
    both die in the next generation, and cells of two pixels. *)
Definition demo_grid : Life.Grid :=
  Life.mkGrid [[0; 0; 0; 0]; [0; 1; 1; 0]; [0; 0; 0; 0]] 4 3 5.

Definition demo_blank : Life.Grid :=
  Life.mkGrid [[0; 0; 0; 0]; [0; 0; 0; 0]; [0; 0; 0; 0]] 4 3 5.

Definition mesh_demo : Mesh.Game :=
  Mesh.mkGame 4 3 2 5 8 6 [demo_grid; demo_blank] 0
    (Mesh.mkRGBA 0 0 0 255) (Mesh.mkRGBA 200 200 200 255)
    (Mesh.mkRGBA 128 128 128 255) 5 5
    (replicate 48 Mesh.Vertex0) (replicate 72 0) false false.

Definition raster_demo : Raster.Game :=
  Raster.mkGame 4 3 2 5 8 6 [demo_grid; demo_blank] 0 10 10
    false false false true (replicate 192 0).

(** What is fixed when a game starts: its configuration and the lengths of
    its buffers. *)
Definition mesh_setup (g : Mesh.Game) :=
  (Mesh.Width g, Mesh.Height g, Mesh.Cellsize g, Mesh.Density g,
   Mesh.ScreenWidth g, Mesh.ScreenHeight g, Mesh.TPG g, Mesh.Debug g,
   Mesh.Black g, len (Mesh.Vertices g), len (Mesh.Indices g)).

Definition raster_setup (g : Raster.Game) :=
  (Raster.Width g, Raster.Height g, Raster.Cellsize g, Raster.Density g,
   Raster.ScreenWidth g, Raster.ScreenHeight g, Raster.TPG g,
   Raster.Debug g, Raster.Profile g, Raster.Gridlines g,
   len (Raster.Pixels g)).

(** Whether the space key was pressed an odd number of times. *)
Definition odd_presses (keys : list bool) : bool := fold_right xorb false keys.

(** What a frame simulates and shows: the grids, the index of the active one
    and the buffers that are drawn. *)
Definition mesh_picture (g : Mesh.Game) :=
  (Mesh.Grids g, Mesh.Index g, Mesh.Vertices g, Mesh.Indices g).

Definition raster_picture (g : Raster.Game) :=
  (Raster.Grids g, Raster.Index g, Raster.Pixels g).

(** What the drawn buffer shows: the vertex buffer of the mesh program is
    the mesh of the grid that is not active, the pixel buffer of the raster
    program is the picture of the active grid. *)
Definition mesh_shows_inactive (g : Mesh.Game) : Prop :=
  exists grid,
    at_ (Mesh.Grids g) (Z.lxor (Mesh.Index g) 1) = Some grid /\
    mesh_of g grid (Mesh.Vertices g).

Definition raster_shows_active (g : Raster.Game) : Prop :=
  exists grid,
    at_ (Raster.Grids g) (Raster.Index g) = Some grid /\
    raster_of g grid (Raster.Pixels g).

(** A still life on the torus of [W] by [H] cells: every cell is its own
    next generation. *)
Definition still_life (W H : Z) (grid : Life.Grid) : Prop :=
  forall x y, 0 <= x < W -> 0 <= y < H ->
    next_cell W H grid x y = cell grid x y.

(** Two grids with the same cells. *)
Definition same_cells (W H : Z) (a b : Life.Grid) : Prop :=
  forall x y, 0 <= x < W -> 0 <= y < H -> cell a x y = cell b x y.

(** A block of four living cells, a still life on four columns and three
    rows. *)
Definition demo_block : Life.Grid :=
  Life.mkGrid [[1; 1; 0; 0]; [1; 1; 0; 0]; [0; 0; 0; 0]] 4 3 5.

(** * Properties *)

(** ** Fixed-width integers *)

Lemma wrap64_small z : - 2 ^ 63 <= z < 2 ^ 63 -> wrap64 z = z.
Proof. intros Hz. unfold wrap64. rewrite Z.mod_small; lia. Qed.

Lemma wrap64_add_l a b : wrap64 (wrap64 a + b) = wrap64 (a + b).
Proof.
  unfold wrap64.
  replace ((a + 2 ^ 63) mod 2 ^ 64 - 2 ^ 63 + b + 2 ^ 63)
    with ((a + 2 ^ 63) mod 2 ^ 64 + b) by lia.
  rewrite Zplus_mod_idemp_l. f_equal. f_equal. lia.
Qed.

Lemma wrap16_range z : 0 <= wrap16 z < 65536.
Proof. unfold wrap16. apply Z.mod_pos_bound. lia. Qed.

Lemma wrap16_small z : 0 <= z < 65536 -> wrap16 z = z.
Proof. intros. unfold wrap16. apply Z.mod_small. lia. Qed.

Lemma wrap16_add_l a b : wrap16 (wrap16 a + b) = wrap16 (a + b).
Proof. unfold wrap16. apply Zplus_mod_idemp_l. Qed.

Lemma wrap16_le z : 0 <= z -> wrap16 z <= z.
Proof. intros. unfold wrap16. apply Z.mod_le; lia. Qed.

(** Two values that agree as [uint16] and are less than 2^16 apart are
    equal. *)
Lemma wrap16_eq_near a b :
  wrap16 a = wrap16 b -> - 65536 < a - b < 65536 -> a = b.
Proof.
  unfold wrap16. change (2 ^ 16) with 65536. intros E Hnear.
  assert (Hd : (a - b) mod 65536 = 0).
  { rewrite Zminus_mod, E, Z.sub_diag. reflexivity. }
  apply Z.mod_divide in Hd; [|lia]. destruct Hd as [c Hc]. lia.
Qed.

(** ** Slices *)

Section Slices.
Context {A : Type}.
Implicit Types (l : list A) (i j : Z) (v : A).

Lemma len_nonneg l : 0 <= len l.
Proof. unfold len. lia. Qed.

Lemma at_Some l i v :
  at_ l i = Some v <-> 0 <= i < len l /\ l !! Z.to_nat i = Some v.
Proof.
  unfold at_.
  destruct (0 <=? i) eqn:H0; destruct (i <? len l) eqn:H1; simpl;
    split; try (intros [[? ?] ?]); try discriminate; try lia; auto.
  intros; split; [lia | assumption].
Qed.

Lemma at_in_range l i : 0 <= i < len l -> exists v, at_ l i = Some v.
Proof.
  intros Hi. destruct (lookup_lt_is_Some_2 l (Z.to_nat i)) as [v Hv].
  { unfold len in Hi. lia. }
  exists v. apply at_Some. auto.
Qed.

Lemma at_range l i v : at_ l i = Some v -> 0 <= i < len l.
Proof. intros H. apply at_Some in H. tauto. Qed.

Lemma store_in_range l i v :
  0 <= i < len l -> store l i v = Some (<[Z.to_nat i := v]> l).
Proof.
  intros Hi. unfold store.
  destruct (0 <=? i) eqn:H0; destruct (i <? len l) eqn:H1; simpl;
    try reflexivity; lia.
Qed.

Lemma store_Some l i v l' :
  store l i v = Some l' -> 0 <= i < len l /\ l' = <[Z.to_nat i := v]> l.
Proof.
  unfold store.
  destruct (0 <=? i) eqn:H0; destruct (i <? len l) eqn:H1; simpl;
    intros H; inversion H; subst. split; [lia | reflexivity].
Qed.

Lemma len_insert l (n : nat) v : len (<[n := v]> l) = len l.
Proof. unfold len. rewrite length_insert. reflexivity. Qed.

Lemma at_insert_eq l i v :
  0 <= i < len l -> at_ (<[Z.to_nat i := v]> l) i = Some v.
Proof.
  intros Hi. apply at_Some. rewrite len_insert. split; [assumption|].
  apply list_lookup_insert_eq. unfold len in Hi. lia.
Qed.

Lemma at_insert_ne l i j v :
  0 <= i -> i <> j -> at_ (<[Z.to_nat i := v]> l) j = at_ l j.
Proof.
  intros Hi Hne. unfold at_. rewrite len_insert.
  destruct ((0 <=? j) && (j <? len l)) eqn:E; [|reflexivity].
  apply list_lookup_insert_ne. lia.
Qed.

Lemma at_insert l i p v :
  0 <= i < len l ->
  at_ (<[Z.to_nat i := v]> l) p = if p =? i then Some v else at_ l p.
Proof.
  intros Hi. destruct (Z.eqb_spec p i) as [->|Hne].
  - apply at_insert_eq. assumption.
  - apply at_insert_ne; lia.
Qed.

Lemma at_replicate (n : nat) v i :
  0 <= i < Z.of_nat n -> at_ (replicate n v) i = Some v.
Proof.
  intros Hi. apply at_Some. unfold len. rewrite length_replicate.
  split; [assumption|]. apply lookup_replicate_2. lia.
Qed.

Lemma make_Some v n : 0 <= n -> make v n = Some (replicate (Z.to_nat n) v).
Proof. intros Hn. unfold make. destruct (n <? 0) eqn:E; [lia | reflexivity]. Qed.

Lemma make_inv v n l :
  make v n = Some l -> 0 <= n /\ l = replicate (Z.to_nat n) v.
Proof.
  unfold make. destruct (n <? 0) eqn:E; intros H; inversion H.
  split; [lia | reflexivity].
Qed.

Lemma len_replicate (n : nat) v : len (replicate n v) = Z.of_nat n.
Proof. unfold len. rewrite length_replicate. reflexivity. Qed.

(** Two slices of the same length with the same elements are equal. *)
Lemma at_ext l1 l2 :
  len l1 = len l2 -> (forall i, 0 <= i < len l1 -> at_ l1 i = at_ l2 i) ->
  l1 = l2.
Proof.
  intros Hlen Hat. apply list_eq_same_length with (n := length l1);
    [unfold len in Hlen; lia | reflexivity |].
  intros n x y Hn Hx Hy.
  assert (Hi : 0 <= Z.of_nat n < len l1) by (unfold len; lia).
  specialize (Hat _ Hi).
  assert (H1 : at_ l1 (Z.of_nat n) = Some x).
  { apply at_Some. rewrite Nat2Z.id. auto. }
  assert (H2 : at_ l2 (Z.of_nat n) = Some y).
  { apply at_Some. rewrite Nat2Z.id. split; [lia | auto]. }
  congruence.
Qed.
End Slices.

(** ** Counted loops *)

Section Loops.
Context {S : Type}.
Implicit Types (body : Z -> S -> option S) (s t : S).

(** The invariant rule: a body that keeps the invariant and does not
    panic makes the loop end in a state that satisfies it. *)
Lemma for_range_inv (Inv : Z -> S -> Prop) lo hi body s :
  lo <= hi ->
  Inv lo s ->
  (forall i t, lo <= i < hi -> Inv i t ->
     exists t', body i t = Some t' /\ Inv (i + 1) t') ->
  exists t, for_range lo hi body s = Some t /\ Inv hi t.
Proof.
  intros Hle H0 Hstep. unfold for_range.
  remember (Z.to_nat (hi - lo)) as n eqn:Hn.
  revert lo s Hle H0 Hstep Hn.
  induction n as [|n IH]; intros lo s Hle H0 Hstep Hn.
  - exists s. split; [reflexivity|]. replace hi with lo by lia. exact H0.
  - simpl. destruct (Hstep lo s) as (t' & Hb & Hi); [lia | exact H0 |].
    rewrite Hb. apply IH; [lia | exact Hi | | lia].
    intros i t Hr. apply Hstep. lia.
Qed.

(** The invariant rule for the row-major double loop over a grid of
    [H] rows and [W] columns. *)
Lemma for_grid_inv (Inv : Z -> Z -> S -> Prop) W H
    (body : Z -> Z -> S -> option S) s :
  0 <= W -> 0 <= H ->
  Inv 0 0 s ->
  (forall y x t, 0 <= y < H -> 0 <= x < W -> Inv y x t ->
     exists t', body y x t = Some t' /\ Inv y (x + 1) t') ->
  (forall y t, 0 <= y < H -> Inv y W t -> Inv (y + 1) 0 t) ->
  exists t, for_range 0 H (fun y => for_range 0 W (body y)) s = Some t
            /\ Inv H 0 t.
Proof.
  intros HW HH H0 Hcell Hrow.
  apply (for_range_inv (fun y t => Inv y 0 t)); [assumption..|].
  intros y t Hy Hinv.
  destruct (for_range_inv (fun x t => Inv y x t) 0 W (body y) t)
    as (t' & Hrun & Hend); [assumption..| |].
  - intros x u Hx Hu. apply Hcell; assumption.
  - exists t'. split; [assumption|]. apply Hrow; assumption.
Qed.
End Loops.

(** ** The grid *)

Section Grid.
Import Life.
Implicit Types (grid : Grid) (W H x y : Z).

Lemma get_ok W H grid x y :
  grid_ok W H grid -> 0 <= x < W -> 0 <= y < H ->
  get grid y x = Some (cell grid x y).
Proof.
  intros [HH HW] Hx Hy. unfold cell, get.
  destruct (at_in_range (Data grid) y) as [row Hrow]; [lia|].
  rewrite Hrow. simpl.
  assert (Hlen : len row = W).
  { apply at_Some in Hrow as [_ Hrow].
    rewrite Forall_forall in HW. apply HW.
    apply list_elem_of_lookup. eauto. }
  destruct (at_in_range row x) as [v Hv]; [lia|].
  rewrite Hv. reflexivity.
Qed.

Lemma get_cell grid x y v : get grid y x = Some v -> cell grid x y = v.
Proof. intros H. unfold cell. rewrite H. reflexivity. Qed.

Lemma cell_bits grid x y :
  grid_bits grid -> cell grid x y = 0 \/ cell grid x y = 1.
Proof.
  intros Hb. unfold cell, get.
  destruct (at_ (Data grid) y) as [row|] eqn:Hrow; simpl; [|auto].
  destruct (at_ row x) as [v|] eqn:Hv; simpl; [|auto].
  apply at_Some in Hrow as [_ Hrow]. apply at_Some in Hv as [_ Hv].
  unfold grid_bits in Hb. rewrite Forall_forall in Hb.
  assert (Hr : Forall (fun v => v = 0 \/ v = 1) row).
  { apply Hb, list_elem_of_lookup. eauto. }
  rewrite Forall_forall in Hr.
  apply Hr, list_elem_of_lookup. eauto.
Qed.

Lemma before_range n i : 0 <= i < n -> 0 <= before n i < n.
Proof. unfold before. destruct (i =? 0) eqn:E; lia. Qed.

Lemma after_range n i : 0 <= i < n -> 0 <= after n i < n.
Proof. unfold after. destruct (i =? n - 1) eqn:E; lia. Qed.

Lemma rem_before n i : 0 <= i < n -> Z.rem (i + -1 + n) n = before n i.
Proof.
  intros Hi. rewrite Z.rem_mod_nonneg by lia. unfold before.
  destruct (i =? 0) eqn:E.
  - apply Z.eqb_eq in E. subst.
    replace (0 + -1 + n) with (n - 1) by lia. apply Z.mod_small. lia.
  - apply Z.eqb_neq in E.
    replace (i + -1 + n) with (i - 1 + 1 * n) by lia.
    rewrite Z.mod_add by lia. apply Z.mod_small. lia.
Qed.

Lemma rem_same n i : 0 <= i < n -> Z.rem (i + 0 + n) n = i.
Proof.
  intros Hi. rewrite Z.rem_mod_nonneg by lia.
  replace (i + 0 + n) with (i + 1 * n) by lia.
  rewrite Z.mod_add by lia. apply Z.mod_small. lia.
Qed.

Lemma rem_after n i : 0 <= i < n -> Z.rem (i + 1 + n) n = after n i.
Proof.
  intros Hi. rewrite Z.rem_mod_nonneg by lia. unfold after.
  destruct (i =? n - 1) eqn:E.
  - apply Z.eqb_eq in E. subst.
    replace (n - 1 + 1 + n) with (0 + 2 * n) by lia.
    rewrite Z.mod_add by lia. apply Z.mod_small. lia.
  - apply Z.eqb_neq in E.
    replace (i + 1 + n) with (i + 1 + 1 * n) by lia.
    rewrite Z.mod_add by lia. apply Z.mod_small. lia.
Qed.

Lemma mod_before n i : 0 <= i < n -> (i + -1) mod n = before n i.
Proof.
  intros Hi. rewrite <- rem_before by assumption.
  rewrite Z.rem_mod_nonneg by lia.
  replace (i + -1 + n) with (i + -1 + 1 * n) by lia.
  rewrite Z.mod_add by lia. reflexivity.
Qed.

Lemma mod_after n i : 0 <= i < n -> (i + 1) mod n = after n i.
Proof.
  intros Hi. rewrite <- rem_after by assumption.
  rewrite Z.rem_mod_nonneg by lia.
  replace (i + 1 + n) with (i + 1 + 1 * n) by lia.
  rewrite Z.mod_add by lia. reflexivity.
Qed.

(** The nine-cell square minus the centre is the sum of the eight
    neighbours. *)
Lemma square9_neighbours W H grid x y :
  0 <= x < W -> 0 <= y < H ->
  square9 W H grid x y - cell grid x y = neighbours W H grid x y.
Proof.
  intros Hx Hy. unfold square9, neighbours. simpl.
  rewrite !mod_before, !mod_after by assumption.
  rewrite !Z.add_0_r. rewrite !(Z.mod_small x W), !(Z.mod_small y H) by lia.
  lia.
Qed.

(** What [CountNeighbors] computes on a grid of any [int64] cells: the
    [int64] sum of the eight neighbours. *)
Lemma CountNeighbors_wrap W H Grids Index grid x y :
  at_ Grids Index = Some grid -> grid_ok W H grid ->
  0 <= x < W -> 0 <= y < H ->
  CountNeighbors W H Grids Index x y = Some (wrap64 (neighbours W H grid x y)).
Proof.
  intros Hg Hok Hx Hy.
  pose proof (before_range W x Hx). pose proof (after_range W x Hx).
  pose proof (before_range H y Hy). pose proof (after_range H y Hy).
  unfold CountNeighbors, for_range.
  change (Z.to_nat (2 - -1)) with 3%nat. cbn [for_loop].
  replace (W =? 0) with false by (symmetry; apply Z.eqb_neq; lia).
  replace (H =? 0) with false by (symmetry; apply Z.eqb_neq; lia).
  rewrite Hg. cbn [mbind option_bind].
  change (-1 + 1) with 0. change (0 + 1) with 1.
  rewrite !rem_before, !rem_same, !rem_after by assumption.
  rewrite !(get_ok W H) by assumption.
  cbn [mbind option_bind]. f_equal.
  unfold Z.sub.
  repeat (rewrite <- Z.add_assoc || rewrite wrap64_add_l). f_equal.
  unfold neighbours. lia.
Qed.

Lemma neighbours_range W H grid x y :
  grid_bits grid -> 0 <= neighbours W H grid x y <= 8.
Proof.
  intros Hb. unfold neighbours.
  pose proof (cell_bits grid (before W x) (before H y) Hb).
  pose proof (cell_bits grid x (before H y) Hb).
  pose proof (cell_bits grid (after W x) (before H y) Hb).
  pose proof (cell_bits grid (before W x) y Hb).
  pose proof (cell_bits grid (after W x) y Hb).
  pose proof (cell_bits grid (before W x) (after H y) Hb).
  pose proof (cell_bits grid x (after H y) Hb).
  pose proof (cell_bits grid (after W x) (after H y) Hb).
  lia.
Qed.

End Grid.

(** Closing goals about a grid given by its rows. *)
Ltac grid_facts :=
  repeat match goal with
         | |- grid_ok _ _ _ => split; [reflexivity | simpl]
         | |- grid_bits _ => unfold grid_bits; simpl
         | |- Forall _ _ => constructor
         | |- _ \/ _ => first [left; reflexivity | right; reflexivity]
         | |- _ = _ => reflexivity
         end.

(** ** The rule *)

(** C2. [CheckRule] is a total function of its two arguments alone (it
    reads and writes nothing else): it returns 1 exactly for a dead cell
    with three living neighbours and for a living cell with two or three,
    and 0 for every other pair, in particular for every other pair of a
    state in {0,1} and a count in 0..8. *)
Theorem CheckRule_rule (state neighbors : Z) :
  (Life.CheckRule state neighbors = 1 <->
     (state = 0 /\ neighbors = 3) \/
     (state = 1 /\ (neighbors = 2 \/ neighbors = 3))) /\
  (Life.CheckRule state neighbors = 0 <->
     ~ ((state = 0 /\ neighbors = 3) \/
        (state = 1 /\ (neighbors = 2 \/ neighbors = 3)))).
Proof.
  unfold Life.CheckRule.
  destruct (Z.eqb_spec state 0), (Z.eqb_spec state 1),
    (Z.eqb_spec neighbors 2), (Z.eqb_spec neighbors 3); simpl;
    split; split; intros; try lia; try discriminate.
Qed.

Lemma CheckRule_bit state neighbors :
  Life.CheckRule state neighbors = 0 \/ Life.CheckRule state neighbors = 1.
Proof.
  unfold Life.CheckRule.
  destruct ((state =? 0) && (neighbors =? 3)); [auto|].
  destruct ((state =? 1) && ((neighbors =? 2) || (neighbors =? 3))); auto.
Qed.

(** ** Counting neighbours *)

(** C3. For a cell [(x, y)] of the grid, [CountNeighbors] returns the sum of
    the eight cells around it on the torus, the cell itself left out; that
    sum is the sum of the nine cells of the offset square, coordinates taken
    modulo the width and the height, minus the cell's own value.  At each
    corner of the grid the count contains the diagonally opposite corner:
    that of [(0, 0)] contains the cell [(W-1, H-1)], and so on around. *)
Theorem CountNeighbors_torus W H Grids Index grid x y :
  at_ Grids Index = Some grid -> grid_ok W H grid -> grid_bits grid ->
  0 <= x < W -> 0 <= y < H ->
  Life.CountNeighbors W H Grids Index x y = Some (neighbours W H grid x y) /\
  neighbours W H grid x y = square9 W H grid x y - cell grid x y /\
  (x = 0 /\ y = 0 ->
   exists rest, 0 <= rest /\
     Life.CountNeighbors W H Grids Index x y
       = Some (cell grid (W - 1) (H - 1) + rest)) /\
  (x = W - 1 /\ y = 0 ->
   exists rest, 0 <= rest /\
     Life.CountNeighbors W H Grids Index x y
       = Some (cell grid 0 (H - 1) + rest)) /\
  (x = 0 /\ y = H - 1 ->
   exists rest, 0 <= rest /\
     Life.CountNeighbors W H Grids Index x y
       = Some (cell grid (W - 1) 0 + rest)) /\
  (x = W - 1 /\ y = H - 1 ->
   exists rest, 0 <= rest /\
     Life.CountNeighbors W H Grids Index x y
       = Some (cell grid 0 0 + rest)).
Proof.
  intros Hg Hok Hb Hx Hy.
  assert (Hcn : Life.CountNeighbors W H Grids Index x y
                = Some (neighbours W H grid x y)).
  { rewrite (CountNeighbors_wrap W H Grids Index grid) by assumption.
    f_equal. apply wrap64_small.
    pose proof (neighbours_range W H grid x y Hb). lia. }
  split; [exact Hcn|].
  split; [symmetry; apply square9_neighbours; assumption|].
  assert (Hbit : forall a b, 0 <= cell grid a b).
  { intros a b. destruct (cell_bits grid a b Hb); lia. }
  rewrite Hcn. unfold neighbours.
  repeat split; intros [-> ->].
  - exists (cell grid 0 (before H 0) + cell grid (after W 0) (before H 0)
            + cell grid (before W 0) 0 + cell grid (after W 0) 0
            + cell grid (before W 0) (after H 0) + cell grid 0 (after H 0)
            + cell grid (after W 0) (after H 0)).
    split.
    + repeat apply Z.add_nonneg_nonneg; apply Hbit.
    + f_equal. unfold before at 1 2. simpl. lia.
  - exists (cell grid (before W (W - 1)) (before H 0)
            + cell grid (W - 1) (before H 0)
            + cell grid (before W (W - 1)) 0 + cell grid (after W (W - 1)) 0
            + cell grid (before W (W - 1)) (after H 0)
            + cell grid (W - 1) (after H 0)
            + cell grid (after W (W - 1)) (after H 0)).
    split.
    + repeat apply Z.add_nonneg_nonneg; apply Hbit.
    + f_equal.
      assert (Ha : after W (W - 1) = 0) by (unfold after; rewrite Z.eqb_refl; reflexivity).
      assert (Hb0 : before H 0 = H - 1) by reflexivity.
      rewrite Hb0. rewrite !Ha. lia.
  - exists (cell grid (before W 0) (before H (H - 1))
            + cell grid 0 (before H (H - 1))
            + cell grid (after W 0) (before H (H - 1))
            + cell grid (before W 0) (H - 1) + cell grid (after W 0) (H - 1)
            + cell grid 0 (after H (H - 1))
            + cell grid (after W 0) (after H (H - 1))).
    split.
    + repeat apply Z.add_nonneg_nonneg; apply Hbit.
    + f_equal.
      assert (Ha : after H (H - 1) = 0) by (unfold after; rewrite Z.eqb_refl; reflexivity).
      assert (Hb0 : before W 0 = W - 1) by reflexivity.
      rewrite Hb0. rewrite !Ha. lia.
  - exists (cell grid (before W (W - 1)) (before H (H - 1))
            + cell grid (W - 1) (before H (H - 1))
            + cell grid (after W (W - 1)) (before H (H - 1))
            + cell grid (before W (W - 1)) (H - 1)
            + cell grid (after W (W - 1)) (H - 1)
            + cell grid (before W (W - 1)) (after H (H - 1))
            + cell grid (W - 1) (after H (H - 1))).
    split.
    + repeat apply Z.add_nonneg_nonneg; apply Hbit.
    + f_equal.
      assert (Ha : after H (H - 1) = 0) by (unfold after; rewrite Z.eqb_refl; reflexivity).
      assert (Ha' : after W (W - 1) = 0) by (unfold after; rewrite Z.eqb_refl; reflexivity).
      rewrite !Ha, !Ha'. lia.
Qed.

Lemma CountNeighbors_torus_witness :
  let grid := Life.mkGrid [[0; 0; 0; 0]; [0; 0; 0; 0]; [0; 0; 0; 1]] 4 3 5 in
  Life.CountNeighbors 4 3 [grid; demo_blank] 0 0 0 = Some 1 /\
  neighbours 4 3 grid 0 0 = 1 /\ cell grid 3 2 = 1.
Proof.
  intros grid.
  destruct (CountNeighbors_torus 4 3 [grid; demo_blank] 0 grid 0 0)
    as (H1 & H2 & H3 & _); try reflexivity; try lia; try (subst grid; grid_facts).
  split; [exact H1 | split; reflexivity].
Defined.

(** ** One generation *)

Section Generation.
Import Life.
Implicit Types (grid cur tgt : Grid) (W H x y : Z).

Lemma set_spec W H grid x y v :
  grid_ok W H grid -> 0 <= x < W -> 0 <= y < H ->
  exists grid', set grid y x v = Some grid' /\ grid_ok W H grid' /\
    cell grid' x y = v /\
    forall x' y', (x' <> x \/ y' <> y) -> cell grid' x' y' = cell grid x' y'.
Proof.
  intros Hok Hx Hy. pose proof Hok as [HH HW]. unfold set.
  destruct (at_in_range (Data grid) y) as [row Hrow]; [lia|].
  assert (Hlen : len row = W).
  { apply at_Some in Hrow as [_ Hrow]. rewrite Forall_forall in HW.
    apply HW, list_elem_of_lookup. eauto. }
  rewrite Hrow. cbn [mbind option_bind].
  rewrite (store_in_range row x v) by lia. cbn [mbind option_bind].
  rewrite store_in_range by lia. cbn [mbind option_bind].
  eexists. split; [reflexivity|].
  split; [|split].
  - split; simpl.
    + rewrite len_insert. assumption.
    + apply Forall_insert; [assumption|]. rewrite len_insert. assumption.
  - unfold cell, get. simpl. rewrite at_insert_eq by lia.
    cbn [mbind option_bind]. rewrite at_insert_eq by lia. reflexivity.
  - intros x' y' Hne. unfold cell, get. simpl.
    destruct (Z.eq_dec y' y) as [->|Hy'].
    + rewrite at_insert_eq by lia. rewrite Hrow. cbn [mbind option_bind].
      rewrite at_insert_ne by lia. reflexivity.
    + rewrite at_insert_ne by lia. reflexivity.
Qed.

Lemma lxor_flip i : i = 0 \/ i = 1 ->
  (Z.lxor i 1 = 0 \/ Z.lxor i 1 = 1) /\ Z.lxor i 1 <> i /\
  Z.lxor (Z.lxor i 1) 1 = i.
Proof.
  intros [-> | ->]; change (Z.lxor 0 1) with 1; change (Z.lxor 1 1) with 0;
    change (Z.lxor 0 1) with 1; lia.
Qed.

Lemma grids_ok_at W H Grids Index i :
  grids_ok W H Grids Index -> i = 0 \/ i = 1 ->
  exists grid, at_ Grids i = Some grid /\ grid_ok W H grid.
Proof.
  intros (_ & _ & _ & Hlen & Hall) Hi.
  destruct (at_in_range Grids i) as [grid Hgrid]; [lia|].
  exists grid. split; [assumption|].
  apply at_Some in Hgrid as [_ Hgrid]. rewrite Forall_forall in Hall.
  apply Hall, list_elem_of_lookup. eauto.
Qed.

(** A grid of the right shape whose cells are all 0 or 1. *)
Lemma grid_bits_cells W H grid :
  grid_ok W H grid ->
  (forall x y, 0 <= x < W -> 0 <= y < H ->
     cell grid x y = 0 \/ cell grid x y = 1) ->
  grid_bits grid.
Proof.
  intros Hok Hc. pose proof Hok as [HH HW]. unfold grid_bits.
  apply Forall_lookup. intros i row Hrow.
  assert (Hi : 0 <= Z.of_nat i < H).
  { apply lookup_lt_Some in Hrow. unfold len in HH. lia. }
  assert (Hlen : len row = W).
  { rewrite Forall_forall in HW. apply HW, list_elem_of_lookup. eauto. }
  apply Forall_lookup. intros j v Hv.
  assert (Hj : 0 <= Z.of_nat j < W).
  { apply lookup_lt_Some in Hv. unfold len in Hlen. lia. }
  specialize (Hc _ _ Hj Hi).
  assert (Hget : get grid (Z.of_nat i) (Z.of_nat j) = Some v).
  { unfold get.
    assert (Hat : at_ (Data grid) (Z.of_nat i) = Some row).
    { apply at_Some. rewrite Nat2Z.id. split; [lia | assumption]. }
    rewrite Hat. cbn [mbind option_bind].
    apply at_Some. rewrite Nat2Z.id. split; [lia | assumption]. }
  apply get_cell in Hget. rewrite Hget in Hc. exact Hc.
Qed.

(** The cell loop of [UpdateCells] does not panic; it leaves the active grid
    as it is and fills the other grid with the next generation. *)
Lemma step_cells_spec W H Grids Index :
  grids_ok W H Grids Index ->
  exists cur tgt grids',
    at_ Grids Index = Some cur /\
    step_cells W H Grids Index (Z.lxor Index 1) = Some grids' /\
    grids_ok W H grids' (Z.lxor Index 1) /\
    at_ grids' Index = Some cur /\
    at_ grids' (Z.lxor Index 1) = Some tgt /\
    grid_bits tgt /\
    forall x y, 0 <= x < W -> 0 <= y < H ->
      cell tgt x y = next_cell W H cur x y.
Proof.
  intros Hok. pose proof Hok as (HW & HH & Hidx & Hlen & Hall).
  destruct (lxor_flip Index Hidx) as (Hnext & Hne & _).
  set (next := Z.lxor Index 1) in *.
  destruct (grids_ok_at W H Grids Index Index Hok Hidx) as (cur & Hcur & Hcok).
  set (Inv := fun (y x : Z) (grids : list Grid) =>
    grids_ok W H grids Index /\ at_ grids Index = Some cur /\
    exists tgt, at_ grids next = Some tgt /\
      forall x' y', 0 <= x' < W -> 0 <= y' < H ->
        (y' < y \/ (y' = y /\ x' < x)) ->
        cell tgt x' y' = next_cell W H cur x' y').
  destruct (grids_ok_at W H Grids Index next Hok Hnext) as (tgt0 & Htgt0 & _).
  destruct (for_grid_inv Inv W H
    (fun y x grids =>
      cur ← at_ grids Index;
      state ← get cur y x;
      neighbors ← CountNeighbors W H grids Index x y;
      let nextstate := CheckRule state neighbors in
      tgt ← at_ grids next;
      tgt' ← set tgt y x nextstate;
      store grids next tgt') Grids) as (grids' & Hrun & Hend);
    [assumption | assumption | | | |].
  - split; [assumption|]. split; [assumption|].
    exists tgt0. split; [assumption|]. intros; lia.
  - intros y x grids Hy Hx (Hgok & Hgcur & tgt & Htgt & Hdone).
    rewrite Hgcur. cbn [mbind option_bind].
    rewrite (get_ok W H) by assumption. cbn [mbind option_bind].
    rewrite (CountNeighbors_wrap W H grids Index cur) by assumption.
    cbn [mbind option_bind]. rewrite Htgt. cbn [mbind option_bind].
    assert (Htok : grid_ok W H tgt).
    { destruct (grids_ok_at W H grids Index next Hgok Hnext) as (t & Ht & Htk).
      congruence. }
    destruct (set_spec W H tgt x y
                (CheckRule (cell cur x y) (wrap64 (neighbours W H cur x y)))
                Htok Hx Hy) as (tgt' & Hset & Hok' & Hxy & Hother).
    rewrite Hset. cbn [mbind option_bind].
    destruct Hgok as (_ & _ & _ & Hglen & Hgall).
    rewrite store_in_range by lia.
    eexists. split; [reflexivity|].
    split; [|split].
    + repeat split; try assumption.
      * rewrite len_insert. assumption.
      * apply Forall_insert; assumption.
    + rewrite at_insert_ne by lia. assumption.
    + exists tgt'. split; [apply at_insert_eq; lia|].
      intros x' y' Hx' Hy' Hbefore.
      destruct (Z.eq_dec x' x) as [->|Hxne].
      * destruct (Z.eq_dec y' y) as [->|Hyne]; [exact Hxy|].
        rewrite Hother by lia. apply Hdone; lia.
      * rewrite Hother by lia. apply Hdone; lia.
  - intros y grids Hy (Hgok & Hgcur & tgt & Htgt & Hdone).
    split; [assumption|]. split; [assumption|].
    exists tgt. split; [assumption|].
    intros x' y' Hx' Hy' Hbefore. apply Hdone; lia.
  - destruct Hend as (Hgok & Hgcur & tgt & Htgt & Hdone).
    exists cur, tgt, grids'.
    assert (Htok : grid_ok W H tgt).
    { destruct (grids_ok_at W H grids' Index next Hgok Hnext) as (t & Ht & Htk).
      congruence. }
    assert (Hcells : forall x y, 0 <= x < W -> 0 <= y < H ->
                       cell tgt x y = next_cell W H cur x y).
    { intros x y Hx Hy. apply Hdone; lia. }
    repeat split; try assumption; try (destruct Hgok as (_ & _ & _ & ? & ?); assumption).
    apply (grid_bits_cells W H); [assumption|].
    intros x y Hx Hy. rewrite Hcells by assumption. apply CheckRule_bit.
Qed.

End Generation.

(** ** Counting living cells *)

Section Counting.
Implicit Types (P : Z -> bool) (W k : Z).

Lemma count_below_range P (n : nat) : 0 <= count_below P n <= Z.of_nat n.
Proof.
  induction n as [|n IH]; [simpl; lia|].
  cbn [count_below]. destruct (P (Z.of_nat n)); lia.
Qed.

Lemma count_below_lt P (m n : nat) :
  (m < n)%nat -> P (Z.of_nat m) = true ->
  count_below P m + 1 <= count_below P n.
Proof.
  intros Hlt HP. induction n as [|n IH]; [lia|].
  cbn [count_below].
  destruct (Nat.eq_dec m n) as [->|Hne].
  - rewrite HP. lia.
  - assert (Hm : (m < n)%nat) by lia. specialize (IH Hm).
    destruct (P (Z.of_nat n)); lia.
Qed.

Lemma alive_before_0 W grid : alive_before W grid 0 = 0.
Proof. reflexivity. Qed.

Lemma alive_before_succ W grid k :
  0 <= k ->
  alive_before W grid (k + 1)
  = alive_before W grid k + (if alive_at W grid k then 1 else 0).
Proof.
  intros Hk. unfold alive_before.
  replace (Z.to_nat (k + 1)) with (Datatypes.S (Z.to_nat k)) by lia.
  cbn [count_below]. rewrite Z2Nat.id by assumption. reflexivity.
Qed.

Lemma alive_before_range W grid k :
  0 <= k -> 0 <= alive_before W grid k <= k.
Proof.
  intros Hk. unfold alive_before.
  pose proof (count_below_range (alive_at W grid) (Z.to_nat k)). lia.
Qed.

Lemma alive_before_lt W grid k0 k :
  0 <= k0 < k -> alive_at W grid k0 = true ->
  alive_before W grid k0 + 1 <= alive_before W grid k.
Proof.
  intros Hk Ha. unfold alive_before. apply count_below_lt; [lia|].
  rewrite Z2Nat.id by lia. assumption.
Qed.

(** The place of the cell [(x, y)] gives back its coordinates. *)
Lemma place_coords W x y :
  0 <= x < W -> (y * W + x) mod W = x /\ (y * W + x) / W = y.
Proof.
  intros Hx. split.
  - rewrite Z.add_comm, Z.mod_add by lia. apply Z.mod_small. assumption.
  - rewrite Z.add_comm, Z.div_add by lia. rewrite Z.div_small by assumption.
    lia.
Qed.

Lemma place_range W H x y :
  0 <= x < W -> 0 <= y < H -> 0 <= y * W + x < W * H.
Proof. intros Hx Hy. nia. Qed.

End Counting.

(** ** The mesh *)

Section Triangles.
Import Life Mesh.
Implicit Types (game : Game) (t : Tri).

Lemma cell_vertices game cellx celly t :
  0 <= idx t -> idx t + 4 <= len (vertices t) ->
  exists vs,
    for_range 0 2 (fun i =>
      for_range 0 2 (fun j t =>
        vs ← store (vertices t) (idx t) (corner game cellx celly i j);
        Some (mkTri vs (indices t) (idx t + 1) (index t) (base t)))) t
    = Some (mkTri vs (indices t) (idx t + 4) (index t) (base t)) /\
    len vs = len (vertices t) /\
    forall p, at_ vs p =
      if (idx t <=? p) && (p <? idx t + 4)
      then Some (corner game cellx celly ((p - idx t) / 2) ((p - idx t) mod 2))
      else at_ (vertices t) p.
Proof.
  intros H0 H4. destruct t as [vs ix i ind b]. cbn [vertices indices idx index base] in *.
  unfold for_range. change (Z.to_nat (2 - 0)) with 2%nat. cbn [for_loop].
  cbn [vertices indices idx index base].
  change (0 + 1) with 1.
  rewrite store_in_range by lia. cbn [mbind option_bind].
  cbn [vertices indices idx index base].
  rewrite store_in_range by (rewrite ?len_insert; lia). cbn [mbind option_bind].
  cbn [vertices indices idx index base].
  rewrite store_in_range by (rewrite ?len_insert; lia). cbn [mbind option_bind].
  cbn [vertices indices idx index base].
  rewrite store_in_range by (rewrite ?len_insert; lia). cbn [mbind option_bind].
  cbn [vertices indices idx index base].
  eexists. split; [f_equal; f_equal; lia|].
  split; [rewrite !len_insert; reflexivity|].
  intros p.
  rewrite !at_insert by (rewrite ?len_insert; lia).
  destruct (Z.eqb_spec p (i + 1 + 1 + 1)) as [->|N3].
  { replace ((i <=? i + 1 + 1 + 1) && (i + 1 + 1 + 1 <? i + 4)) with true
      by (symmetry; apply andb_true_iff; split; [apply Z.leb_le | apply Z.ltb_lt]; lia).
    replace (i + 1 + 1 + 1 - i) with 3 by lia. reflexivity. }
  destruct (Z.eqb_spec p (i + 1 + 1)) as [->|N2].
  { replace ((i <=? i + 1 + 1) && (i + 1 + 1 <? i + 4)) with true
      by (symmetry; apply andb_true_iff; split; [apply Z.leb_le | apply Z.ltb_lt]; lia).
    replace (i + 1 + 1 - i) with 2 by lia. reflexivity. }
  destruct (Z.eqb_spec p (i + 1)) as [->|N1].
  { replace ((i <=? i + 1) && (i + 1 <? i + 4)) with true
      by (symmetry; apply andb_true_iff; split; [apply Z.leb_le | apply Z.ltb_lt]; lia).
    replace (i + 1 - i) with 1 by lia. reflexivity. }
  destruct (Z.eqb_spec p i) as [->|N0].
  { replace ((i <=? i) && (i <? i + 4)) with true
      by (symmetry; apply andb_true_iff; split; [apply Z.leb_le | apply Z.ltb_lt]; lia).
    replace (i - i) with 0 by lia. reflexivity. }
  replace ((i <=? p) && (p <? i + 4)) with false; [reflexivity|].
  symmetry. apply andb_false_iff.
  destruct (Z.leb_spec i p); [right; apply Z.ltb_ge; lia | left; reflexivity].
Qed.

Lemma store6 (ix : list Z) s0 s1 s2 s3 s4 s5 v0 v1 v2 v3 v4 v5 :
  0 <= s0 < len ix -> 0 <= s1 < len ix -> 0 <= s2 < len ix ->
  0 <= s3 < len ix -> 0 <= s4 < len ix -> 0 <= s5 < len ix ->
  NoDup [s0; s1; s2; s3; s4; s5] ->
  exists ix',
    (forall T (k : list Z -> option T),
       (ix1 ← store ix s0 v0;
        ix2 ← store ix1 s1 v1;
        ix3 ← store ix2 s2 v2;
        ix4 ← store ix3 s3 v3;
        ix5 ← store ix4 s4 v4;
        ix6 ← store ix5 s5 v5;
        k ix6) = k ix') /\
    len ix' = len ix /\
    at_ ix' s0 = Some v0 /\ at_ ix' s1 = Some v1 /\ at_ ix' s2 = Some v2 /\
    at_ ix' s3 = Some v3 /\ at_ ix' s4 = Some v4 /\ at_ ix' s5 = Some v5 /\
    (forall s, s <> s0 -> s <> s1 -> s <> s2 -> s <> s3 -> s <> s4 ->
               s <> s5 -> at_ ix' s = at_ ix s).
Proof.
  intros H0 H1 H2 H3 H4 H5 Hnd.
  pose proof (proj1 H0) as P0. pose proof (proj1 H1) as P1.
  pose proof (proj1 H2) as P2. pose proof (proj1 H3) as P3.
  pose proof (proj1 H4) as P4. pose proof (proj1 H5) as P5.
  eexists. split.
  { intros T k.
    rewrite store_in_range by assumption. cbn [mbind option_bind].
    rewrite store_in_range by (rewrite ?len_insert; assumption).
    cbn [mbind option_bind].
    rewrite store_in_range by (rewrite ?len_insert; assumption).
    cbn [mbind option_bind].
    rewrite store_in_range by (rewrite ?len_insert; assumption).
    cbn [mbind option_bind].
    rewrite store_in_range by (rewrite ?len_insert; assumption).
    cbn [mbind option_bind].
    rewrite store_in_range by (rewrite ?len_insert; assumption).
    cbn [mbind option_bind]. reflexivity. }
  split; [rewrite !len_insert; reflexivity|].
  assert (D : s0 <> s1 /\ s0 <> s2 /\ s0 <> s3 /\ s0 <> s4 /\ s0 <> s5 /\
              s1 <> s2 /\ s1 <> s3 /\ s1 <> s4 /\ s1 <> s5 /\
              s2 <> s3 /\ s2 <> s4 /\ s2 <> s5 /\
              s3 <> s4 /\ s3 <> s5 /\ s4 <> s5).
  { rewrite !NoDup_cons in Hnd. rewrite !elem_of_cons in Hnd.
    repeat split; intros ->; intuition. }
  destruct D as (? & ? & ? & ? & ? & ? & ? & ? & ? & ? & ? & ? & ? & ? & ?).
  repeat split; intros;
    repeat first
      [ rewrite at_insert_eq by (rewrite ?len_insert; assumption)
      | rewrite at_insert_ne
          by first [assumption | apply not_eq_sym; assumption] ];
    reflexivity.
Qed.

Lemma slots_NoDup ind :
  0 <= ind < 65536 ->
  NoDup [ind; wrap16 (ind + 1); wrap16 (ind + 2); wrap16 (ind + 3);
         wrap16 (ind + 4); wrap16 (ind + 5)].
Proof.
  intros Hind.
  assert (E0 : wrap16 (ind + 0) = ind)
    by (rewrite Z.add_0_r; apply wrap16_small; lia).
  set (s := fun j => wrap16 (ind + j)).
  change (NoDup [ind; s 1; s 2; s 3; s 4; s 5]).
  replace ind with (s 0) by exact E0.
  change (NoDup (s <$> [0; 1; 2; 3; 4; 5])).
  apply NoDup_fmap_2_strong.
  - intros a b Ha Hb E. unfold s in E.
    assert (Hr : forall c, c ∈ [0; 1; 2; 3; 4; 5] -> 0 <= c < 6).
    { intros c Hc. rewrite !elem_of_cons, elem_of_nil in Hc.
      repeat (destruct Hc as [->|Hc]; [lia|]). destruct Hc. }
    apply Hr in Ha, Hb. apply wrap16_eq_near in E; lia.
  - change [0; 1; 2; 3; 4; 5] with (seqZ 0 6). apply NoDup_seqZ.
Qed.

Lemma cell_indices (ix : list Z) ind b :
  0 <= ind < 65536 -> 0 <= b < 65536 ->
  (forall j, 0 <= j < 6 -> wrap16 (ind + j) < len ix) ->
  exists ix',
    (forall T (k : list Z -> option T),
       (ix1 ← store ix ind b;
        ix2 ← store ix1 (wrap16 (ind + 1)) (wrap16 (b + 1));
        ix3 ← store ix2 (wrap16 (ind + 2)) (wrap16 (b + 3));
        ix4 ← store ix3 (wrap16 (ind + 3)) b;
        ix5 ← store ix4 (wrap16 (ind + 4)) (wrap16 (b + 2));
        ix6 ← store ix5 (wrap16 (ind + 5)) (wrap16 (b + 3));
        k ix6) = k ix') /\
    len ix' = len ix /\
    (forall j, 0 <= j < 6 ->
       at_ ix' (wrap16 (ind + j)) = Some (wrap16 (b + quad j))) /\
    (forall s, (forall j, 0 <= j < 6 -> s <> wrap16 (ind + j)) ->
       at_ ix' s = at_ ix s).
Proof.
  intros Hind Hb Hin.
  assert (E0 : wrap16 (ind + 0) = ind) by (rewrite Z.add_0_r; apply wrap16_small; lia).
  assert (B0 : wrap16 (b + 0) = b) by (rewrite Z.add_0_r; apply wrap16_small; lia).
  pose proof (Hin 0 ltac:(lia)) as I0. rewrite E0 in I0.
  pose proof (Hin 1 ltac:(lia)) as I1. pose proof (Hin 2 ltac:(lia)) as I2.
  pose proof (Hin 3 ltac:(lia)) as I3. pose proof (Hin 4 ltac:(lia)) as I4.
  pose proof (Hin 5 ltac:(lia)) as I5.
  pose proof (wrap16_range (ind + 1)). pose proof (wrap16_range (ind + 2)).
  pose proof (wrap16_range (ind + 3)). pose proof (wrap16_range (ind + 4)).
  pose proof (wrap16_range (ind + 5)).
  destruct (store6 ix ind (wrap16 (ind + 1)) (wrap16 (ind + 2))
              (wrap16 (ind + 3)) (wrap16 (ind + 4)) (wrap16 (ind + 5))
              b (wrap16 (b + 1)) (wrap16 (b + 3)) b (wrap16 (b + 2))
              (wrap16 (b + 3)))
    as (ix' & Hrun & Hlen & A0 & A1 & A2 & A3 & A4 & A5 & Hrest); try lia.
  { apply slots_NoDup. assumption. }
  exists ix'. split; [exact Hrun|]. split; [exact Hlen|]. split.
  - intros j Hj.
    assert (Hcase : j = 0 \/ j = 1 \/ j = 2 \/ j = 3 \/ j = 4 \/ j = 5) by lia.
    destruct Hcase as [->|[->|[->|[->|[->| ->]]]]];
      change (quad 0) with 0; change (quad 1) with 1; change (quad 2) with 3;
      change (quad 3) with 0; change (quad 4) with 2; change (quad 5) with 3;
      rewrite ?E0, ?B0; assumption.
  - intros s Hs. apply Hrest.
    + rewrite <- E0. apply Hs. lia.
    + apply Hs. lia.
    + apply Hs. lia.
    + apply Hs. lia.
    + apply Hs. lia.
    + apply Hs. lia.
Qed.

Lemma cell_triangles_spec game grid celly cellx t state :
  at_ (Grids game) (Index game) = Some grid ->
  get grid celly cellx = Some state ->
  0 <= idx t -> (state = 1 -> idx t + 4 <= len (vertices t)) ->
  0 <= index t < 65536 -> 0 <= base t < 65536 ->
  (forall j, 0 <= j < 6 -> wrap16 (index t + j) < len (indices t)) ->
  exists t', cell_triangles game celly cellx t = Some t' /\
    len (vertices t') = len (vertices t) /\
    len (indices t') = len (indices t) /\
    idx t' = idx t + (if state =? 1 then 4 else 0) /\
    index t' = wrap16 (index t + 6) /\
    base t' = wrap16 (base t + 4) /\
    (forall p, at_ (vertices t') p =
       if (state =? 1) && ((idx t <=? p) && (p <? idx t + 4))
       then Some (corner game cellx celly
                    ((p - idx t) / 2) ((p - idx t) mod 2))
       else at_ (vertices t) p) /\
    (forall j, 0 <= j < 6 ->
       at_ (indices t') (wrap16 (index t + j))
       = Some (wrap16 (base t + quad j))) /\
    (forall s, (forall j, 0 <= j < 6 -> s <> wrap16 (index t + j)) ->
       at_ (indices t') s = at_ (indices t) s).
Proof.
  intros Hg Hget Hidx Hroom Hind Hb Hin.
  unfold cell_triangles. rewrite Hg. cbn [mbind option_bind].
  rewrite Hget. cbn [mbind option_bind].
  destruct (cell_indices (indices t) (index t) (base t) Hind Hb Hin)
    as (ix' & Hrun & Hlen & Hnew & Hold).
  destruct (Z.eqb_spec state 1) as [->|Hdead].
  - destruct (cell_vertices game cellx celly t Hidx (Hroom eq_refl))
      as (vs & Hvs & Hvlen & Hvat).
    rewrite Hvs. cbn [mbind option_bind vertices indices idx index base].
    rewrite Hrun. cbn [mbind option_bind].
    eexists. split; [reflexivity|].
    cbn [vertices indices idx index base andb].
    repeat split; assumption.
  - cbn [mbind option_bind]. rewrite Hrun. cbn [mbind option_bind].
    eexists. split; [reflexivity|].
    cbn [vertices indices idx index base andb].
    repeat split; try assumption; try lia. 
Qed.

Lemma triangles_spec game grid :
  mesh_ok game -> at_ (Grids game) (Index game) = Some grid ->
  exists t, triangles game = Some t /\
    len (vertices t) = len (Vertices game) /\
    len (indices t) = len (Indices game) /\
    idx t = 4 * alive_before (Width game) grid (Width game * Height game) /\
    index t = wrap16 (6 * (Width game * Height game)) /\
    base t = wrap16 (4 * (Width game * Height game)) /\
    (forall k c, 0 <= k < Width game * Height game ->
       alive_at (Width game) grid k = true -> 0 <= c < 4 ->
       at_ (vertices t) (4 * alive_before (Width game) grid k + c)
       = Some (corner game (k mod Width game) (k / Width game)
                 (c / 2) (c mod 2))) /\
    (forall p, 4 * alive_before (Width game) grid (Width game * Height game) <= p ->
       at_ (vertices t) p = at_ (Vertices game) p) /\
    (forall k j, 0 <= k < Width game * Height game -> 0 <= j < 6 ->
       (forall k' j', k < k' < Width game * Height game -> 0 <= j' < 6 ->
          wrap16 (6 * k' + j') <> wrap16 (6 * k + j)) ->
       at_ (indices t) (wrap16 (6 * k + j)) = Some (wrap16 (4 * k + quad j))) /\
    (forall s, (forall k j, 0 <= k < Width game * Height game -> 0 <= j < 6 ->
                  wrap16 (6 * k + j) <> s) ->
       at_ (indices t) s = at_ (Indices game) s).
Proof.
  intros (Hgok & Hvlen & Hilen) Hg.
  set (W := Width game) in *. set (H := Height game) in *.
  pose proof Hgok as (HW & HH & Hindex & _ & _).
  assert (Hok : grid_ok W H grid).
  { destruct (grids_ok_at W H _ _ _ Hgok Hindex) as (g' & Hg' & Hok').
    congruence. }
  set (P := fun (n : Z) (t : Tri) =>
    len (vertices t) = len (Vertices game) /\
    len (indices t) = len (Indices game) /\
    idx t = 4 * alive_before W grid n /\
    index t = wrap16 (6 * n) /\
    base t = wrap16 (4 * n) /\
    (forall k c, 0 <= k < n -> alive_at W grid k = true -> 0 <= c < 4 ->
       at_ (vertices t) (4 * alive_before W grid k + c)
       = Some (corner game (k mod W) (k / W) (c / 2) (c mod 2))) /\
    (forall p, 4 * alive_before W grid n <= p ->
       at_ (vertices t) p = at_ (Vertices game) p) /\
    (forall k j, 0 <= k < n -> 0 <= j < 6 ->
       (forall k' j', k < k' < n -> 0 <= j' < 6 ->
          wrap16 (6 * k' + j') <> wrap16 (6 * k + j)) ->
       at_ (indices t) (wrap16 (6 * k + j)) = Some (wrap16 (4 * k + quad j))) /\
    (forall s, (forall k j, 0 <= k < n -> 0 <= j < 6 ->
                  wrap16 (6 * k + j) <> s) ->
       at_ (indices t) s = at_ (Indices game) s)).
  destruct (for_grid_inv (fun y x t => P (y * W + x) t) W H
              (fun celly cellx => cell_triangles game celly cellx)
              (mkTri (Vertices game) (Indices game) 0 0 0))
    as (t & Hrun & Hend); [assumption | assumption | | | |].
  - (* before the first cell *)
    unfold P. cbn [vertices indices idx index base].
    replace (0 * W + 0) with 0 by lia. rewrite alive_before_0.
    repeat split; try reflexivity; intros; lia.
  - (* one cell *)
    intros y x t Hy Hx (Lv & Li & Eidx & Eind & Ebase & Hverts & Hvrest & Hquads & Hirest).
    set (k := y * W + x) in *.
    destruct (place_coords W x y Hx) as [Hkx Hky]. fold k in Hkx, Hky.
    pose proof (place_range W H x y Hx Hy) as Hk. fold k in Hk.
    pose proof (alive_before_range W grid k ltac:(lia)) as Hab.
    pose proof (wrap16_range (6 * k)). pose proof (wrap16_range (4 * k)).
    destruct (cell_triangles_spec game grid y x t (cell grid x y))
      as (t' & Hstep & Lv' & Li' & Eidx' & Eind' & Ebase' & Hv' & Hq' & Hi');
      try assumption; try lia.
    { apply (get_ok W H); assumption. }
    { intros j Hj. rewrite Eind, wrap16_add_l.
      destruct (Z.le_gt_cases 65536 (len (indices t))) as [Hbig|Hsmall].
      - pose proof (wrap16_range (6 * k + j)). lia.
      - pose proof (wrap16_le (6 * k + j) ltac:(lia)). lia. }
    exists t'. split; [exact Hstep|].
    assert (Halive : (cell grid x y =? 1) = alive_at W grid k).
    { unfold alive_at. rewrite Hkx, Hky. reflexivity. }
    rewrite Halive in *.
    replace (y * W + (x + 1)) with (k + 1) by (unfold k; lia).
    assert (Eab : 4 * alive_before W grid (k + 1) = idx t').
    { rewrite alive_before_succ by lia. rewrite Eidx', Eidx.
      destruct (alive_at W grid k); lia. }
    unfold P. rewrite Eab.
    split; [congruence|]. split; [congruence|]. split; [reflexivity|].
    split; [rewrite Eind', Eind, wrap16_add_l; f_equal; lia|].
    split; [rewrite Ebase', Ebase, wrap16_add_l; f_equal; lia|].
    split; [|split; [|split]].
    + intros k0 c Hk0 Ha Hc. rewrite Hv'.
      destruct (Z.eq_dec k0 k) as [->|Hne].
      * rewrite Ha. cbn [andb]. rewrite Eidx.
        replace ((4 * alive_before W grid k <=? 4 * alive_before W grid k + c)
                 && (4 * alive_before W grid k + c <? 4 * alive_before W grid k + 4))
          with true
          by (symmetry; apply andb_true_iff; split;
              [apply Z.leb_le | apply Z.ltb_lt]; lia).
        replace (4 * alive_before W grid k + c - 4 * alive_before W grid k)
          with c by lia.
        rewrite Hkx, Hky. reflexivity.
      * pose proof (alive_before_lt W grid k0 k ltac:(lia) Ha).
        replace ((idx t <=? 4 * alive_before W grid k0 + c)
                 && (4 * alive_before W grid k0 + c <? idx t + 4))
          with false
          by (symmetry; apply andb_false_iff; left; apply Z.leb_gt; lia).
        rewrite andb_false_r. apply Hverts; [lia | assumption | assumption].
    + intros p Hp. rewrite Hv'. rewrite Eidx' in Hp.
      destruct (alive_at W grid k); cbn [andb].
      * replace ((idx t <=? p) && (p <? idx t + 4)) with false
          by (symmetry; apply andb_false_iff; right; apply Z.ltb_ge; lia).
        apply Hvrest. lia.
      * apply Hvrest. lia.
    + intros k0 j Hk0 Hj Hfree.
      destruct (Z.eq_dec k0 k) as [->|Hne].
      * specialize (Hq' j Hj). rewrite Eind, Ebase, !wrap16_add_l in Hq'.
        exact Hq'.
      * rewrite Hi'.
        -- apply Hquads; [lia | assumption |].
           intros k' j' Hk' Hj'. apply Hfree; lia.
        -- intros j' Hj'. rewrite Eind, wrap16_add_l.
           intros E. apply (Hfree k j'); [lia | assumption | congruence].
    + intros s Hs. rewrite Hi'.
      * apply Hirest. intros k0 j Hk0 Hj. apply Hs; lia.
      * intros j Hj. rewrite Eind, wrap16_add_l.
        intros E. apply (Hs k j); [lia | assumption | congruence].
  - (* end of a row *)
    intros y t Hy HP. replace ((y + 1) * W + 0) with (y * W + W) by lia.
    exact HP.
  - exists t. split; [exact Hrun|].
    replace (H * W + 0) with (W * H) in Hend by lia. exact Hend.
Qed.
End Triangles.

Section MeshUpdate.
Import Life Mesh.
Implicit Types (game g : Game).

Lemma ClearVertices_spec game :
  ClearVertices game
  = Some (set_Vertices game (replicate (length (Vertices game)) Vertex0)).
Proof.
  unfold ClearVertices.
  destruct (for_range_inv
              (fun i vs => len vs = len (Vertices game) /\
                 forall p, 0 <= p < i -> at_ vs p = Some Vertex0)
              0 (len (Vertices game))
              (fun i vs => store vs i Vertex0) (Vertices game))
    as (vs & Hrun & Hlen & Hall).
  - apply len_nonneg.
  - split; [reflexivity|]. intros; lia.
  - intros i vs Hi [Hlen Hall]. rewrite store_in_range by lia.
    eexists. split; [reflexivity|]. split.
    + rewrite len_insert. assumption.
    + intros p Hp. destruct (Z.eq_dec p i) as [->|Hne].
      * apply at_insert_eq. lia.
      * rewrite at_insert_ne by lia. apply Hall. lia.
  - rewrite Hrun. cbn [mbind option_bind]. f_equal.
    assert (Hvs : vs = replicate (length (Vertices game)) Vertex0).
    { apply at_ext.
      - rewrite len_replicate. exact Hlen.
      - intros i Hi. rewrite Hall by lia.
        symmetry. apply at_replicate. unfold len in *. lia. }
    rewrite Hvs. unfold len. rewrite Nat2Z.id, take_ge by reflexivity.
    destruct game; reflexivity.
Qed.

Lemma mesh_ok_set_Vertices g vs :
  mesh_ok g -> len vs = len (Vertices g) -> mesh_ok (set_Vertices g vs).
Proof.
  intros (Hg & Hv & Hi) Hlen. unfold mesh_ok. cbn. rewrite Hlen. auto.
Qed.

Lemma mesh_ok_set_Grids g grids :
  mesh_ok g -> grids_ok (Width g) (Height g) grids (Index g) ->
  mesh_ok (set_Grids g grids).
Proof. intros (Hg & Hv & Hi) Hgrids. unfold mesh_ok. cbn. auto. Qed.

(** [UpdateTriangles] on a cleared vertex buffer. *)
Lemma UpdateTriangles_spec game grid :
  mesh_ok game -> at_ (Grids game) (Index game) = Some grid ->
  (forall p, 0 <= p < len (Vertices game) ->
     at_ (Vertices game) p = Some Vertex0) ->
  exists t,
    triangles game = Some t /\
    UpdateTriangles game
    = Some (set_Indices (set_Vertices game (vertices t)) (indices t)) /\
    len (indices t) = len (Indices game) /\
    mesh_of game grid (vertices t).
Proof.
  intros Hok Hg Hzero.
  destruct (triangles_spec game grid Hok Hg)
    as (t & Hrun & Lv & Li & _ & _ & _ & Hverts & Hrest & _ & _).
  exists t. split; [exact Hrun|]. unfold UpdateTriangles. rewrite Hrun.
  split; [reflexivity|]. split; [exact Li|].
  split; [exact Lv|]. split; [exact Hverts|].
  intros p Hp. rewrite Hrest by lia. apply Hzero.
  destruct Hok as ((HW & HH & _) & _).
  pose proof (alive_before_range (Width game) grid
                (Width game * Height game) ltac:(nia)).
  lia.
Qed.

Lemma grids_ok_flip W H grids i :
  grids_ok W H grids i -> grids_ok W H grids (Z.lxor i 1).
Proof.
  intros (HW & HH & Hi & Hrest). destruct (lxor_flip i Hi) as (Hf & _).
  repeat split; try assumption; apply Hrest.
Qed.

(** An advancing call of [UpdateCells]. *)
Lemma UpdateCells_advance game :
  mesh_ok game -> Pause game = false -> TPG game <= Elapsed game ->
  exists cur tgt t grids',
    at_ (Grids game) (Index game) = Some cur /\
    step_cells (Width game) (Height game) (Grids game) (Index game)
      (Z.lxor (Index game) 1) = Some grids' /\
    at_ grids' (Index game) = Some cur /\
    at_ grids' (Z.lxor (Index game) 1) = Some tgt /\
    grid_bits tgt /\
    (forall x y, 0 <= x < Width game -> 0 <= y < Height game ->
       cell tgt x y = next_cell (Width game) (Height game) cur x y) /\
    triangles
      (set_Grids
         (set_Vertices game (replicate (length (Vertices game)) Vertex0))
         grids') = Some t /\
    mesh_of game cur (vertices t) /\
    len (indices t) = len (Indices game) /\
    UpdateCells game
    = Some (set_Elapsed
              (set_Index
                 (set_Indices (set_Vertices (set_Grids game grids') (vertices t))
                    (indices t))
                 (Z.lxor (Index game) 1)) 0) /\
    grids_ok (Width game) (Height game) grids' (Z.lxor (Index game) 1).
Proof.
  intros Hok Hrun Hdue. pose proof Hok as (Hgok & Hv & Hi).
  destruct (step_cells_spec _ _ _ _ Hgok)
    as (cur & tgt & grids' & Hcur & Hstep & Hgok' & Hcur' & Htgt & Hbits & Hcells).
  set (cleared := set_Vertices game (replicate (length (Vertices game)) Vertex0)).
  assert (Hgok'' : grids_ok (Width game) (Height game) grids' (Index game)).
  { pose proof Hgok as (_ & _ & Hidx & _).
    destruct (lxor_flip _ Hidx) as (_ & _ & Hback).
    apply grids_ok_flip in Hgok'. rewrite Hback in Hgok'. exact Hgok'. }
  assert (Hok' : mesh_ok (set_Grids cleared grids')).
  { apply mesh_ok_set_Grids; [|exact Hgok''].
    apply mesh_ok_set_Vertices; [exact Hok|]. apply len_replicate. }
  destruct (UpdateTriangles_spec (set_Grids cleared grids') cur Hok')
    as (t & Htri & Hupd & Li & Hmesh).
  { exact Hcur'. }
  { intros p Hp. cbn in Hp |- *. rewrite len_replicate in Hp.
    apply at_replicate. lia. }
  exists cur, tgt, t, grids'.
  split; [exact Hcur|]. split; [exact Hstep|]. split; [exact Hcur'|].
  split; [exact Htgt|]. split; [exact Hbits|]. split; [exact Hcells|].
  split; [exact Htri|].
  split.
  { destruct Hmesh as (Lv & Hc & Hz). split; [|split; [exact Hc | exact Hz]].
    cbn in Lv. rewrite Lv, len_replicate. reflexivity. }
  split; [exact Li|]. split; [|exact Hgok'].
  - unfold UpdateCells. rewrite Hrun.
    replace (Elapsed game <? TPG game) with false
      by (symmetry; apply Z.ltb_ge; lia).
    rewrite ClearVertices_spec. cbn [mbind option_bind].
    change (Width (set_Vertices game _)) with (Width game).
    change (Height (set_Vertices game _)) with (Height game).
    change (Grids (set_Vertices game _)) with (Grids game).
    change (Index (set_Vertices game _)) with (Index game).
    rewrite Hstep. cbn [mbind option_bind].
    fold cleared. rewrite Hupd. cbn [mbind option_bind].
    cbn [Debug Index Grids set_Elapsed set_Index set_Indices set_Vertices set_Grids cleared].
    destruct (Debug game).
    + cbn. cbn in Htgt. rewrite Htgt. cbn. reflexivity.
    + reflexivity.
Qed.

End MeshUpdate.

(** ** Initialisation *)

Section Initialisation.
Import Life.

Lemma NewGrid_spec width height density :
  0 <= width -> 0 <= height ->
  NewGrid width height density
  = Some (mkGrid (replicate (Z.to_nat height) (replicate (Z.to_nat width) 0))
            width height density).
Proof.
  intros Hw Hh. unfold NewGrid. rewrite !make_Some by assumption.
  cbn [mbind option_bind].
  destruct (for_range_inv
              (fun y d => len d = height /\
                 forall p, 0 <= p < y ->
                   at_ d p = Some (replicate (Z.to_nat width) 0))
              0 height
              (fun y d => store d y (replicate (Z.to_nat width) 0))
              (replicate (Z.to_nat height) []))
    as (d & Hrun & Hlen & Hall).
  - assumption.
  - split; [rewrite len_replicate; lia|]. intros; lia.
  - intros y d Hy [Hlen Hall]. rewrite store_in_range by lia.
    eexists. split; [reflexivity|]. split.
    + rewrite len_insert. assumption.
    + intros p Hp. destruct (Z.eq_dec p y) as [->|Hne].
      * apply at_insert_eq. lia.
      * rewrite at_insert_ne by lia. apply Hall. lia.
  - rewrite Hrun. cbn [mbind option_bind]. f_equal. f_equal.
    apply at_ext.
    + rewrite len_replicate. lia.
    + intros i Hi. rewrite Hall by lia. symmetry. apply at_replicate. lia.
Qed.

Lemma NewGrid_ok width height density :
  0 <= width -> 0 <= height ->
  let grid := mkGrid (replicate (Z.to_nat height)
                        (replicate (Z.to_nat width) 0)) width height density in
  grid_ok width height grid /\ forall x y, cell grid x y = 0.
Proof.
  intros Hw Hh grid. split.
  - split; simpl.
    + rewrite len_replicate. lia.
    + apply Forall_replicate. rewrite len_replicate. lia.
  - intros x y. unfold cell, get. simpl.
    destruct (at_ (replicate (Z.to_nat height) (replicate (Z.to_nat width) 0)) y)
      as [row|] eqn:Hrow; [|reflexivity].
    cbn [mbind option_bind].
    apply at_Some in Hrow as [_ Hrow]. apply lookup_replicate in Hrow as [-> _].
    destruct (at_ (replicate (Z.to_nat width) 0) x) as [v|] eqn:Hv;
      [|reflexivity].
    apply at_Some in Hv as [_ Hv]. apply lookup_replicate in Hv as [-> _].
    reflexivity.
Qed.

(** The seeding loop does not panic when the density is positive, and
    leaves a grid of zeroes and ones. *)
Lemma seed_spec rnd W H density grida :
  0 <= W -> 0 <= H -> 0 < density ->
  grid_ok W H grida -> (forall x y, cell grida x y = 0 \/ cell grida x y = 1) ->
  exists grid k, seed rnd W H density grida = Some (grid, k) /\
    grid_ok W H grid /\ grid_bits grid.
Proof.
  intros HW HH Hd Hok Hbits. unfold seed.
  destruct (for_grid_inv
    (fun (y x : Z) (s : Grid * Z) =>
       grid_ok W H (fst s) /\
       forall x y, cell (fst s) x y = 0 \/ cell (fst s) x y = 1)
    W H
    (fun y x '(grid, k) =>
       r ← Intn rnd k density;
       if r =? 1
       then grid' ← set grid y x 1; Some (grid', k + 1)
       else Some (grid, k + 1)) (grida, 0))
    as ([grid k] & Hrun & Hgok & Hgbits); try assumption.
  - split; assumption.
  - intros y x [grid k] Hy Hx [Hgok Hgbits]. cbn [fst] in *.
    unfold Intn. replace (density <=? 0) with false
      by (symmetry; apply Z.leb_gt; lia).
    cbn [mbind option_bind].
    destruct (rnd k mod density =? 1).
    + destruct (set_spec W H grid x y 1 Hgok Hx Hy)
        as (grid' & Hset & Hok' & Hxy & Hother).
      rewrite Hset. cbn [mbind option_bind].
      eexists. split; [reflexivity|]. cbn [fst]. split; [assumption|].
      intros x' y'.
      destruct (Z.eq_dec x' x) as [->|Hxne];
        [destruct (Z.eq_dec y' y) as [->|Hyne]|].
      * right. exact Hxy.
      * rewrite Hother by lia. apply Hgbits.
      * rewrite Hother by lia. apply Hgbits.
    + eexists. split; [reflexivity|]. cbn [fst]. split; assumption.
  - intros y s Hy Hs. exact Hs.
  - exists grid, k. split; [exact Hrun|]. cbn [fst] in *.
    split; [assumption|]. apply (grid_bits_cells W H); [assumption|].
    intros x y _ _. apply Hgbits.
Qed.

(** The two grids that [Init] builds. *)
Lemma Init_grids rnd W H density :
  0 <= W -> 0 <= H -> 0 < density ->
  exists grida gridb k,
    NewGrid W H density = Some gridb /\
    seed rnd W H density gridb = Some (grida, k) /\
    grids_ok W H [grida; gridb] 0 /\
    grid_bits grida /\ grid_bits gridb.
Proof.
  intros HW HH Hd.
  destruct (NewGrid_ok W H density HW HH) as [Hok Hzero].
  destruct (seed_spec rnd W H density _ HW HH Hd Hok)
    as (grida & k & Hseed & Haok & Habits).
  { intros x y. left. apply Hzero. }
  eexists grida, _, k. split; [apply NewGrid_spec; assumption|].
  split; [exact Hseed|]. split; [|split; [exact Habits|]].
  - split; [assumption|]. split; [assumption|]. split; [left; reflexivity|].
    split; [reflexivity|].
    apply Forall_cons_2; [assumption|].
    apply Forall_cons_2; [assumption|]. apply Forall_nil_2.
  - apply (grid_bits_cells W H); [assumption|].
    intros x y _ _. left. apply Hzero.
Qed.

Lemma NewImage_Some w h : 1 <= w -> 1 <= h -> NewImage w h = Some tt.
Proof.
  intros Hw Hh. unfold NewImage.
  replace (w <? 1) with false by (symmetry; apply Z.ltb_ge; lia).
  replace (h <? 1) with false by (symmetry; apply Z.ltb_ge; lia).
  reflexivity.
Qed.

Lemma NewImage_inv w h u : NewImage w h = Some u -> 1 <= w /\ 1 <= h.
Proof.
  unfold NewImage.
  destruct (Z.ltb_spec w 1); destruct (Z.ltb_spec h 1); cbn [orb];
    intros E; try discriminate E. lia.
Qed.

Lemma NewImage_None w h : NewImage w h = None <-> w < 1 \/ h < 1.
Proof.
  unfold NewImage.
  destruct (Z.ltb_spec w 1); destruct (Z.ltb_spec h 1); cbn [orb];
    split; intros E; try discriminate E; try reflexivity; lia.
Qed.

Lemma Mesh_Init_spec rnd (game : Mesh.Game) :
  0 <= Mesh.Width game -> 0 <= Mesh.Height game -> 0 < Mesh.Density game ->
  1 <= Mesh.Cellsize game ->
  1 <= Mesh.ScreenWidth game -> 1 <= Mesh.ScreenHeight game ->
  0 <= Mesh.ScreenHeight game * Mesh.ScreenWidth game < 2 ^ 62 ->
  exists grida gridb,
    grids_ok (Mesh.Width game) (Mesh.Height game) [grida; gridb] 0 /\
    grid_bits grida /\ grid_bits gridb /\
    let lenvertices := Mesh.ScreenHeight game * Mesh.ScreenWidth game in
    Mesh.Init rnd game
    = Some (Mesh.set_Indices
              (Mesh.set_Vertices
                 (Mesh.set_Colors (Mesh.set_Grids game [grida; gridb])
                    (Mesh.mkRGBA 0 0 0 255) (Mesh.mkRGBA 200 200 200 255)
                    (Mesh.mkRGBA 128 128 128 255))
                 (replicate (Z.to_nat lenvertices) Mesh.Vertex0))
              (replicate (Z.to_nat (lenvertices + Z.quot lenvertices 2)) 0)).
Proof.
  intros HW HH Hd Hcs Hsw Hsh Hs.
  destruct (Init_grids rnd _ _ _ HW HH Hd)
    as (grida & gridb & k & Hnew & Hseed & Hok & Ha & Hb).
  exists grida, gridb. split; [exact Hok|]. split; [exact Ha|].
  split; [exact Hb|]. intros lenvertices.
  unfold Mesh.Init. rewrite Hnew. cbn [mbind option_bind].
  rewrite Hseed. cbn [mbind option_bind].
  cbn [Mesh.ScreenHeight Mesh.ScreenWidth Mesh.Cellsize Mesh.set_Colors
       Mesh.set_Grids].
  rewrite !NewImage_Some by assumption. cbn [mbind option_bind].
  fold lenvertices.
  pose proof (Z.quot_pos lenvertices 2 (proj1 Hs) ltac:(lia)) as Hq.
  assert (Hhalf : Z.quot lenvertices 2 <= lenvertices)
    by (apply Z.quot_le_upper_bound; lia).
  rewrite (wrap64_small lenvertices) by (unfold lenvertices in *; lia).
  rewrite (wrap64_small (lenvertices + Z.quot lenvertices 2))
    by (unfold lenvertices in *; lia).
  rewrite (make_Some Mesh.Vertex0 lenvertices) by exact (proj1 Hs).
  cbn [mbind option_bind].
  rewrite (make_Some 0 (lenvertices + Z.quot lenvertices 2)) by lia.
  reflexivity.
Qed.

Lemma Raster_Init_spec rnd (game : Raster.Game) :
  0 <= Raster.Width game -> 0 <= Raster.Height game ->
  0 < Raster.Density game ->
  1 <= Raster.ScreenWidth game -> 1 <= Raster.ScreenHeight game ->
  0 <= Raster.ScreenWidth game * Raster.ScreenHeight game < 2 ^ 60 ->
  exists grida gridb,
    grids_ok (Raster.Width game) (Raster.Height game) [grida; gridb] 0 /\
    grid_bits grida /\ grid_bits gridb /\
    Raster.Init rnd game
    = Some (Raster.set_Pixels (Raster.set_Grids game [grida; gridb])
              (replicate
                 (Z.to_nat (Raster.ScreenWidth game * Raster.ScreenHeight game * 4))
                 0)).
Proof.
  intros HW HH Hd Hsw Hsh Hs.
  destruct (Init_grids rnd _ _ _ HW HH Hd)
    as (grida & gridb & k & Hnew & Hseed & Hok & Ha & Hb).
  exists grida, gridb. split; [exact Hok|]. split; [exact Ha|].
  split; [exact Hb|].
  unfold Raster.Init. rewrite Hnew. cbn [mbind option_bind].
  rewrite Hseed. cbn [mbind option_bind].
  cbn [Raster.ScreenHeight Raster.ScreenWidth Raster.set_Grids].
  rewrite (wrap64_small (Raster.ScreenWidth game * Raster.ScreenHeight game))
    by lia.
  rewrite wrap64_small by lia.
  rewrite make_Some by lia. cbn [mbind option_bind].
  rewrite NewImage_Some by assumption. reflexivity.
Qed.

(** What [Init] allocates, whenever it returns. *)
Lemma Mesh_Init_lengths rnd (game game' : Mesh.Game) :
  Mesh.Init rnd game = Some game' ->
  Z.abs (Mesh.ScreenHeight game * Mesh.ScreenWidth game) < 2 ^ 62 ->
  len (Mesh.Vertices game')
  = Mesh.ScreenHeight game * Mesh.ScreenWidth game /\
  len (Mesh.Indices game')
  = Mesh.ScreenHeight game * Mesh.ScreenWidth game
    + Z.quot (Mesh.ScreenHeight game * Mesh.ScreenWidth game) 2 /\
  Mesh.Width game' = Mesh.Width game /\ Mesh.Height game' = Mesh.Height game /\
  Mesh.Cellsize game' = Mesh.Cellsize game /\
  Mesh.ScreenWidth game' = Mesh.ScreenWidth game /\
  Mesh.ScreenHeight game' = Mesh.ScreenHeight game /\
  1 <= Mesh.Cellsize game.
Proof.
  unfold Mesh.Init. intros Hinit Hint.
  destruct (NewGrid _ _ _) as [gridb|]; [|discriminate].
  cbn [mbind option_bind] in Hinit.
  destruct (seed _ _ _ _ _) as [[grida k]|]; [|discriminate].
  cbn [mbind option_bind] in Hinit.
  cbn [Mesh.ScreenHeight Mesh.ScreenWidth Mesh.Cellsize Mesh.set_Colors
       Mesh.set_Grids] in Hinit.
  destruct (NewImage (Mesh.Cellsize game) _) as [[]|] eqn:Hcs;
    [|discriminate].
  cbn [mbind option_bind] in Hinit. apply NewImage_inv in Hcs.
  destruct (NewImage (Mesh.ScreenWidth game) _) as [[]|]; [|discriminate].
  cbn [mbind option_bind] in Hinit.
  rewrite (wrap64_small (Mesh.ScreenHeight game * Mesh.ScreenWidth game))
    in Hinit by lia.
  destruct (make Mesh.Vertex0 _) as [vs|] eqn:Hvs; [|discriminate].
  cbn [mbind option_bind] in Hinit.
  apply make_inv in Hvs as [Hvn ->].
  pose proof (Z.quot_pos _ 2 Hvn ltac:(lia)) as Hq.
  assert (Hhalf : Z.quot (Mesh.ScreenHeight game * Mesh.ScreenWidth game) 2
                  <= Mesh.ScreenHeight game * Mesh.ScreenWidth game)
    by (apply Z.quot_le_upper_bound; lia).
  rewrite wrap64_small in Hinit by lia.
  destruct (make 0 _) as [ix|] eqn:Hix; [|discriminate].
  cbn [mbind option_bind] in Hinit. inversion Hinit; subst game'.
  apply make_inv in Hix as [Hin ->].
  cbn [Mesh.Vertices Mesh.Indices Mesh.Width Mesh.Height Mesh.Cellsize
       Mesh.ScreenWidth Mesh.ScreenHeight Mesh.set_Indices Mesh.set_Vertices
       Mesh.set_Colors Mesh.set_Grids].
  rewrite !len_replicate. repeat split; lia.
Qed.

Lemma Raster_Init_lengths rnd (game game' : Raster.Game) :
  Raster.Init rnd game = Some game' ->
  Z.abs (Raster.ScreenWidth game * Raster.ScreenHeight game) < 2 ^ 60 ->
  len (Raster.Pixels game')
  = 4 * (Raster.ScreenWidth game * Raster.ScreenHeight game) /\
  Raster.ScreenWidth game' = Raster.ScreenWidth game /\
  Raster.ScreenHeight game' = Raster.ScreenHeight game.
Proof.
  unfold Raster.Init. intros Hinit Hint.
  destruct (NewGrid _ _ _) as [gridb|]; [|discriminate].
  cbn [mbind option_bind] in Hinit.
  destruct (seed _ _ _ _ _) as [[grida k]|]; [|discriminate].
  cbn [mbind option_bind] in Hinit.
  cbn [Raster.ScreenHeight Raster.ScreenWidth Raster.set_Grids] in Hinit.
  rewrite (wrap64_small (Raster.ScreenWidth game * Raster.ScreenHeight game))
    in Hinit by lia.
  rewrite wrap64_small in Hinit by lia.
  destruct (make 0 _) as [px|] eqn:Hpx; [|discriminate].
  cbn [mbind option_bind] in Hinit.
  destruct (NewImage _ _) as [[]|]; [|discriminate].
  cbn [mbind option_bind] in Hinit. inversion Hinit; subst game'.
  apply make_inv in Hpx as [Hn ->].
  cbn [Raster.Pixels Raster.ScreenWidth Raster.ScreenHeight Raster.set_Pixels
       Raster.set_Grids].
  rewrite len_replicate. repeat split; lia.
Qed.

End Initialisation.

(** ** The raster *)

Section RasterUpdate.
Import Life Raster.
Implicit Types (game g : Game).

Lemma pixel_col_spec game grid x y :
  raster_ok game -> at_ (Grids game) (Index game) = Some grid ->
  0 <= x < ScreenWidth game -> 0 <= y < ScreenHeight game ->
  pixel_col game x y = Some (grey_level game grid x y).
Proof.
  intros (Hgok & Hcs & Hsw & Hsh & _) Hg Hx Hy.
  pose proof Hgok as (_ & _ & Hidx & _).
  assert (Hok : grid_ok (Width game) (Height game) grid).
  { destruct (grids_ok_at _ _ _ _ _ Hgok Hidx) as (g' & Hg' & Hok').
    congruence. }
  unfold pixel_col, grey_level.
  replace (Cellsize game =? 0) with false by (symmetry; apply Z.eqb_neq; lia).
  rewrite Hg. cbn [mbind option_bind].
  rewrite !Z.quot_div_nonneg, !Z.rem_mod_nonneg by lia.
  rewrite (get_ok (Width game) (Height game)); [| assumption | |].
  - cbn [mbind option_bind]. f_equal.
    destruct (Gridlines game); cbn [andb];
      destruct (cell grid (x / Cellsize game) (y / Cellsize game) =? 1);
      reflexivity.
  - split; [apply Z.div_pos; lia|]. apply Z.div_lt_upper_bound; nia.
  - split; [apply Z.div_pos; lia|]. apply Z.div_lt_upper_bound; nia.
Qed.

Lemma store4 (px : list Z) p c :
  0 <= p -> p + 4 <= len px ->
  exists px',
    (px1 ← store px p c;
     px2 ← store px1 (p + 1) c;
     px3 ← store px2 (p + 2) c;
     store px3 (p + 3) 255) = Some px' /\
    len px' = len px /\
    at_ px' p = Some c /\ at_ px' (p + 1) = Some c /\
    at_ px' (p + 2) = Some c /\ at_ px' (p + 3) = Some 255 /\
    forall q, (q < p \/ p + 4 <= q) -> at_ px' q = at_ px q.
Proof.
  intros H0 H4.
  rewrite store_in_range by lia. cbn [mbind option_bind].
  rewrite store_in_range by (rewrite ?len_insert; lia).
  cbn [mbind option_bind].
  rewrite store_in_range by (rewrite ?len_insert; lia).
  cbn [mbind option_bind].
  rewrite store_in_range by (rewrite ?len_insert; lia).
  eexists. split; [reflexivity|].
  split; [rewrite !len_insert; reflexivity|].
  repeat split; intros;
    repeat first
      [ rewrite at_insert_eq by (rewrite ?len_insert; lia)
      | rewrite at_insert_ne by lia ];
    reflexivity.
Qed.

Lemma UpdatePixels_spec game grid :
  raster_ok game -> at_ (Grids game) (Index game) = Some grid ->
  exists px,
    UpdatePixels game = Some (set_Pixels game px) /\ raster_of game grid px.
Proof.
  intros Hok Hg. pose proof Hok as (Hgok & Hcs & Hsw & Hsh & Hlen).
  set (SW := ScreenWidth game) in *. set (SH := ScreenHeight game) in *.
  set (painted := fun (px : list Z) (x y : Z) =>
    let p := 4 * (x + y * SW) in
    let c := grey_level game grid x y in
    at_ px p = Some c /\ at_ px (p + 1) = Some c /\
    at_ px (p + 2) = Some c /\ at_ px (p + 3) = Some 255).
  destruct (for_grid_inv
    (fun y x px =>
       len px = len (Pixels game) /\
       forall x' y', 0 <= x' < SW -> 0 <= y' < SH ->
         (y' < y \/ (y' = y /\ x' < x)) -> painted px x' y')
    SW SH (fun y x => pixel game y x) (Pixels game))
    as (px & Hrun & Hplen & Hall); try lia.
  - split; [reflexivity|]. intros; lia.
  - intros y x px Hy Hx [Hplen Hdone].
    unfold pixel. rewrite (pixel_col_spec game grid) by assumption.
    cbn [mbind option_bind]. fold SW.
    destruct (store4 px (4 * (x + y * SW)) (grey_level game grid x y))
      as (px' & Hst & Hlen' & A0 & A1 & A2 & A3 & Hrest); [nia | nia |].
    rewrite Hst. exists px'. split; [reflexivity|].
    split; [congruence|].
    intros x' y' Hx' Hy' Hbefore.
    destruct (Z.eq_dec y' y) as [->|Hyne];
      [destruct (Z.eq_dec x' x) as [->|Hxne]|].
    + unfold painted. cbv zeta. auto.
    + specialize (Hdone x' y Hx' Hy' ltac:(lia)).
      unfold painted in *. cbv zeta in *.
      rewrite !Hrest by nia. exact Hdone.
    + specialize (Hdone x' y' Hx' Hy' ltac:(lia)).
      unfold painted in *. cbv zeta in *.
      rewrite !Hrest by nia. exact Hdone.
  - intros y px Hy [Hplen Hdone]. split; [assumption|].
    intros x' y' Hx' Hy' Hbefore. apply Hdone; lia.
  - exists px. split.
    + unfold UpdatePixels. fold SW SH. rewrite Hrun. reflexivity.
    + split; [assumption|]. intros x y Hx Hy. apply Hall; lia.
Qed.

(** An advancing call of [UpdateCells]. *)
Lemma UpdateCells_advance_raster game :
  raster_ok game -> Pause game = false -> TPG game <= Elapsed game ->
  exists cur tgt grids' px,
    at_ (Grids game) (Index game) = Some cur /\
    step_cells (Width game) (Height game) (Grids game) (Index game)
      (Z.lxor (Index game) 1) = Some grids' /\
    at_ grids' (Index game) = Some cur /\
    at_ grids' (Z.lxor (Index game) 1) = Some tgt /\
    grid_bits tgt /\
    (forall x y, 0 <= x < Width game -> 0 <= y < Height game ->
       cell tgt x y = next_cell (Width game) (Height game) cur x y) /\
    raster_of game tgt px /\
    UpdateCells game
    = Some (set_Pixels
              (set_Elapsed
                 (set_Index (set_Grids game grids') (Z.lxor (Index game) 1))
                 0) px) /\
    grids_ok (Width game) (Height game) grids' (Z.lxor (Index game) 1).
Proof.
  intros Hok Hrun Hdue. pose proof Hok as (Hgok & Hcs & Hsw & Hsh & Hlen).
  destruct (step_cells_spec _ _ _ _ Hgok)
    as (cur & tgt & grids' & Hcur & Hstep & Hgok' & Hcur' & Htgt & Hbits & Hcells).
  set (flipped := set_Elapsed
                    (set_Index (set_Grids game grids') (Z.lxor (Index game) 1))
                    0).
  assert (Hok' : raster_ok flipped).
  { split; [exact Hgok'|]. repeat split; assumption || apply Hsw || apply Hsh. }
  destruct (UpdatePixels_spec flipped tgt Hok' Htgt) as (px & Hupd & Hpx).
  exists cur, tgt, grids', px.
  split; [exact Hcur|]. split; [exact Hstep|]. split; [exact Hcur'|].
  split; [exact Htgt|]. split; [exact Hbits|]. split; [exact Hcells|].
  split; [exact Hpx|]. split; [|exact Hgok'].
  unfold UpdateCells. rewrite Hrun.
  replace (Elapsed game <? TPG game) with false
    by (symmetry; apply Z.ltb_ge; lia).
  rewrite Hstep. cbn [mbind option_bind]. fold flipped. exact Hupd.
Qed.

End RasterUpdate.

(** ** The demonstration games *)

Lemma demo_grids_ok : grids_ok 4 3 [demo_grid; demo_blank] 0.
Proof.
  split; [lia|]. split; [lia|]. split; [left; reflexivity|].
  split; [reflexivity|].
  apply Forall_cons_2; [grid_facts|].
  apply Forall_cons_2; [grid_facts|]. apply Forall_nil_2.
Qed.

Lemma mesh_demo_ok : mesh_ok mesh_demo.
Proof.
  split; [exact demo_grids_ok|]. split; vm_compute; discriminate.
Qed.

Lemma raster_demo_ok : raster_ok raster_demo.
Proof.
  split; [exact demo_grids_ok|]. cbn -[Z.mul].
  repeat split; vm_compute; discriminate.
Qed.

(** ** The generation scheduler *)

Section Scheduler.

Lemma advanced_intro W H grids index count grids' cur tgt :
  grid_ok W H cur -> grid_ok W H tgt ->
  at_ grids index = Some cur -> at_ grids' index = Some cur ->
  at_ grids' (Z.lxor index 1) = Some tgt ->
  (forall x y, 0 <= x < W -> 0 <= y < H ->
     count x y = Life.CountNeighbors W H grids index x y) ->
  (forall x y, 0 <= x < W -> 0 <= y < H ->
     cell tgt x y = next_cell W H cur x y) ->
  advanced W H grids index count grids' (Z.lxor index 1).
Proof.
  intros Hcok Htok Hcur Hcur' Htgt Hcount Hcells.
  split; [reflexivity|]. exists cur, tgt.
  split; [exact Hcur|]. split; [exact Hcur'|]. split; [exact Htgt|].
  intros x y Hx Hy.
  exists (cell cur x y), (wrap64 (neighbours W H cur x y)).
  split; [apply (get_ok W H); assumption|].
  split.
  - rewrite Hcount by assumption.
    apply CountNeighbors_wrap; assumption.
  - rewrite (get_ok W H) by assumption. f_equal.
    apply Hcells; assumption.
Qed.

Lemma grids_ok_cur W H grids index grid :
  grids_ok W H grids index -> at_ grids index = Some grid ->
  grid_ok W H grid.
Proof.
  intros Hok Hg. pose proof Hok as (_ & _ & Hidx & _).
  destruct (grids_ok_at W H grids index index Hok Hidx) as (g & Hg' & Hgok).
  congruence.
Qed.

End Scheduler.

(** C1. A call of [UpdateCells] with [Pause] false and [Elapsed >= TPG]
    advances one generation, in both programs: it returns, every cell
    [(x, y)] of the grid that was inactive now holds [CheckRule] of the
    active grid's cell and of [CountNeighbors(x, y)], the index is flipped by
    [xor 1] while the grid that was active stays in place untouched, and
    [Elapsed] is 0.  With [Pause] true or [Elapsed < TPG] no generation
    advances: the grids and the index stay as they are, and only [Elapsed]
    is counted up when the game is not paused. *)
Theorem UpdateCells_generation :
  (forall g : Mesh.Game,
     mesh_ok g -> Mesh.Pause g = false -> Mesh.TPG g <= Mesh.Elapsed g ->
     exists g', Mesh.UpdateCells g = Some g' /\
       advanced (Mesh.Width g) (Mesh.Height g) (Mesh.Grids g) (Mesh.Index g)
         (Mesh.CountNeighbors g) (Mesh.Grids g') (Mesh.Index g') /\
       Mesh.Elapsed g' = 0) /\
  (forall g : Raster.Game,
     raster_ok g -> Raster.Pause g = false ->
     Raster.TPG g <= Raster.Elapsed g ->
     exists g', Raster.UpdateCells g = Some g' /\
       advanced (Raster.Width g) (Raster.Height g) (Raster.Grids g)
         (Raster.Index g) (Raster.CountNeighbors g) (Raster.Grids g')
         (Raster.Index g') /\
       Raster.Elapsed g' = 0) /\
  (forall g : Mesh.Game,
     Mesh.Pause g = true \/ Mesh.Elapsed g < Mesh.TPG g ->
     exists g', Mesh.UpdateCells g = Some g' /\
       Mesh.Grids g' = Mesh.Grids g /\ Mesh.Index g' = Mesh.Index g /\
       Mesh.Vertices g' = Mesh.Vertices g /\
       Mesh.Indices g' = Mesh.Indices g /\
       Mesh.Elapsed g'
       = if Mesh.Pause g then Mesh.Elapsed g
         else wrap64 (Mesh.Elapsed g + 1)) /\
  (forall g : Raster.Game,
     Raster.Pause g = true \/ Raster.Elapsed g < Raster.TPG g ->
     exists g', Raster.UpdateCells g = Some g' /\
       Raster.Grids g' = Raster.Grids g /\ Raster.Index g' = Raster.Index g /\
       Raster.Pixels g' = Raster.Pixels g /\
       Raster.Elapsed g'
       = if Raster.Pause g then Raster.Elapsed g
         else wrap64 (Raster.Elapsed g + 1)).
Proof.
  split; [|split; [|split]].
  - intros g Hok Hrun Hdue.
    destruct (UpdateCells_advance g Hok Hrun Hdue)
      as (cur & tgt & t & grids' & Hcur & _ & Hcur' & Htgt & _ & Hcells
          & _ & _ & _ & Hupd & Hgok').
    eexists. split; [exact Hupd|]. split; [|reflexivity].
    cbn [Mesh.Grids Mesh.Index Mesh.set_Elapsed Mesh.set_Index
         Mesh.set_Indices Mesh.set_Vertices Mesh.set_Grids].
    destruct Hok as (Hgok & _).
    apply (advanced_intro _ _ _ _ _ _ cur tgt); try assumption.
    + apply (grids_ok_cur _ _ _ _ _ Hgok Hcur).
    + apply (grids_ok_cur _ _ _ _ _ Hgok' Htgt).
    + intros; reflexivity.
  - intros g Hok Hrun Hdue.
    destruct (UpdateCells_advance_raster g Hok Hrun Hdue)
      as (cur & tgt & grids' & px & Hcur & _ & Hcur' & Htgt & _ & Hcells
          & _ & Hupd & Hgok').
    eexists. split; [exact Hupd|]. split; [|reflexivity].
    cbn [Raster.Grids Raster.Index Raster.set_Elapsed Raster.set_Index
         Raster.set_Pixels Raster.set_Grids].
    destruct Hok as (Hgok & _).
    apply (advanced_intro _ _ _ _ _ _ cur tgt); try assumption.
    + apply (grids_ok_cur _ _ _ _ _ Hgok Hcur).
    + apply (grids_ok_cur _ _ _ _ _ Hgok' Htgt).
    + intros; reflexivity.
  - intros g Hwait. unfold Mesh.UpdateCells.
    destruct (Mesh.Pause g) eqn:Hp.
    + eexists. split; [reflexivity|]. repeat split.
    + destruct Hwait as [Hf | Hlt]; [discriminate|].
      replace (Mesh.Elapsed g <? Mesh.TPG g) with true
        by (symmetry; apply Z.ltb_lt; assumption).
      eexists. split; [reflexivity|]. repeat split.
  - intros g Hwait. unfold Raster.UpdateCells.
    destruct (Raster.Pause g) eqn:Hp.
    + eexists. split; [reflexivity|]. repeat split.
    + destruct Hwait as [Hf | Hlt]; [discriminate|].
      replace (Raster.Elapsed g <? Raster.TPG g) with true
        by (symmetry; apply Z.ltb_lt; assumption).
      eexists. split; [reflexivity|]. repeat split.
Qed.

Lemma UpdateCells_generation_witness :
  (exists g', Mesh.UpdateCells mesh_demo = Some g' /\
     Mesh.Index g' = 1 /\ Mesh.Elapsed g' = 0 /\
     Mesh.Grids g' = [demo_grid; demo_blank]) /\
  (exists g', Raster.UpdateCells raster_demo = Some g' /\
     Raster.Index g' = 1 /\ Raster.Elapsed g' = 0 /\
     Raster.Grids g' = [demo_grid; demo_blank]) /\
  (exists g', Mesh.UpdateCells (Mesh.set_Pause mesh_demo true) = Some g' /\
     Mesh.Index g' = 0) /\
  (exists g', Raster.UpdateCells (Raster.set_Elapsed raster_demo 3) = Some g' /\
     Raster.Elapsed g' = 4).
Proof.
  destruct UpdateCells_generation as (Hm & Hr & Hmw & Hrw).
  split; [|split; [|split]].
  - destruct (Hm mesh_demo mesh_demo_ok eq_refl ltac:(vm_compute; discriminate))
      as (g' & Hupd & _ & _).
    exists g'. split; [exact Hupd|].
    vm_compute in Hupd. inversion Hupd. repeat split.
  - destruct (Hr raster_demo raster_demo_ok eq_refl ltac:(vm_compute; discriminate))
      as (g' & Hupd & _ & _).
    exists g'. split; [exact Hupd|].
    vm_compute in Hupd. inversion Hupd. repeat split.
  - destruct (Hmw (Mesh.set_Pause mesh_demo true) (or_introl eq_refl))
      as (g' & Hupd & _ & Hidx & _).
    exists g'. split; [exact Hupd | exact Hidx].
  - destruct (Hrw (Raster.set_Elapsed raster_demo 3)
                (or_intror eq_refl))
      as (g' & Hupd & _ & _ & _ & He).
    exists g'. split; [exact Hupd | exact He].
Defined.

(** ** Pause *)

Section Paused.

Lemma frames_idle {G} (update : bool -> G -> option G) (n : nat) (g : G) :
  update false g = Some g -> frames update (replicate n false) g = Some g.
Proof.
  intros Hid. induction n as [|n IH]; [reflexivity|].
  cbn [replicate frames]. rewrite Hid. exact IH.
Qed.

End Paused.

(** C7. While [Pause] is true a frame changes nothing of the simulation, in
    both programs: [UpdateCells] returns the game as it is, so the two
    grids, the index, [Elapsed], the vertex and index buffers and the pixel
    buffer are what they were, also after any number of frames in a row
    without a key press; a frame in which the space key is pressed only
    flips [Pause]. *)
Theorem paused_frames_are_idle :
  (forall (g : Mesh.Game) (n : nat),
     Mesh.Pause g = true ->
     Mesh.UpdateCells g = Some g /\
     frames Mesh.Update (replicate n false) g = Some g /\
     Mesh.Update true g = Some (Mesh.set_Pause g false)) /\
  (forall (g : Raster.Game) (n : nat),
     Raster.Pause g = true ->
     Raster.UpdateCells g = Some g /\
     frames Raster.Update (replicate n false) g = Some g /\
     Raster.Update true g = Some (Raster.set_Pause g false)).
Proof.
  split.
  - intros g n Hp.
    assert (Hc : Mesh.UpdateCells g = Some g)
      by (unfold Mesh.UpdateCells; rewrite Hp; reflexivity).
    split; [exact Hc|]. split.
    + apply frames_idle. unfold Mesh.Update. rewrite Hc. reflexivity.
    + unfold Mesh.Update. rewrite Hc. cbn. rewrite Hp. reflexivity.
  - intros g n Hp.
    assert (Hc : Raster.UpdateCells g = Some g)
      by (unfold Raster.UpdateCells; rewrite Hp; reflexivity).
    split; [exact Hc|]. split.
    + apply frames_idle. unfold Raster.Update. rewrite Hc. reflexivity.
    + unfold Raster.Update. rewrite Hc. cbn. rewrite Hp. reflexivity.
Qed.

Lemma paused_frames_are_idle_witness :
  Mesh.Pause (Mesh.set_Pause mesh_demo true) = true /\
  frames Mesh.Update [false; false; false] (Mesh.set_Pause mesh_demo true)
  = Some (Mesh.set_Pause mesh_demo true) /\
  Raster.Pause (Raster.set_Pause raster_demo true) = true /\
  frames Raster.Update [false; false; false]
    (Raster.set_Pause raster_demo true)
  = Some (Raster.set_Pause raster_demo true).
Proof.
  destruct paused_frames_are_idle as [Hm Hr].
  split; [reflexivity|]. split.
  - apply (Hm (Mesh.set_Pause mesh_demo true) 3%nat eq_refl).
  - split; [reflexivity|].
    apply (Hr (Raster.set_Pause raster_demo true) 3%nat eq_refl).
Defined.

(** ** The pixel buffer *)

(** C8. [UpdatePixels] returns and touches nothing but the pixel buffer;
    afterwards the four bytes of every screen pixel [(x, y)], at the offset
    [4 * (x + y * ScreenWidth)], are [(c, c, c, 0xFF)], where [c] is 128 when
    gridlines are on and [x] or [y] is a multiple of [Cellsize], whatever
    the cell, and otherwise 0 (black) when the cell
    [(x / Cellsize, y / Cellsize)] of the active grid is alive and 255
    (white) when it is dead. *)
Theorem UpdatePixels_paints (g : Raster.Game) (grid : Life.Grid) :
  raster_ok g -> at_ (Raster.Grids g) (Raster.Index g) = Some grid ->
  exists g',
    Raster.UpdatePixels g = Some g' /\
    g' = Raster.set_Pixels g (Raster.Pixels g') /\
    len (Raster.Pixels g') = len (Raster.Pixels g) /\
    forall x y,
      0 <= x < Raster.ScreenWidth g -> 0 <= y < Raster.ScreenHeight g ->
      let p := 4 * (x + y * Raster.ScreenWidth g) in
      let c :=
        if Raster.Gridlines g
           && ((x mod Raster.Cellsize g =? 0) || (y mod Raster.Cellsize g =? 0))
        then 128
        else if cell grid (x / Raster.Cellsize g) (y / Raster.Cellsize g) =? 1
             then 0 else 255 in
      at_ (Raster.Pixels g') p = Some c /\
      at_ (Raster.Pixels g') (p + 1) = Some c /\
      at_ (Raster.Pixels g') (p + 2) = Some c /\
      at_ (Raster.Pixels g') (p + 3) = Some 255.
Proof.
  intros Hok Hg.
  destruct (UpdatePixels_spec g grid Hok Hg) as (px & Hupd & Hlen & Hpx).
  exists (Raster.set_Pixels g px). split; [exact Hupd|].
  split; [reflexivity|]. split; [exact Hlen|].
  intros x y Hx Hy. exact (Hpx x y Hx Hy).
Qed.

Lemma UpdatePixels_paints_witness :
  raster_ok raster_demo /\
  exists g', Raster.UpdatePixels raster_demo = Some g' /\
    (* pixel (0, 0) lies on a gridline *)
    at_ (Raster.Pixels g') 0 = Some 128 /\
    at_ (Raster.Pixels g') 3 = Some 255 /\
    (* pixel (3, 3) belongs to the living cell (1, 1) *)
    at_ (Raster.Pixels g') (4 * (3 + 3 * 8)) = Some 0 /\
    (* pixel (1, 1) belongs to the dead cell (0, 0) *)
    at_ (Raster.Pixels g') (4 * (1 + 1 * 8)) = Some 255.
Proof.
  split; [exact raster_demo_ok|].
  destruct (UpdatePixels_paints raster_demo demo_grid raster_demo_ok eq_refl)
    as (g' & Hupd & _ & _ & Hpx).
  exists g'. split; [exact Hupd|].
  pose proof (Hpx 0 0 ltac:(vm_compute; split; [discriminate | reflexivity])
                ltac:(vm_compute; split; [discriminate | reflexivity]))
    as (A0 & _ & _ & A3).
  pose proof (Hpx 3 3 ltac:(vm_compute; split; [discriminate | reflexivity])
                ltac:(vm_compute; split; [discriminate | reflexivity]))
    as (B0 & _).
  pose proof (Hpx 1 1 ltac:(vm_compute; split; [discriminate | reflexivity])
                ltac:(vm_compute; split; [discriminate | reflexivity]))
    as (C0 & _).
  split; [exact A0|]. split; [exact A3|]. split; [exact B0 | exact C0].
Defined.

(** ** The vertex buffer of a rebuild *)

Section Rebuild.
Import Life Mesh.
Implicit Types (g game : Game).

(** The [m]-th place at which [P] holds. *)
Lemma count_below_select (P : Z -> bool) (n : nat) (m : Z) :
  0 <= m < count_below P n ->
  exists k, (k < n)%nat /\ P (Z.of_nat k) = true /\ count_below P k = m.
Proof.
  induction n as [|n IH]; cbn [count_below]; intros Hm; [lia|].
  destruct (Z.lt_ge_cases m (count_below P n)) as [Hlt|Hge].
  - destruct IH as (k & Hk & HP & Hc); [lia|].
    exists k. split; [lia|]. split; assumption.
  - exists n. destruct (P (Z.of_nat n)) eqn:HP; [|lia].
    split; [lia|]. split; [reflexivity | lia].
Qed.



End Rebuild.




(** ** The order of the flip and the rebuild *)

(** C4, at a failing input.  In the raster program the rebuild follows the
    flip and paints the generation just computed.  In the mesh program
    [UpdateTriangles] runs before [game.Index ^= 1]: on the demonstration
    game, whose two living cells both die, the vertex buffer after
    [UpdateCells] is the mesh of the grid that was active before the call
    and not the mesh of the newly active, empty grid. *)
Theorem mesh_rebuilt_before_flip :
  (exists g',
     Mesh.UpdateCells mesh_demo = Some g' /\
     at_ (Mesh.Grids mesh_demo) (Mesh.Index mesh_demo) = Some demo_grid /\
     at_ (Mesh.Grids g') (Mesh.Index g') = Some demo_blank /\
     mesh_of mesh_demo demo_grid (Mesh.Vertices g') /\
     ~ mesh_of mesh_demo demo_blank (Mesh.Vertices g') /\
     at_ (Mesh.Vertices g') 0 = Some (Mesh.mkVertex 3 3 1 1 0 0 0 1)) /\
  (exists r',
     Raster.UpdateCells raster_demo = Some r' /\
     at_ (Raster.Grids r') (Raster.Index r') = Some demo_blank /\
     raster_of raster_demo demo_blank (Raster.Pixels r')).
Proof.
  split.
  - destruct (UpdateCells_advance mesh_demo mesh_demo_ok eq_refl
                ltac:(vm_compute; discriminate))
      as (cur & tgt & t & grids' & Hcur & Hstep & _ & Htgt & _ & _
          & Htri & Hmesh & _ & Hupd & _).
    eexists. split; [exact Hupd|].
    vm_compute in Hcur. inversion Hcur; subst cur.
    vm_compute in Hstep. inversion Hstep; subst grids'.
    vm_compute in Htri. inversion Htri; subst t.
    split; [reflexivity|]. split; [reflexivity|].
    split; [exact Hmesh|]. split; [|reflexivity].
    intros (_ & _ & Hzero).
    specialize (Hzero 0 ltac:(vm_compute; split; [discriminate | reflexivity])).
    vm_compute in Hzero. discriminate Hzero.
  - destruct (UpdateCells_advance_raster raster_demo raster_demo_ok eq_refl
                ltac:(vm_compute; discriminate))
      as (cur & tgt & grids' & px & _ & Hstep & _ & Htgt & _ & _ & Hpx & Hupd & _).
    eexists. split; [exact Hupd|].
    vm_compute in Hstep. inversion Hstep; subst grids'.
    vm_compute in Htgt. inversion Htgt; subst tgt.
    split; [reflexivity | exact Hpx].
Qed.

(** ** The buffers that [Init] allocates *)

Section Buffers.

Lemma Mesh_Init_ok rnd (game : Mesh.Game) :
  0 <= Mesh.Width game -> 0 <= Mesh.Height game -> 0 < Mesh.Density game ->
  Mesh.Index game = 0 ->
  1 <= Mesh.Cellsize game ->
  1 <= Mesh.ScreenWidth game -> 1 <= Mesh.ScreenHeight game ->
  4 * (Mesh.Width game * Mesh.Height game)
    <= Mesh.ScreenHeight game * Mesh.ScreenWidth game < 2 ^ 62 ->
  exists g, Mesh.Init rnd game = Some g /\ mesh_ok g /\
    Mesh.Width g = Mesh.Width game /\ Mesh.Height g = Mesh.Height game.
Proof.
  intros HW HH Hd Hidx Hcs Hsw Hsh [Hroom Hint].
  assert (Hs : 0 <= Mesh.ScreenHeight game * Mesh.ScreenWidth game) by nia.
  destruct (Mesh_Init_spec rnd game HW HH Hd Hcs Hsw Hsh (conj Hs Hint))
    as (grida & gridb & Hgok & _ & _ & Hinit).
  cbv zeta in Hinit. eexists. split; [exact Hinit|].
  split; [|split; reflexivity].
  pose proof (Z.quot_pos (Mesh.ScreenHeight game * Mesh.ScreenWidth game) 2
                Hs ltac:(lia)) as Hq.
  split; [|split].
  - cbn [Mesh.Width Mesh.Height Mesh.Grids Mesh.Index Mesh.set_Indices
         Mesh.set_Vertices Mesh.set_Colors Mesh.set_Grids].
    rewrite Hidx. exact Hgok.
  - cbn [Mesh.Width Mesh.Height Mesh.Vertices Mesh.set_Indices
         Mesh.set_Vertices Mesh.set_Colors Mesh.set_Grids].
    rewrite len_replicate, Z2Nat.id by assumption. exact Hroom.
  - cbn [Mesh.Width Mesh.Height Mesh.Indices Mesh.set_Indices
         Mesh.set_Vertices Mesh.set_Colors Mesh.set_Grids].
    rewrite len_replicate, Z2Nat.id by lia.
    assert (Hhalf : 2 * (Mesh.Width game * Mesh.Height game)
                    <= Z.quot (Mesh.ScreenHeight game * Mesh.ScreenWidth game) 2).
    { apply Z.quot_le_lower_bound; lia. }
    lia.
Qed.

Lemma Raster_Init_ok rnd (game : Raster.Game) :
  0 <= Raster.Width game -> 0 <= Raster.Height game ->
  0 < Raster.Density game -> Raster.Index game = 0 ->
  0 < Raster.Cellsize game ->
  0 <= Raster.ScreenWidth game <= Raster.Width game * Raster.Cellsize game ->
  0 <= Raster.ScreenHeight game <= Raster.Height game * Raster.Cellsize game ->
  1 <= Raster.ScreenWidth game -> 1 <= Raster.ScreenHeight game ->
  Raster.ScreenWidth game * Raster.ScreenHeight game < 2 ^ 60 ->
  exists g, Raster.Init rnd game = Some g /\ raster_ok g.
Proof.
  intros HW HH Hd Hidx Hcs Hsw Hsh Hsw1 Hsh1 Hint.
  assert (Hs : 0 <= Raster.ScreenWidth game * Raster.ScreenHeight game) by nia.
  destruct (Raster_Init_spec rnd game HW HH Hd Hsw1 Hsh1 (conj Hs Hint))
    as (grida & gridb & Hgok & _ & _ & Hinit).
  eexists. split; [exact Hinit|].
  split; [|split; [|split; [|split]]].
  - cbn [Raster.Width Raster.Height Raster.Grids Raster.Index
         Raster.set_Pixels Raster.set_Grids].
    rewrite Hidx. exact Hgok.
  - exact Hcs.
  - exact Hsw.
  - exact Hsh.
  - cbn [Raster.ScreenWidth Raster.ScreenHeight Raster.Pixels
         Raster.set_Pixels Raster.set_Grids].
    rewrite len_replicate, Z2Nat.id by lia. lia.
Qed.

End Buffers.

(** C5, as the code has it.  When [Init] returns, on sizes within the range
    of [int], the vertex buffer of the mesh program holds exactly
    [ScreenHeight * ScreenWidth] vertices and its index buffer that number
    plus its half.  With the screen that [main] derives ([Width * Cellsize]
    by [Height * Cellsize]) this is [Cellsize * Cellsize] vertices for every
    cell: 4 vertices and 6 indices for every cell when [Cellsize] is 2, and,
    on a grid of at least one cell, for no other [Cellsize].  The pixel
    buffer of the raster program holds exactly
    [4 * ScreenWidth * ScreenHeight] bytes. *)
Theorem Init_buffer_sizes :
  (forall rnd (g g' : Mesh.Game),
     Mesh.Init rnd g = Some g' ->
     Z.abs (Mesh.ScreenHeight g * Mesh.ScreenWidth g) < 2 ^ 62 ->
     len (Mesh.Vertices g') = Mesh.ScreenHeight g' * Mesh.ScreenWidth g' /\
     len (Mesh.Indices g')
     = Mesh.ScreenHeight g' * Mesh.ScreenWidth g'
       + Z.quot (Mesh.ScreenHeight g' * Mesh.ScreenWidth g') 2 /\
     (Mesh.ScreenWidth g' = Mesh.Width g' * Mesh.Cellsize g' ->
      Mesh.ScreenHeight g' = Mesh.Height g' * Mesh.Cellsize g' ->
      len (Mesh.Vertices g')
      = Mesh.Cellsize g' * Mesh.Cellsize g' * (Mesh.Width g' * Mesh.Height g') /\
      (Mesh.Cellsize g' = 2 ->
       len (Mesh.Vertices g') = 4 * (Mesh.Width g' * Mesh.Height g') /\
       len (Mesh.Indices g') = 6 * (Mesh.Width g' * Mesh.Height g')) /\
      (0 < Mesh.Width g' * Mesh.Height g' ->
       (len (Mesh.Vertices g') = 4 * (Mesh.Width g' * Mesh.Height g') ->
        Mesh.Cellsize g' = 2) /\
       (len (Mesh.Indices g') = 6 * (Mesh.Width g' * Mesh.Height g') ->
        Mesh.Cellsize g' = 2)))) /\
  (forall rnd (g g' : Raster.Game),
     Raster.Init rnd g = Some g' ->
     Z.abs (Raster.ScreenWidth g * Raster.ScreenHeight g) < 2 ^ 60 ->
     len (Raster.Pixels g')
     = 4 * (Raster.ScreenWidth g' * Raster.ScreenHeight g')).
Proof.
  split.
  - intros rnd g g' Hinit Hint.
    destruct (Mesh_Init_lengths rnd g g' Hinit Hint)
      as (Hv & Hi & -> & -> & -> & -> & -> & Hcs).
    split; [exact Hv|]. split; [exact Hi|].
    intros Hsw Hsh. rewrite Hv, Hi, Hsw, Hsh.
    set (c := Mesh.Cellsize g) in *.
    set (n := Mesh.Width g * Mesh.Height g).
    assert (EL : Mesh.Height g * c * (Mesh.Width g * c) = c * c * n)
      by (unfold n; ring).
    rewrite EL. split; [reflexivity|]. split.
    + intros ->. replace (2 * 2 * n) with (n * 4 * 1) by ring.
      replace (n * 4 * 1 + Z.quot (n * 4 * 1) 2) with (6 * n); [split; ring|].
      replace (n * 4 * 1) with (2 * n * 2) by ring.
      rewrite Z.quot_mul by lia. ring.
    + intros Hn.
      assert (Hcases : c = 1 \/ c = 2 \/ 3 <= c) by lia.
      destruct Hcases as [E | [E | Hbig]]; [| split; intros _; exact E |].
      * rewrite E. replace (1 * 1 * n) with n by ring.
        pose proof (Z.quot_pos n 2 ltac:(lia) ltac:(lia)) as Hq.
        assert (Hhalf : Z.quot n 2 <= n)
          by (apply Z.quot_le_upper_bound; lia).
        split; intros Hc; exfalso; lia.
      * assert (Hcc : 9 <= c * c) by nia.
        assert (H9 : 9 * n <= c * c * n)
          by (apply Z.mul_le_mono_nonneg_r; lia).
        pose proof (Z.quot_pos (c * c * n) 2 ltac:(lia) ltac:(lia)) as Hq.
        split; intros Hc; exfalso; lia.
  - intros rnd g g' Hinit Hint.
    destruct (Raster_Init_lengths rnd g g' Hinit Hint) as (Hp & -> & ->).
    exact Hp.
Qed.

Lemma Init_buffer_sizes_witness :
  (exists g', Mesh.Init (fun k => k) (Mesh.set_Vertices mesh_demo []) = Some g' /\
     len (Mesh.Vertices g') = 48 /\ len (Mesh.Indices g') = 72) /\
  (exists g', Raster.Init (fun k => k) (Raster.set_Pixels raster_demo [])
              = Some g' /\
     len (Raster.Pixels g') = 192).
Proof.
  destruct Init_buffer_sizes as [Hm Hr]. split.
  - destruct (Mesh.Init (fun k => k) (Mesh.set_Vertices mesh_demo []))
      as [g'|] eqn:Hinit; [|vm_compute in Hinit; discriminate Hinit].
    exists g'. split; [reflexivity|].
    destruct (Hm _ _ _ Hinit ltac:(vm_compute; reflexivity)) as (Hv & Hi & _).
    vm_compute in Hinit. inversion Hinit; subst g'. split; reflexivity.
  - destruct (Raster.Init (fun k => k) (Raster.set_Pixels raster_demo []))
      as [g'|] eqn:Hinit; [|vm_compute in Hinit; discriminate Hinit].
    exists g'. split; [reflexivity|].
    pose proof (Hr _ _ _ Hinit ltac:(vm_compute; reflexivity)) as Hp.
    vm_compute in Hinit. inversion Hinit; subst g'. reflexivity.
Defined.

(** C5 as the specification states it fails on the shipped mesh game: 200
    by 200 cells make 160000 and 240000, and [Init] allocates 640000
    vertices and 960000 indices. *)
Lemma shipped_mesh_buffers_not_per_cell :
  exists g',
    Mesh.Init (fun _ => 0) Mesh.main_game = Some g' /\
    len (Mesh.Vertices g') = 640000 /\
    len (Mesh.Indices g') = 960000 /\
    len (Mesh.Vertices g') <> 4 * (Mesh.Width g' * Mesh.Height g') /\
    len (Mesh.Indices g') <> 6 * (Mesh.Width g' * Mesh.Height g').
Proof.
  destruct (Mesh_Init_ok (fun _ => 0) Mesh.main_game
              ltac:(vm_compute; discriminate) ltac:(vm_compute; discriminate)
              eq_refl eq_refl ltac:(vm_compute; discriminate)
              ltac:(vm_compute; discriminate) ltac:(vm_compute; discriminate)
              ltac:(vm_compute; split; [discriminate | reflexivity]))
    as (g' & Hinit & _ & HW & HH).
  exists g'. split; [exact Hinit|].
  destruct (Mesh_Init_lengths _ _ _ Hinit ltac:(vm_compute; reflexivity))
    as (Hv & Hi & _).
  rewrite Hv, Hi, HW, HH.
  change (Mesh.ScreenHeight Mesh.main_game) with 800.
  change (Mesh.ScreenWidth Mesh.main_game) with 800.
  change (Mesh.Width Mesh.main_game) with 200.
  change (Mesh.Height Mesh.main_game) with 200.
  repeat split; vm_compute; congruence.
Qed.

(** ** The index buffer of a rebuild *)

Section Quads.
Import Life Mesh.
Implicit Types (g game : Game).

(** After [UpdateTriangles] the slots of a cell hold its quad as long as no
    later cell has wrapped around onto them: this is so for the last 10922
    cells, hence for every cell of a grid of at most 10922 cells.  The
    vertex entries are those of the living cells, four for each. *)
Lemma UpdateTriangles_quads game grid :
  mesh_ok game -> at_ (Grids game) (Index game) = Some grid ->
  exists game',
    UpdateTriangles game = Some game' /\
    game' = set_Indices (set_Vertices game (Vertices game')) (Indices game') /\
    len (Vertices game') = len (Vertices game) /\
    len (Indices game') = len (Indices game) /\
    (forall k j, 0 <= k < Width game * Height game ->
       Width game * Height game <= k + 10922 -> 0 <= j < 6 ->
       at_ (Indices game') (wrap16 (6 * k + j))
       = Some (wrap16 (4 * k + quad j))) /\
    (forall k c, 0 <= k < Width game * Height game ->
       alive_at (Width game) grid k = true -> 0 <= c < 4 ->
       at_ (Vertices game') (4 * alive_before (Width game) grid k + c)
       = Some (corner game (k mod Width game) (k / Width game)
                 (c / 2) (c mod 2))) /\
    (forall p,
       4 * alive_before (Width game) grid (Width game * Height game) <= p ->
       at_ (Vertices game') p = at_ (Vertices game) p).
Proof.
  intros Hok Hg.
  destruct (triangles_spec game grid Hok Hg)
    as (t & Hrun & Lv & Li & _ & _ & _ & Hverts & Hrest & Hquads & _).
  exists (set_Indices (set_Vertices game (vertices t)) (indices t)).
  split; [unfold UpdateTriangles; rewrite Hrun; reflexivity|].
  split; [reflexivity|]. split; [exact Lv|]. split; [exact Li|].
  split; [|split; [exact Hverts | exact Hrest]].
  intros k j Hk Hlast Hj. apply Hquads; [assumption..|].
  intros k' j' Hk' Hj' E. apply wrap16_eq_near in E; lia.
Qed.

(** On a grid of 200 by 200 cells the cursor wraps: the first slot of the
    cell at place 7232 ends up with the third index of the quad of the cell
    at place 29077. *)
Lemma quads_overwritten_200 game :
  mesh_ok game -> Width game = 200 -> Height game = 200 ->
  exists game',
    UpdateTriangles game = Some game' /\
    at_ (Indices game') (wrap16 (6 * 7232 + 0)) = Some 50775.
Proof.
  intros Hok HW HH. pose proof Hok as (Hgok & _).
  pose proof Hgok as (_ & _ & Hidx & _).
  destruct (grids_ok_at _ _ _ _ _ Hgok Hidx) as (grid & Hg & _).
  destruct (triangles_spec game grid Hok Hg)
    as (t & Hrun & _ & _ & _ & _ & _ & _ & _ & Hquads & _).
  exists (set_Indices (set_Vertices game (vertices t)) (indices t)).
  split; [unfold UpdateTriangles; rewrite Hrun; reflexivity|].
  cbn [Indices set_Indices].
  rewrite HW, HH in Hquads.
  specialize (Hquads 29077 2 ltac:(lia) ltac:(lia)).
  change (wrap16 (6 * 29077 + 2)) with 43392 in Hquads.
  change (wrap16 (4 * 29077 + quad 2)) with 50775 in Hquads.
  change (wrap16 (6 * 7232 + 0)) with 43392.
  apply Hquads. intros k' j' Hk' Hj' E.
  unfold wrap16 in E. change (2 ^ 16) with 65536 in E.
  pose proof (Z.div_mod (6 * k' + j') 65536 ltac:(lia)) as Hdm.
  rewrite E in Hdm. lia.
Qed.

End Quads.

(** C6, at a failing input.  On the shipped game of 200 by 200 cells,
    whatever the random seeding, [UpdateTriangles] returns with the value
    50775 in the index slot [6 * 7232] of the cell at place 7232, where the
    quad of that cell has [4 * 7232 = 28928]: the [uint16] write cursor has
    wrapped around and later cells have written over the slot. *)
Theorem shipped_mesh_quads_overwritten (rnd : Z -> Z) :
  exists g g',
    Mesh.Init rnd Mesh.main_game = Some g /\
    Mesh.UpdateTriangles g = Some g' /\
    at_ (Mesh.Indices g') (wrap16 (6 * 7232 + 0)) = Some 50775 /\
    wrap16 (4 * 7232 + quad 0) = 28928.
Proof.
  destruct (Mesh_Init_ok rnd Mesh.main_game
              ltac:(vm_compute; discriminate) ltac:(vm_compute; discriminate)
              eq_refl eq_refl ltac:(vm_compute; discriminate)
              ltac:(vm_compute; discriminate) ltac:(vm_compute; discriminate)
              ltac:(vm_compute; split; [discriminate | reflexivity]))
    as (g & Hinit & Hok & HW & HH).
  destruct (quads_overwritten_200 g Hok HW HH) as (g' & Hupd & Hslot).
  exists g, g'. split; [exact Hinit|]. split; [exact Hupd|].
  split; [exact Hslot | reflexivity].
Qed.

(** ** Bounds *)

Section Bounds.

Lemma Mesh_Update_ok (space : bool) (g : Mesh.Game) :
  mesh_ok g -> exists g', Mesh.Update space g = Some g' /\ mesh_ok g'.
Proof.
  intros Hok.
  assert (Hcells : exists g', Mesh.UpdateCells g = Some g' /\ mesh_ok g').
  { destruct (Mesh.Pause g) eqn:Hp.
    - exists g. split; [|exact Hok].
      unfold Mesh.UpdateCells. rewrite Hp. reflexivity.
    - destruct (Z.lt_ge_cases (Mesh.Elapsed g) (Mesh.TPG g)) as [Hlt|Hge].
      + eexists. split.
        * unfold Mesh.UpdateCells. rewrite Hp.
          replace (Mesh.Elapsed g <? Mesh.TPG g) with true
            by (symmetry; apply Z.ltb_lt; assumption).
          reflexivity.
        * exact Hok.
      + destruct (UpdateCells_advance g Hok Hp Hge)
          as (cur & tgt & t & grids' & _ & _ & _ & _ & _ & _
              & _ & (Lv & _) & Li & Hupd & Hgok').
        eexists. split; [exact Hupd|].
        destruct Hok as (_ & Hv & Hi).
        split; [exact Hgok'|]. split.
        * cbn [Mesh.Width Mesh.Height Mesh.Vertices Mesh.set_Elapsed
               Mesh.set_Index Mesh.set_Indices Mesh.set_Vertices
               Mesh.set_Grids].
          rewrite Lv. exact Hv.
        * cbn [Mesh.Width Mesh.Height Mesh.Indices Mesh.set_Elapsed
               Mesh.set_Index Mesh.set_Indices Mesh.set_Vertices
               Mesh.set_Grids].
          rewrite Li. exact Hi. }
  destruct Hcells as (g' & Hupd & Hok').
  unfold Mesh.Update. rewrite Hupd. cbn [mbind option_bind].
  eexists. split; [reflexivity|].
  destruct space; [|exact Hok']. exact Hok'.
Qed.

Lemma Raster_Update_ok (space : bool) (g : Raster.Game) :
  raster_ok g -> exists g', Raster.Update space g = Some g' /\ raster_ok g'.
Proof.
  intros Hok.
  assert (Hcells : exists g', Raster.UpdateCells g = Some g' /\ raster_ok g').
  { destruct (Raster.Pause g) eqn:Hp.
    - exists g. split; [|exact Hok].
      unfold Raster.UpdateCells. rewrite Hp. reflexivity.
    - destruct (Z.lt_ge_cases (Raster.Elapsed g) (Raster.TPG g)) as [Hlt|Hge].
      + eexists. split.
        * unfold Raster.UpdateCells. rewrite Hp.
          replace (Raster.Elapsed g <? Raster.TPG g) with true
            by (symmetry; apply Z.ltb_lt; assumption).
          reflexivity.
        * exact Hok.
      + destruct (UpdateCells_advance_raster g Hok Hp Hge)
          as (cur & tgt & grids' & px & _ & _ & _ & _ & _ & _
              & (Lp & _) & Hupd & Hgok').
        eexists. split; [exact Hupd|].
        destruct Hok as (_ & Hcs & Hsw & Hsh & Hlen).
        split; [exact Hgok'|]. split; [exact Hcs|]. split; [exact Hsw|].
        split; [exact Hsh|].
        cbn [Raster.ScreenWidth Raster.ScreenHeight Raster.Pixels
             Raster.set_Elapsed Raster.set_Index Raster.set_Pixels
             Raster.set_Grids].
        rewrite Lp. exact Hlen. }
  destruct Hcells as (g' & Hupd & Hok').
  unfold Raster.Update. rewrite Hupd. cbn [mbind option_bind].
  eexists. split; [reflexivity|].
  destruct space; [|exact Hok']. exact Hok'.
Qed.

(** Frames keep an invariant that every single frame keeps. *)
Lemma frames_inv {G} (update : bool -> G -> option G) (I : G -> Prop) :
  (forall k g, I g -> exists g', update k g = Some g' /\ I g') ->
  forall keys g, I g -> exists g', frames update keys g = Some g' /\ I g'.
Proof.
  intros Hstep keys. induction keys as [|k keys IH]; intros g Hg.
  - exists g. split; [reflexivity | exact Hg].
  - destruct (Hstep k g Hg) as (g1 & Hupd & Hg1).
    cbn [frames]. rewrite Hupd. apply IH. exact Hg1.
Qed.

End Bounds.

(** C10. The two shipped games never leave their buffers.  Whatever the
    random seeding, [Init] returns, and from there every sequence of frames,
    with or without presses of the space key, returns: no access of
    [CountNeighbors], [UpdateCells], [ClearVertices], [UpdateTriangles] or
    [UpdatePixels] to a grid, to the vertex or index buffer or to the pixel
    buffer is out of bounds, an access out of bounds being a panic.  The
    buffers keep the sizes that make it so. *)
Theorem shipped_games_stay_in_bounds (rnd : Z -> Z) (keys : list bool) :
  (exists g g',
     Mesh.Init rnd Mesh.main_game = Some g /\
     frames Mesh.Update keys g = Some g' /\ mesh_ok g') /\
  (exists g g',
     Raster.Init rnd Raster.main_game = Some g /\
     frames Raster.Update keys g = Some g' /\ raster_ok g').
Proof.
  split.
  - destruct (Mesh_Init_ok rnd Mesh.main_game
                ltac:(vm_compute; discriminate)
                ltac:(vm_compute; discriminate)
                eq_refl eq_refl
                ltac:(vm_compute; discriminate)
                ltac:(vm_compute; discriminate)
                ltac:(vm_compute; discriminate)
                ltac:(vm_compute; split; [discriminate | reflexivity]))
      as (g & Hinit & Hok & _).
    destruct (frames_inv Mesh.Update mesh_ok
                (fun k g => Mesh_Update_ok k g) keys g Hok)
      as (g' & Hrun & Hok').
    exists g, g'. split; [exact Hinit|]. split; assumption.
  - destruct (Raster_Init_ok rnd Raster.main_game
                ltac:(vm_compute; discriminate)
                ltac:(vm_compute; discriminate)
                eq_refl eq_refl eq_refl
                ltac:(vm_compute; split; discriminate)
                ltac:(vm_compute; split; discriminate)
                ltac:(vm_compute; discriminate)
                ltac:(vm_compute; discriminate)
                ltac:(vm_compute; reflexivity))
      as (g & Hinit & Hok).
    destruct (frames_inv Raster.Update raster_ok
                (fun k g => Raster_Update_ok k g) keys g Hok)
      as (g' & Hrun & Hok').
    exists g, g'. split; [exact Hinit|]. split; assumption.
Qed.

(** * Further properties of the code *)

(** ** Loops that panic *)

Section Panics.
Context {S : Type}.
Implicit Types (body : Z -> S -> option S) (s t : S).

(** A loop panics when its body panics in some round on every state that
    can reach that round.  [Inv] describes the states that reach round
    [i]. *)
Lemma for_range_panics (Inv : Z -> S -> Prop) lo hi body s i0 :
  lo <= i0 < hi ->
  Inv lo s ->
  (forall i t t', lo <= i < i0 -> Inv i t -> body i t = Some t' ->
     Inv (i + 1) t') ->
  (forall t, Inv i0 t -> body i0 t = None) ->
  for_range lo hi body s = None.
Proof.
  intros Hi H0 Hstep Hfail. unfold for_range.
  remember (Z.to_nat (i0 - lo)) as n eqn:Hn.
  revert lo s Hi H0 Hstep Hn.
  induction n as [|n IH]; intros lo s Hi H0 Hstep Hn.
  - assert (lo = i0) by lia. subst lo.
    replace (Z.to_nat (hi - i0)) with (Datatypes.S (Z.to_nat (hi - (i0 + 1))))
      by lia.
    cbn [for_loop]. rewrite (Hfail s H0). reflexivity.
  - replace (Z.to_nat (hi - lo)) with (Datatypes.S (Z.to_nat (hi - (lo + 1))))
      by lia.
    cbn [for_loop]. destruct (body lo s) as [s'|] eqn:Hb; [|reflexivity].
    apply IH; [lia | | | lia].
    + apply (Hstep lo s s'); [lia | exact H0 | exact Hb].
    + intros i t t' Hr. apply Hstep. lia.
Qed.

(** The loop over no rounds returns its state. *)
Lemma for_range_none lo hi body s :
  hi <= lo -> for_range lo hi body s = Some s.
Proof.
  intros H. unfold for_range. replace (Z.to_nat (hi - lo)) with O by lia.
  reflexivity.
Qed.

End Panics.

(** ** Allocation of a grid *)

Lemma NewGrid_None (width height density : Z) :
  Life.NewGrid width height density = None <->
  height < 0 \/ (0 < height /\ width < 0).
Proof.
  destruct (Z.lt_ge_cases height 0) as [Hneg|Hh].
  { split; [intros _; left; exact Hneg|]. intros _.
    unfold Life.NewGrid, make.
    replace (height <? 0) with true by (symmetry; apply Z.ltb_lt; lia).
    reflexivity. }
  destruct (Z.lt_ge_cases width 0) as [Hw|Hw].
  - destruct (Z.eq_dec height 0) as [->|Hpos].
    + split; [intros Hn; discriminate Hn | intros [H|[H _]]; lia].
    + split; [intros _; right; lia|]. intros _.
      unfold Life.NewGrid. rewrite (make_Some ([] : list Z) height) by lia.
      cbn [mbind option_bind].
      rewrite (for_range_panics (fun _ _ => True) 0 height _ _ 0);
        [reflexivity | lia | exact I | auto |].
      intros t _. unfold make.
      replace (width <? 0) with true by (symmetry; apply Z.ltb_lt; lia).
      reflexivity.
  - rewrite (NewGrid_spec width height density Hw Hh).
    split; [intros Hn; discriminate Hn | intros [H|[_ H]]; lia].
Qed.

(** What [NewGrid] returns is a grid of zeroes of the size asked for. *)
Lemma NewGrid_Some (width height density : Z) grid :
  Life.NewGrid width height density = Some grid ->
  0 <= height /\
  grid_ok width height grid /\ (forall x y, cell grid x y = 0) /\
  Life.Width grid = width /\ Life.Height grid = height /\
  Life.Density grid = density.
Proof.
  intros Hg.
  destruct (Z.lt_ge_cases height 0) as [Hneg|Hh].
  { rewrite (proj2 (NewGrid_None width height density)) in Hg by (left; lia).
    discriminate Hg. }
  split; [exact Hh|].
  destruct (Z.lt_ge_cases width 0) as [Hw|Hw].
  - destruct (Z.eq_dec height 0) as [->|Hpos].
    + assert (Hsome : Life.NewGrid width 0 density
                      = Some (Life.mkGrid [] width 0 density)) by reflexivity.
      rewrite Hsome in Hg. inversion Hg; subst grid.
      split; [split; [reflexivity | constructor]|].
      split; [|repeat split].
      intros x y. unfold cell, Life.get. cbn [Life.Data].
      destruct (at_ ([] : list (list Z)) y) as [row|] eqn:E; [|reflexivity].
      apply at_range in E. unfold len in E. simpl in E. lia.
    + rewrite (proj2 (NewGrid_None width height density)) in Hg
        by (right; lia).
      discriminate Hg.
  - rewrite (NewGrid_spec width height density Hw Hh) in Hg.
    inversion Hg; subst grid.
    destruct (NewGrid_ok width height density Hw Hh) as [Hok Hzero].
    split; [exact Hok|]. split; [exact Hzero|]. repeat split.
Qed.

(** X1. [NewGrid] panics for a negative height, and for a negative width
    when there is a row to allocate.  Whenever it returns, neither is the
    case, and the grid has [height] rows of [width] cells, all of them 0,
    and records the three arguments. *)
Theorem NewGrid_result (width height density : Z) :
  (height < 0 \/ (0 < height /\ width < 0) ->
   Life.NewGrid width height density = None) /\
  (forall grid, Life.NewGrid width height density = Some grid ->
     0 <= height /\ (0 < height -> 0 <= width) /\
     grid_ok width height grid /\
     (forall x y, cell grid x y = 0) /\
     Life.Width grid = width /\ Life.Height grid = height /\
     Life.Density grid = density).
Proof.
  split; [apply NewGrid_None|].
  intros grid Hg. pose proof (NewGrid_Some _ _ _ _ Hg) as Hs.
  split; [tauto|]. split; [|tauto].
  intros Hpos. destruct (Z.lt_ge_cases width 0) as [Hneg|Hw]; [|exact Hw].
  rewrite (proj2 (NewGrid_None width height density)) in Hg
    by (right; split; assumption).
  discriminate Hg.
Qed.

Lemma NewGrid_result_witness :
  Life.NewGrid 4 (-1) 5 = None /\
  exists grid,
    Life.NewGrid 4 3 5 = Some grid /\ grid_ok 4 3 grid /\
    Life.Density grid = 5.
Proof.
  split.
  - apply (proj1 (NewGrid_result 4 (-1) 5)). left. reflexivity.
  - destruct (Life.NewGrid 4 3 5) as [grid|] eqn:E;
      [|vm_compute in E; discriminate E].
    exists grid. split; [reflexivity|].
    destruct (proj2 (NewGrid_result 4 3 5) grid E)
      as (_ & _ & Hok & _ & _ & _ & Hd).
    split; assumption.
Defined.

(** ** Seeding *)

Section Seeding.
Import Life.

(** Without a cell to seed the loop draws nothing. *)
Lemma seed_no_cell rnd W H density grida :
  W <= 0 \/ H <= 0 -> seed rnd W H density grida = Some (grida, 0).
Proof.
  intros Hempty. unfold seed.
  destruct (Z.le_gt_cases H 0) as [HH|HH].
  - apply for_range_none. lia.
  - destruct Hempty as [HW|?]; [|lia].
    destruct (for_range_inv (fun _ s => s = (grida, 0)) 0 H
      (fun y => for_range 0 W (fun x '(grid, k) =>
         r ← Intn rnd k density;
         if r =? 1
         then grid' ← set grid y x 1; Some (grid', k + 1)
         else Some (grid, k + 1))) (grida, 0))
      as (t & Hrun & ->); [lia | reflexivity | | exact Hrun].
    intros y t _ ->. exists (grida, 0). split; [|reflexivity].
    apply for_range_none. lia.
Qed.

(** With a cell to seed and no positive density the first draw panics. *)
Lemma seed_panics rnd W H density grida :
  0 < W -> 0 < H -> density <= 0 -> seed rnd W H density grida = None.
Proof.
  intros HW HH Hd. unfold seed.
  apply (for_range_panics (fun _ _ => True) 0 H _ _ 0);
    [lia | exact I | auto |].
  intros t _.
  apply (for_range_panics (fun _ _ => True) 0 W _ _ 0);
    [lia | exact I | auto |].
  intros [grid k] _. unfold Intn.
  replace (density <=? 0) with true by (symmetry; apply Z.leb_le; lia).
  reflexivity.
Qed.

(** The cell [(x, y)] is seeded alive exactly when the draw number
    [y * W + x] is 1. *)
Lemma seed_cells rnd W H density grida :
  0 <= W -> 0 <= H -> 0 < density ->
  grid_ok W H grida -> (forall x y, cell grida x y = 0) ->
  exists grid, seed rnd W H density grida = Some (grid, H * W) /\
    grid_ok W H grid /\
    forall x y, 0 <= x < W -> 0 <= y < H ->
      cell grid x y = if rnd (y * W + x) mod density =? 1 then 1 else 0.
Proof.
  intros HW HH Hd Hok Hzero. unfold seed.
  destruct (for_grid_inv
    (fun (y x : Z) (s : Grid * Z) =>
       snd s = y * W + x /\ grid_ok W H (fst s) /\
       forall x' y', 0 <= x' < W -> 0 <= y' < H ->
         cell (fst s) x' y'
         = if (y' <? y) || ((y' =? y) && (x' <? x))
           then (if rnd (y' * W + x') mod density =? 1 then 1 else 0)
           else 0)
    W H
    (fun y x '(grid, k) =>
       r ← Intn rnd k density;
       if r =? 1
       then grid' ← set grid y x 1; Some (grid', k + 1)
       else Some (grid, k + 1)) (grida, 0))
    as ([grid k] & Hrun & Hk & Hgok & Hcells); try assumption.
  - cbn [fst snd]. split; [lia|]. split; [assumption|].
    intros x' y' Hx' Hy'. rewrite Hzero.
    replace (y' <? 0) with false by (symmetry; apply Z.ltb_ge; lia).
    replace (x' <? 0) with false by (symmetry; apply Z.ltb_ge; lia).
    rewrite andb_false_r. reflexivity.
  - intros y x [grid k] Hy Hx (Hk & Hgok & Hcells). cbn [fst snd] in *.
    subst k. unfold Intn.
    replace (density <=? 0) with false by (symmetry; apply Z.leb_gt; lia).
    cbn [mbind option_bind].
    assert (Hnew : forall (g' : Grid) v,
      cell g' x y = v ->
      v = (if rnd (y * W + x) mod density =? 1 then 1 else 0) ->
      (forall x' y', x' <> x \/ y' <> y -> cell g' x' y' = cell grid x' y') ->
      forall x' y', 0 <= x' < W -> 0 <= y' < H ->
        cell g' x' y'
        = if (y' <? y) || ((y' =? y) && (x' <? x + 1))
          then (if rnd (y' * W + x') mod density =? 1 then 1 else 0)
          else 0).
    { intros g' v Hxy Hv Hother x' y' Hx' Hy'.
      destruct (Z.eq_dec y' y) as [->|Hyne].
      - rewrite Z.ltb_irrefl, Z.eqb_refl. cbn [orb andb].
        destruct (Z.eq_dec x' x) as [->|Hxne].
        + replace (x <? x + 1) with true by (symmetry; apply Z.ltb_lt; lia).
          congruence.
        + rewrite Hother by lia. rewrite Hcells by assumption.
          rewrite Z.ltb_irrefl, Z.eqb_refl. cbn [orb andb].
          replace (x' <? x + 1) with (x' <? x); [reflexivity|].
          destruct (Z.ltb_spec x' x), (Z.ltb_spec x' (x + 1)); lia || reflexivity.
      - rewrite Hother by lia. rewrite Hcells by assumption.
        replace (y' =? y) with false by (symmetry; apply Z.eqb_neq; lia).
        reflexivity. }
    destruct (rnd (y * W + x) mod density =? 1) eqn:Hdraw.
    + destruct (set_spec W H grid x y 1 Hgok Hx Hy)
        as (grid' & Hset & Hok' & Hxy & Hother).
      rewrite Hset. cbn [mbind option_bind].
      eexists. split; [reflexivity|]. cbn [fst snd].
      split; [lia|]. split; [assumption|].
      apply (Hnew grid' 1); [assumption | reflexivity | assumption].
    + eexists. split; [reflexivity|]. cbn [fst snd].
      split; [lia|]. split; [assumption|].
      apply (Hnew grid 0); [| reflexivity | intros; reflexivity].
      rewrite Hcells by assumption.
      rewrite !Z.ltb_irrefl, Z.eqb_refl. reflexivity.
  - intros y [grid k] Hy (Hk & Hgok & Hcells). cbn [fst snd] in *.
    split; [lia|]. split; [assumption|].
    intros x' y' Hx' Hy'. rewrite Hcells by assumption.
    replace (x' <? W) with true by (symmetry; apply Z.ltb_lt; lia).
    replace (x' <? 0) with false by (symmetry; apply Z.ltb_ge; lia).
    rewrite andb_true_r, andb_false_r, orb_false_r.
    replace (y' <? y + 1) with ((y' <? y) || (y' =? y)); [reflexivity|].
    destruct (Z.ltb_spec y' y), (Z.eqb_spec y' y), (Z.ltb_spec y' (y + 1));
      lia || reflexivity.
  - cbn [fst snd] in *. exists grid. subst k.
    replace (H * W + 0) with (H * W) in Hrun by lia.
    split; [exact Hrun|]. split; [assumption|].
    intros x y Hx Hy. rewrite Hcells by assumption.
    replace (y <? H) with true by (symmetry; apply Z.ltb_lt; lia).
    reflexivity.
Qed.

End Seeding.

(** ** What [Init] sets up, and when it panics *)

Section InitResults.
Import Life.

Lemma make_None {A} (v : A) n : make v n = None <-> n < 0.
Proof.
  unfold make. destruct (Z.ltb_spec n 0); split; intros; try lia;
    try discriminate; reflexivity.
Qed.

(** The grids of [Init], which are the same in both programs: whether the
    allocation and the seeding return, and what they return. *)
Lemma Init_grids_cases rnd W H density :
  (NewGrid W H density ≫= (fun grida =>
   NewGrid W H density ≫= (fun gridb =>
   seed rnd W H density grida ≫= (fun '(grida, _) =>
   Some [grida; gridb]))) = None /\
   (H < 0 \/ (0 < H /\ W < 0) \/ (0 < W /\ 0 < H /\ density <= 0))) \/
  (exists a b,
     NewGrid W H density ≫= (fun grida =>
     NewGrid W H density ≫= (fun gridb =>
     seed rnd W H density grida ≫= (fun '(grida, _) =>
     Some [grida; gridb]))) = Some [a; b] /\
     ~ (H < 0 \/ (0 < H /\ W < 0) \/ (0 < W /\ 0 < H /\ density <= 0)) /\
     grid_ok W H a /\ grid_ok W H b /\
     (forall x y, cell b x y = 0) /\
     (forall x y, 0 <= x < W -> 0 <= y < H ->
        cell a x y = if rnd (y * W + x) mod density =? 1 then 1 else 0)).
Proof.
  destruct (NewGrid W H density) as [z|] eqn:Hnew.
  2:{ left. split; [reflexivity|]. apply (proj1 (NewGrid_None _ _ _)) in Hnew. tauto. }
  pose proof (NewGrid_Some _ _ _ _ Hnew) as (HH & Hok & Hzero & _).
  assert (Hnot : ~ (H < 0 \/ (0 < H /\ W < 0))).
  { intros Hc. apply (proj2 (NewGrid_None W H density)) in Hc. congruence. }
  cbn [mbind option_bind].
  destruct (Z.le_gt_cases W 0) as [HW|HW];
    [|destruct (Z.le_gt_cases H 0) as [HH0|HH0]].
  - right. exists z, z. rewrite seed_no_cell by (left; exact HW).
    split; [reflexivity|]. split; [lia|]. split; [exact Hok|].
    split; [exact Hok|]. split; [exact Hzero|]. intros; lia.
  - right. exists z, z. rewrite seed_no_cell by (right; exact HH0).
    split; [reflexivity|]. split; [lia|]. split; [exact Hok|].
    split; [exact Hok|]. split; [exact Hzero|]. intros; lia.
  - destruct (Z.le_gt_cases density 0) as [Hd|Hd].
    + left. rewrite seed_panics by lia. split; [reflexivity|]. lia.
    + right.
      destruct (seed_cells rnd W H density z ltac:(lia) HH Hd Hok Hzero)
        as (a & Hseed & Haok & Hcells).
      exists a, z. rewrite Hseed. split; [reflexivity|].
      split; [lia|]. split; [exact Haok|]. split; [exact Hok|].
      split; [exact Hzero | exact Hcells].
Qed.

Lemma Mesh_Init_unfold rnd (game : Mesh.Game) :
  Mesh.Init rnd game =
  (NewGrid (Mesh.Width game) (Mesh.Height game) (Mesh.Density game) ≫= (fun grida =>
   NewGrid (Mesh.Width game) (Mesh.Height game) (Mesh.Density game) ≫= (fun gridb =>
   seed rnd (Mesh.Width game) (Mesh.Height game) (Mesh.Density game) grida
     ≫= (fun '(grida, _) => Some [grida; gridb]))))
  ≫= (fun grids =>
    _ ← NewImage (Mesh.Cellsize game) (Mesh.Cellsize game);
    _ ← NewImage (Mesh.ScreenWidth game) (Mesh.ScreenHeight game);
    let lenvertices := wrap64 (Mesh.ScreenHeight game * Mesh.ScreenWidth game) in
    vertices ← make Mesh.Vertex0 lenvertices;
    indices ← make 0 (wrap64 (lenvertices + Z.quot lenvertices 2));
    Some (Mesh.set_Indices
            (Mesh.set_Vertices
               (Mesh.set_Colors (Mesh.set_Grids game grids)
                  (Mesh.mkRGBA 0 0 0 255) (Mesh.mkRGBA 200 200 200 255)
                  (Mesh.mkRGBA 128 128 128 255)) vertices) indices)).
Proof.
  unfold Mesh.Init.
  destruct (NewGrid _ _ _) as [z|]; [|reflexivity]. cbn [mbind option_bind].
  destruct (seed _ _ _ _ _) as [[a k]|]; reflexivity.
Qed.

Lemma Raster_Init_unfold rnd (game : Raster.Game) :
  Raster.Init rnd game =
  (NewGrid (Raster.Width game) (Raster.Height game) (Raster.Density game) ≫= (fun grida =>
   NewGrid (Raster.Width game) (Raster.Height game) (Raster.Density game) ≫= (fun gridb =>
   seed rnd (Raster.Width game) (Raster.Height game) (Raster.Density game) grida
     ≫= (fun '(grida, _) => Some [grida; gridb]))))
  ≫= (fun grids =>
    pixels ← make 0 (wrap64 (wrap64 (Raster.ScreenWidth game
                                      * Raster.ScreenHeight game) * 4));
    _ ← NewImage (Raster.ScreenWidth game) (Raster.ScreenHeight game);
    Some (Raster.set_Pixels (Raster.set_Grids game grids) pixels)).
Proof.
  unfold Raster.Init.
  destruct (NewGrid _ _ _) as [z|]; [|reflexivity]. cbn [mbind option_bind].
  destruct (seed _ _ _ _ _) as [[a k]|]; reflexivity.
Qed.

End InitResults.

(** X2. What [Init] seeds, in both programs.  Whenever [Init] returns, the
    game holds two grids of its size: the first has the cell [(x, y)] alive
    exactly when the draw number [y * Width + x] of [rand.Intn(Density)] is
    1, the second is all dead, and [Index] is left as it was.  With
    [Density] 1 every draw is 0, so no cell at all is seeded alive. *)
Theorem Init_seeding :
  (forall rnd (game g' : Mesh.Game),
     Mesh.Init rnd game = Some g' ->
     exists a b,
       Mesh.Grids g' = [a; b] /\ Mesh.Index g' = Mesh.Index game /\
       grid_ok (Mesh.Width game) (Mesh.Height game) a /\
       grid_ok (Mesh.Width game) (Mesh.Height game) b /\
       (forall x y, 0 <= x < Mesh.Width game -> 0 <= y < Mesh.Height game ->
          cell a x y
          = if rnd (y * Mesh.Width game + x) mod Mesh.Density game =? 1
            then 1 else 0) /\
       (forall x y, cell b x y = 0) /\
       (Mesh.Density game = 1 ->
        forall x y, 0 <= x < Mesh.Width game -> 0 <= y < Mesh.Height game ->
          cell a x y = 0)) /\
  (forall rnd (game g' : Raster.Game),
     Raster.Init rnd game = Some g' ->
     exists a b,
       Raster.Grids g' = [a; b] /\ Raster.Index g' = Raster.Index game /\
       grid_ok (Raster.Width game) (Raster.Height game) a /\
       grid_ok (Raster.Width game) (Raster.Height game) b /\
       (forall x y, 0 <= x < Raster.Width game -> 0 <= y < Raster.Height game ->
          cell a x y
          = if rnd (y * Raster.Width game + x) mod Raster.Density game =? 1
            then 1 else 0) /\
       (forall x y, cell b x y = 0) /\
       (Raster.Density game = 1 ->
        forall x y, 0 <= x < Raster.Width game -> 0 <= y < Raster.Height game ->
          cell a x y = 0)).
Proof.
  split.
  - intros rnd game g' Hinit. rewrite Mesh_Init_unfold in Hinit.
    destruct (Init_grids_cases rnd (Mesh.Width game) (Mesh.Height game)
                (Mesh.Density game))
      as [[Hnone _] | (a & b & Hgrids & _ & Haok & Hbok & Hb & Ha)].
    { rewrite Hnone in Hinit. discriminate Hinit. }
    rewrite Hgrids in Hinit. cbn [mbind option_bind] in Hinit.
    destruct (NewImage (Mesh.Cellsize game) _) as [[]|]; [|discriminate].
    cbn [mbind option_bind] in Hinit.
    destruct (NewImage (Mesh.ScreenWidth game) _) as [[]|]; [|discriminate].
    cbn [mbind option_bind] in Hinit. cbv zeta in Hinit.
    destruct (make Mesh.Vertex0 _) as [vs|]; [|discriminate].
    cbn [mbind option_bind] in Hinit.
    destruct (make 0 _) as [ix|]; [|discriminate].
    cbn [mbind option_bind] in Hinit. inversion Hinit; subst g'.
    exists a, b. split; [reflexivity|]. split; [reflexivity|].
    split; [exact Haok|]. split; [exact Hbok|]. split; [exact Ha|].
    split; [exact Hb|].
    intros H1 x y Hx Hy. rewrite Ha by assumption. rewrite H1, Z.mod_1_r.
    reflexivity.
  - intros rnd game g' Hinit. rewrite Raster_Init_unfold in Hinit.
    destruct (Init_grids_cases rnd (Raster.Width game) (Raster.Height game)
                (Raster.Density game))
      as [[Hnone _] | (a & b & Hgrids & _ & Haok & Hbok & Hb & Ha)].
    { rewrite Hnone in Hinit. discriminate Hinit. }
    rewrite Hgrids in Hinit. cbn [mbind option_bind] in Hinit.
    destruct (make 0 _) as [px|]; [|discriminate].
    cbn [mbind option_bind] in Hinit.
    destruct (NewImage _ _) as [[]|]; [|discriminate].
    cbn [mbind option_bind] in Hinit. inversion Hinit; subst g'.
    exists a, b. split; [reflexivity|]. split; [reflexivity|].
    split; [exact Haok|]. split; [exact Hbok|]. split; [exact Ha|].
    split; [exact Hb|].
    intros H1 x y Hx Hy. rewrite Ha by assumption. rewrite H1, Z.mod_1_r.
    reflexivity.
Qed.

Lemma Init_seeding_witness :
  (exists g', Mesh.Init (fun k => k) (Mesh.set_Vertices mesh_demo [])
              = Some g' /\
     exists a b, Mesh.Grids g' = [a; b] /\
       cell a 1 0 = 1 /\ cell a 2 0 = 0 /\ cell b 1 0 = 0) /\
  (exists g', Raster.Init (fun k => k) (Raster.set_Pixels raster_demo [])
              = Some g' /\
     exists a b, Raster.Grids g' = [a; b] /\
       cell a 1 0 = 1 /\ cell a 2 0 = 0 /\ cell b 1 0 = 0).
Proof.
  destruct Init_seeding as [Hm Hr]. split.
  - destruct (Mesh.Init (fun k => k) (Mesh.set_Vertices mesh_demo []))
      as [g'|] eqn:Hinit; [|vm_compute in Hinit; discriminate Hinit].
    exists g'. split; [reflexivity|].
    destruct (Hm _ _ _ Hinit) as (a & b & Hg & _ & _ & _ & Ha & Hb & _).
    exists a, b. split; [exact Hg|].
    rewrite (Ha 1 0 ltac:(cbn; lia) ltac:(cbn; lia)).
    rewrite (Ha 2 0 ltac:(cbn; lia) ltac:(cbn; lia)).
    rewrite Hb. repeat split.
  - destruct (Raster.Init (fun k => k) (Raster.set_Pixels raster_demo []))
      as [g'|] eqn:Hinit; [|vm_compute in Hinit; discriminate Hinit].
    exists g'. split; [reflexivity|].
    destruct (Hr _ _ _ Hinit) as (a & b & Hg & _ & _ & _ & Ha & Hb & _).
    exists a, b. split; [exact Hg|].
    rewrite (Ha 1 0 ltac:(cbn; lia) ltac:(cbn; lia)).
    rewrite (Ha 2 0 ltac:(cbn; lia) ltac:(cbn; lia)).
    rewrite Hb. repeat split.
Defined.

(** X3. When [Init] panics.  The mesh program's [Init] panics when the
    height is negative, when the width is negative and there is a row, when
    there is a cell and [Density] is not positive ([rand.Intn] panics), when
    [Cellsize], [ScreenWidth] or [ScreenHeight] is below 1
    ([ebiten.NewImage] panics), and when one of the two buffer sizes,
    computed in [int], is negative.  The raster program's [Init] panics in
    the same cases of the grid, when the size of the pixel buffer is
    negative, and when [ScreenWidth] or [ScreenHeight] is below 1. *)
Theorem Init_panics :
  (forall rnd (game : Mesh.Game),
     Mesh.Height game < 0 \/
     (0 < Mesh.Height game /\ Mesh.Width game < 0) \/
     (0 < Mesh.Width game /\ 0 < Mesh.Height game /\ Mesh.Density game <= 0) \/
     Mesh.Cellsize game < 1 \/
     Mesh.ScreenWidth game < 1 \/ Mesh.ScreenHeight game < 1 \/
     wrap64 (Mesh.ScreenHeight game * Mesh.ScreenWidth game) < 0 \/
     wrap64 (wrap64 (Mesh.ScreenHeight game * Mesh.ScreenWidth game)
             + Z.quot (wrap64 (Mesh.ScreenHeight game * Mesh.ScreenWidth game))
                 2) < 0 ->
     Mesh.Init rnd game = None) /\
  (forall rnd (game : Raster.Game),
     Raster.Height game < 0 \/
     (0 < Raster.Height game /\ Raster.Width game < 0) \/
     (0 < Raster.Width game /\ 0 < Raster.Height game
      /\ Raster.Density game <= 0) \/
     wrap64 (wrap64 (Raster.ScreenWidth game * Raster.ScreenHeight game) * 4)
       < 0 \/
     Raster.ScreenWidth game < 1 \/ Raster.ScreenHeight game < 1 ->
     Raster.Init rnd game = None).
Proof.
  split.
  - intros rnd game Hbad. rewrite Mesh_Init_unfold.
    destruct (Init_grids_cases rnd (Mesh.Width game) (Mesh.Height game)
                (Mesh.Density game))
      as [[Hnone _] | (a & b & Hgrids & Hgood & _)].
    { rewrite Hnone. reflexivity. }
    rewrite Hgrids. cbn [mbind option_bind].
    destruct (NewImage (Mesh.Cellsize game) _) as [[]|] eqn:Hc;
      [|reflexivity].
    cbn [mbind option_bind]. apply NewImage_inv in Hc.
    destruct (NewImage (Mesh.ScreenWidth game) _) as [[]|] eqn:Hs;
      [|reflexivity].
    cbn [mbind option_bind]. apply NewImage_inv in Hs. cbv zeta.
    set (L := wrap64 (Mesh.ScreenHeight game * Mesh.ScreenWidth game)) in *.
    destruct (make Mesh.Vertex0 L) as [vs|] eqn:Hvs; [|reflexivity].
    cbn [mbind option_bind].
    assert (HL : ~ L < 0)
      by (intros Hn; apply (proj2 (make_None Mesh.Vertex0 _)) in Hn;
          congruence).
    destruct (make 0 (wrap64 (L + Z.quot L 2))) as [ix|] eqn:Hix;
      [|reflexivity].
    assert (HI : ~ wrap64 (L + Z.quot L 2) < 0)
      by (intros Hn; apply (proj2 (make_None 0 _)) in Hn; congruence).
    exfalso. lia.
  - intros rnd game Hbad. rewrite Raster_Init_unfold.
    destruct (Init_grids_cases rnd (Raster.Width game) (Raster.Height game)
                (Raster.Density game))
      as [[Hnone _] | (a & b & Hgrids & Hgood & _)].
    { rewrite Hnone. reflexivity. }
    rewrite Hgrids. cbn [mbind option_bind].
    destruct (make 0 _) as [px|] eqn:Hpx; [|reflexivity].
    cbn [mbind option_bind].
    assert (HP : ~ wrap64 (wrap64 (Raster.ScreenWidth game
                                   * Raster.ScreenHeight game) * 4) < 0)
      by (intros Hn; apply (proj2 (make_None 0 _)) in Hn; congruence).
    destruct (NewImage _ _) as [[]|] eqn:Hs; [|reflexivity].
    apply NewImage_inv in Hs. exfalso. lia.
Qed.

Lemma Init_panics_witness :
  Mesh.Init (fun _ => 1)
    (Mesh.mkGame 4 3 0 5 8 6 [] 0 (Mesh.mkRGBA 0 0 0 0) (Mesh.mkRGBA 0 0 0 0)
       (Mesh.mkRGBA 0 0 0 0) 0 5 [] [] false false) = None /\
  Raster.Init (fun _ => 1)
    (Raster.mkGame 4 3 2 0 8 6 [] 0 0 10 false false false false [])
  = None.
Proof.
  destruct Init_panics as [Hm Hr]. split.
  - apply Hm. right. right. right. left. reflexivity.
  - apply Hr. right. right. left.
    cbn. repeat split; (reflexivity || discriminate).
Defined.

(** ** Reading cells *)

Section Reading.
Import Life.

(** A cell outside of the grid cannot be read. *)
Lemma get_outside W H grid x y :
  grid_ok W H grid -> ~ (0 <= x < W /\ 0 <= y < H) -> get grid y x = None.
Proof.
  intros [HH HW] Hout. unfold get.
  destruct (at_ (Data grid) y) as [row|] eqn:Hrow; [|reflexivity].
  cbn [mbind option_bind].
  pose proof (at_range _ _ _ Hrow) as Hy.
  assert (Hlen : len row = W).
  { apply at_Some in Hrow as [_ Hrow]. rewrite Forall_forall in HW.
    apply HW, list_elem_of_lookup. eauto. }
  destruct (at_ row x) as [v|] eqn:Hv; [|reflexivity].
  apply at_range in Hv. lia.
Qed.

(** Two grids of the same shape with the same cells have the same rows. *)
Lemma grid_data_ext W H a b :
  grid_ok W H a -> grid_ok W H b ->
  (forall x y, 0 <= x < W -> 0 <= y < H -> cell a x y = cell b x y) ->
  Data a = Data b.
Proof.
  intros Ha Hb Hcells. pose proof Ha as [HaH HaW]. pose proof Hb as [HbH HbW].
  apply at_ext; [lia|]. intros y Hy. rewrite HaH in Hy.
  destruct (at_in_range (Data a) y) as [ra Hra]; [lia|].
  destruct (at_in_range (Data b) y) as [rb Hrb]; [lia|].
  rewrite Hra, Hrb. f_equal.
  assert (Hla : len ra = W).
  { apply at_Some in Hra as [_ Hra]. rewrite Forall_forall in HaW.
    apply HaW, list_elem_of_lookup. eauto. }
  assert (Hlb : len rb = W).
  { apply at_Some in Hrb as [_ Hrb]. rewrite Forall_forall in HbW.
    apply HbW, list_elem_of_lookup. eauto. }
  apply at_ext; [lia|]. intros x Hx. rewrite Hla in Hx.
  pose proof (get_ok W H a x y Ha Hx Hy) as Hga.
  pose proof (get_ok W H b x y Hb Hx Hy) as Hgb.
  unfold get in Hga, Hgb. rewrite Hra in Hga. rewrite Hrb in Hgb.
  cbn [mbind option_bind] in Hga, Hgb. rewrite Hga, Hgb. f_equal.
  apply Hcells; assumption.
Qed.

End Reading.

(** X4. The edges of [CountNeighbors].  On a grid of the game's size with
    cells in {0,1} the count of a cell of the grid is between 0 and 8.  The
    call panics for a cell outside of the grid (the cell's own value cannot
    be read), for a width or a height of 0 (the modulo divides by zero), and
    for an [Index] that names no grid. *)
Theorem CountNeighbors_edges W H Grids Index x y :
  (forall grid, at_ Grids Index = Some grid -> grid_ok W H grid ->
     grid_bits grid -> 0 <= x < W -> 0 <= y < H ->
     exists n, Life.CountNeighbors W H Grids Index x y = Some n /\
               0 <= n <= 8) /\
  (forall grid, at_ Grids Index = Some grid -> grid_ok W H grid ->
     ~ (0 <= x < W /\ 0 <= y < H) ->
     Life.CountNeighbors W H Grids Index x y = None) /\
  (W = 0 \/ H = 0 -> Life.CountNeighbors W H Grids Index x y = None) /\
  (at_ Grids Index = None ->
   Life.CountNeighbors W H Grids Index x y = None).
Proof.
  split; [|split; [|split]].
  - intros grid Hg Hok Hbits Hx Hy.
    exists (neighbours W H grid x y). split.
    + rewrite (CountNeighbors_wrap W H Grids Index grid) by assumption.
      f_equal. apply wrap64_small.
      pose proof (neighbours_range W H grid x y Hbits). lia.
    + apply neighbours_range. assumption.
  - intros grid Hg Hok Hout. unfold Life.CountNeighbors.
    destruct (for_range (-1) 2 _ 0) as [sum|]; [|reflexivity].
    cbn [mbind option_bind]. rewrite Hg. cbn [mbind option_bind].
    rewrite (get_outside W H) by assumption. reflexivity.
  - intros Hzero. unfold Life.CountNeighbors, for_range.
    change (Z.to_nat (2 - -1)) with 3%nat. cbn [for_loop].
    destruct (Z.eqb_spec W 0) as [HW|HW]; [reflexivity|].
    destruct (Z.eqb_spec H 0) as [HH|HH]; [reflexivity|]. lia.
  - intros Hnone. unfold Life.CountNeighbors, for_range.
    change (Z.to_nat (2 - -1)) with 3%nat. cbn [for_loop].
    destruct (W =? 0); [reflexivity|]. destruct (H =? 0); [reflexivity|].
    rewrite Hnone. reflexivity.
Qed.

Lemma CountNeighbors_edges_witness :
  Life.CountNeighbors 4 3 [demo_grid; demo_blank] 0 1 0 = Some 2 /\
  Life.CountNeighbors 4 3 [demo_grid; demo_blank] 0 4 0 = None /\
  Life.CountNeighbors 0 3 [demo_grid; demo_blank] 0 0 0 = None /\
  Life.CountNeighbors 4 3 [demo_grid; demo_blank] 2 0 0 = None.
Proof.
  split; [|split; [|split]].
  - destruct (CountNeighbors_edges 4 3 [demo_grid; demo_blank] 0 1 0)
      as (Hin & _).
    destruct (Hin demo_grid eq_refl ltac:(grid_facts) ltac:(grid_facts)
                ltac:(lia) ltac:(lia)) as (n & Hn & _).
    rewrite Hn. vm_compute in Hn. inversion Hn. reflexivity.
  - destruct (CountNeighbors_edges 4 3 [demo_grid; demo_blank] 0 4 0)
      as (_ & Hout & _).
    apply (Hout demo_grid eq_refl ltac:(grid_facts)). lia.
  - destruct (CountNeighbors_edges 0 3 [demo_grid; demo_blank] 0 0 0)
      as (_ & _ & Hz & _).
    apply Hz. left. reflexivity.
  - destruct (CountNeighbors_edges 4 3 [demo_grid; demo_blank] 2 0 0)
      as (_ & _ & _ & Hi).
    apply Hi. reflexivity.
Defined.

(** X5. The cell loop of [UpdateCells] overwrites the whole inactive grid:
    two pairs of grids with the same active grid come out with the same
    cells in the newly written grid, whatever the inactive grid held
    before. *)
Theorem step_cells_overwrites W H (G1 G2 : list Life.Grid) Index :
  grids_ok W H G1 Index -> grids_ok W H G2 Index ->
  at_ G1 Index = at_ G2 Index ->
  exists G1' G2' t1 t2,
    Life.step_cells W H G1 Index (Z.lxor Index 1) = Some G1' /\
    Life.step_cells W H G2 Index (Z.lxor Index 1) = Some G2' /\
    at_ G1' (Z.lxor Index 1) = Some t1 /\
    at_ G2' (Z.lxor Index 1) = Some t2 /\
    Life.Data t1 = Life.Data t2 /\
    at_ G1' Index = at_ G1 Index /\ at_ G2' Index = at_ G2 Index.
Proof.
  intros H1 H2 Hsame.
  destruct (step_cells_spec W H G1 Index H1)
    as (c1 & t1 & G1' & Hc1 & Hs1 & Hok1 & Hc1' & Ht1 & _ & Hcells1).
  destruct (step_cells_spec W H G2 Index H2)
    as (c2 & t2 & G2' & Hc2 & Hs2 & Hok2 & Hc2' & Ht2 & _ & Hcells2).
  assert (c1 = c2) by congruence. subst c2.
  exists G1', G2', t1, t2.
  split; [exact Hs1|]. split; [exact Hs2|]. split; [exact Ht1|].
  split; [exact Ht2|]. split; [|split; congruence].
  apply (grid_data_ext W H).
  - apply (grids_ok_cur _ _ _ _ _ Hok1 Ht1).
  - apply (grids_ok_cur _ _ _ _ _ Hok2 Ht2).
  - intros x y Hx Hy. rewrite Hcells1, Hcells2 by assumption. reflexivity.
Qed.

Lemma step_cells_overwrites_witness :
  exists G1' G2',
    Life.step_cells 4 3 [demo_grid; demo_blank] 0 1 = Some G1' /\
    Life.step_cells 4 3 [demo_grid; demo_grid] 0 1 = Some G2' /\
    G1' = [demo_grid; demo_blank] /\ G2' = [demo_grid; demo_blank].
Proof.
  destruct (step_cells_overwrites 4 3 [demo_grid; demo_blank]
              [demo_grid; demo_grid] 0)
    as (G1' & G2' & t1 & t2 & Hs1 & Hs2 & _).
  - exact demo_grids_ok.
  - split; [lia|]. split; [lia|]. split; [left; reflexivity|].
    split; [reflexivity|].
    apply Forall_cons_2; [grid_facts|].
    apply Forall_cons_2; [grid_facts|]. apply Forall_nil_2.
  - reflexivity.
  - exists G1', G2'. split; [exact Hs1|]. split; [exact Hs2|].
    vm_compute in Hs1, Hs2. inversion Hs1. inversion Hs2. split; reflexivity.
Defined.

(** ** One frame, case by case *)

Section Frames.

(** The three cases of [UpdateCells] on a mesh game. *)
Lemma Mesh_UpdateCells_cases (g : Mesh.Game) :
  mesh_ok g ->
  exists g', Mesh.UpdateCells g = Some g' /\ mesh_ok g' /\
    mesh_setup g' = mesh_setup g /\ Mesh.Pause g' = Mesh.Pause g /\
    ((Mesh.Pause g = true /\ g' = g) \/
     (Mesh.Pause g = false /\ Mesh.Elapsed g < Mesh.TPG g /\
      g' = Mesh.set_Elapsed g (wrap64 (Mesh.Elapsed g + 1))) \/
     (Mesh.Pause g = false /\ Mesh.TPG g <= Mesh.Elapsed g /\
      Mesh.Index g' = Z.lxor (Mesh.Index g) 1 /\ Mesh.Elapsed g' = 0 /\
      exists cur tgt,
        at_ (Mesh.Grids g) (Mesh.Index g) = Some cur /\
        at_ (Mesh.Grids g') (Mesh.Index g) = Some cur /\
        at_ (Mesh.Grids g') (Mesh.Index g') = Some tgt /\
        grid_bits tgt /\
        (forall x y, 0 <= x < Mesh.Width g -> 0 <= y < Mesh.Height g ->
           cell tgt x y = next_cell (Mesh.Width g) (Mesh.Height g) cur x y) /\
        mesh_of g cur (Mesh.Vertices g'))).
Proof.
  intros Hok.
  destruct (Mesh.Pause g) eqn:Hp.
  - exists g. split; [unfold Mesh.UpdateCells; rewrite Hp; reflexivity|].
    split; [exact Hok|]. split; [reflexivity|]. split; [exact Hp|].
    left. split; reflexivity.
  - destruct (Z.lt_ge_cases (Mesh.Elapsed g) (Mesh.TPG g)) as [Hlt|Hge].
    + eexists. split.
      { unfold Mesh.UpdateCells. rewrite Hp.
        replace (Mesh.Elapsed g <? Mesh.TPG g) with true
          by (symmetry; apply Z.ltb_lt; assumption).
        reflexivity. }
      split; [exact Hok|]. split; [reflexivity|]. split; [exact Hp|].
      right. left. repeat split. exact Hlt.
    + destruct (UpdateCells_advance g Hok Hp Hge)
        as (cur & tgt & t & grids' & Hcur & _ & Hcur' & Htgt & Hbits & Hcells
            & _ & Hmesh & Li & Hupd & Hgok').
      eexists. split; [exact Hupd|].
      pose proof Hmesh as (Lv & _).
      destruct Hok as (_ & Hv & Hi).
      split.
      { split; [exact Hgok'|]. split.
        - cbn [Mesh.Width Mesh.Height Mesh.Vertices Mesh.set_Elapsed
               Mesh.set_Index Mesh.set_Indices Mesh.set_Vertices
               Mesh.set_Grids].
          rewrite Lv. exact Hv.
        - cbn [Mesh.Width Mesh.Height Mesh.Indices Mesh.set_Elapsed
               Mesh.set_Index Mesh.set_Indices Mesh.set_Vertices
               Mesh.set_Grids].
          rewrite Li. exact Hi. }
      split.
      { unfold mesh_setup.
        cbn [Mesh.Width Mesh.Height Mesh.Cellsize Mesh.Density
             Mesh.ScreenWidth Mesh.ScreenHeight Mesh.TPG Mesh.Debug
             Mesh.Black Mesh.Vertices Mesh.Indices Mesh.set_Elapsed
             Mesh.set_Index Mesh.set_Indices Mesh.set_Vertices
             Mesh.set_Grids].
        rewrite Lv, Li. reflexivity. }
      split; [exact Hp|].
      right. right. split; [reflexivity|]. split; [exact Hge|].
      split; [reflexivity|]. split; [reflexivity|].
      exists cur, tgt. split; [exact Hcur|]. split; [exact Hcur'|].
      split; [exact Htgt|]. split; [exact Hbits|]. split; [exact Hcells|].
      exact Hmesh.
Qed.

(** The three cases of [UpdateCells] on a raster game. *)
Lemma Raster_UpdateCells_cases (g : Raster.Game) :
  raster_ok g ->
  exists g', Raster.UpdateCells g = Some g' /\ raster_ok g' /\
    raster_setup g' = raster_setup g /\ Raster.Pause g' = Raster.Pause g /\
    ((Raster.Pause g = true /\ g' = g) \/
     (Raster.Pause g = false /\ Raster.Elapsed g < Raster.TPG g /\
      g' = Raster.set_Elapsed g (wrap64 (Raster.Elapsed g + 1))) \/
     (Raster.Pause g = false /\ Raster.TPG g <= Raster.Elapsed g /\
      Raster.Index g' = Z.lxor (Raster.Index g) 1 /\ Raster.Elapsed g' = 0 /\
      exists cur tgt,
        at_ (Raster.Grids g) (Raster.Index g) = Some cur /\
        at_ (Raster.Grids g') (Raster.Index g) = Some cur /\
        at_ (Raster.Grids g') (Raster.Index g') = Some tgt /\
        grid_bits tgt /\
        (forall x y, 0 <= x < Raster.Width g -> 0 <= y < Raster.Height g ->
           cell tgt x y
           = next_cell (Raster.Width g) (Raster.Height g) cur x y) /\
        raster_of g tgt (Raster.Pixels g'))).
Proof.
  intros Hok.
  destruct (Raster.Pause g) eqn:Hp.
  - exists g. split; [unfold Raster.UpdateCells; rewrite Hp; reflexivity|].
    split; [exact Hok|]. split; [reflexivity|]. split; [exact Hp|].
    left. split; reflexivity.
  - destruct (Z.lt_ge_cases (Raster.Elapsed g) (Raster.TPG g)) as [Hlt|Hge].
    + eexists. split.
      { unfold Raster.UpdateCells. rewrite Hp.
        replace (Raster.Elapsed g <? Raster.TPG g) with true
          by (symmetry; apply Z.ltb_lt; assumption).
        reflexivity. }
      split; [exact Hok|]. split; [reflexivity|]. split; [exact Hp|].
      right. left. repeat split. exact Hlt.
    + destruct (UpdateCells_advance_raster g Hok Hp Hge)
        as (cur & tgt & grids' & px & Hcur & _ & Hcur' & Htgt & Hbits & Hcells
            & Hpx & Hupd & Hgok').
      eexists. split; [exact Hupd|].
      pose proof Hpx as (Lp & _).
      destruct Hok as (_ & Hcs & Hsw & Hsh & Hlen).
      split.
      { split; [exact Hgok'|]. split; [exact Hcs|]. split; [exact Hsw|].
        split; [exact Hsh|].
        cbn [Raster.ScreenWidth Raster.ScreenHeight Raster.Pixels
             Raster.set_Elapsed Raster.set_Index Raster.set_Pixels
             Raster.set_Grids].
        rewrite Lp. exact Hlen. }
      split.
      { unfold raster_setup.
        cbn [Raster.Width Raster.Height Raster.Cellsize Raster.Density
             Raster.ScreenWidth Raster.ScreenHeight Raster.TPG Raster.Debug
             Raster.Profile Raster.Gridlines Raster.Pixels
             Raster.set_Elapsed Raster.set_Index Raster.set_Pixels
             Raster.set_Grids].
        rewrite Lp. reflexivity. }
      split; [exact Hp|].
      right. right. split; [reflexivity|]. split; [exact Hge|].
      split; [reflexivity|]. split; [reflexivity|].
      exists cur, tgt. split; [exact Hcur|]. split; [exact Hcur'|].
      split; [exact Htgt|]. split; [exact Hbits|]. split; [exact Hcells|].
      exact Hpx.
Qed.

(** A property of every grid that can be read is a property of all. *)
Lemma Forall_grids W H (grids : list Life.Grid) index (P : Life.Grid -> Prop) :
  grids_ok W H grids index ->
  (forall grid, at_ grids index = Some grid -> P grid) ->
  (forall grid, at_ grids (Z.lxor index 1) = Some grid -> P grid) ->
  Forall P grids.
Proof.
  intros (_ & _ & Hidx & Hlen & _) Hcur Hoth.
  apply Forall_lookup. intros n grid Hn.
  assert (Hr : 0 <= Z.of_nat n < 2).
  { apply lookup_lt_Some in Hn. unfold len in Hlen. lia. }
  assert (Hat : at_ grids (Z.of_nat n) = Some grid).
  { apply at_Some. rewrite Nat2Z.id. split; [lia | exact Hn]. }
  destruct Hidx as [-> | ->];
    change (Z.lxor 0 1) with 1 in Hoth; change (Z.lxor 1 1) with 0 in Hoth;
    (assert (Hc : Z.of_nat n = 0 \/ Z.of_nat n = 1) by lia);
    destruct Hc as [Hc|Hc]; rewrite Hc in Hat; auto.
Qed.

Lemma Forall_at {A} (P : A -> Prop) (l : list A) i x :
  Forall P l -> at_ l i = Some x -> P x.
Proof.
  intros Hall Hat. apply at_Some in Hat as [_ Hat].
  rewrite Forall_forall in Hall. apply Hall, list_elem_of_lookup. eauto.
Qed.

Lemma frames_app {G} (update : bool -> G -> option G) keys1 keys2 (g : G) :
  frames update (keys1 ++ keys2) g
  = match frames update keys1 g with
    | Some g' => frames update keys2 g'
    | None => None
    end.
Proof.
  revert g. induction keys1 as [|k keys1 IH]; intros g; [reflexivity|].
  cbn [app frames]. destruct (update k g); [apply IH | reflexivity].
Qed.

End Frames.

(** ** What the frames keep *)

Section Kept.

Lemma Mesh_Update_keeps (space : bool) (g : Mesh.Game) :
  mesh_ok g /\ Forall grid_bits (Mesh.Grids g) ->
  exists g', Mesh.Update space g = Some g' /\
    (mesh_ok g' /\ Forall grid_bits (Mesh.Grids g')) /\
    mesh_setup g' = mesh_setup g.
Proof.
  intros [Hok Hbits].
  destruct (Mesh_UpdateCells_cases g Hok)
    as (g1 & Hupd & Hok1 & Hset & _ & Hcases).
  assert (Hbits1 : Forall grid_bits (Mesh.Grids g1)).
  { destruct Hcases as [[_ ->] | [(_ & _ & ->) | Hadv]]; [exact Hbits..|].
    destruct Hadv as (_ & _ & Hidx & _ & cur & tgt & Hcur & Hcur' & Htgt
                      & Htb & _).
    destruct Hok1 as (Hgok1 & _). rewrite Hidx in Hgok1, Htgt.
    apply grids_ok_flip in Hgok1.
    destruct Hok as ((_ & _ & Hi & _) & _).
    destruct (lxor_flip _ Hi) as (_ & _ & Hback). rewrite Hback in Hgok1.
    apply (Forall_grids _ _ _ _ _ Hgok1).
    - intros grid Hg. assert (grid = cur) by congruence. subst grid.
      apply (Forall_at _ _ _ _ Hbits Hcur).
    - intros grid Hg. assert (grid = tgt) by congruence. subst grid.
      exact Htb. }
  unfold Mesh.Update. rewrite Hupd. cbn [mbind option_bind].
  eexists. split; [reflexivity|].
  destruct space; (split; [split; [exact Hok1 | exact Hbits1] | exact Hset]).
Qed.

Lemma Raster_Update_keeps (space : bool) (g : Raster.Game) :
  raster_ok g /\ Forall grid_bits (Raster.Grids g) ->
  exists g', Raster.Update space g = Some g' /\
    (raster_ok g' /\ Forall grid_bits (Raster.Grids g')) /\
    raster_setup g' = raster_setup g.
Proof.
  intros [Hok Hbits].
  destruct (Raster_UpdateCells_cases g Hok)
    as (g1 & Hupd & Hok1 & Hset & _ & Hcases).
  assert (Hbits1 : Forall grid_bits (Raster.Grids g1)).
  { destruct Hcases as [[_ ->] | [(_ & _ & ->) | Hadv]]; [exact Hbits..|].
    destruct Hadv as (_ & _ & Hidx & _ & cur & tgt & Hcur & Hcur' & Htgt
                      & Htb & _).
    destruct Hok1 as (Hgok1 & _). rewrite Hidx in Hgok1, Htgt.
    apply grids_ok_flip in Hgok1.
    destruct Hok as ((_ & _ & Hi & _) & _).
    destruct (lxor_flip _ Hi) as (_ & _ & Hback). rewrite Hback in Hgok1.
    apply (Forall_grids _ _ _ _ _ Hgok1).
    - intros grid Hg. assert (grid = cur) by congruence. subst grid.
      apply (Forall_at _ _ _ _ Hbits Hcur).
    - intros grid Hg. assert (grid = tgt) by congruence. subst grid.
      exact Htb. }
  unfold Raster.Update. rewrite Hupd. cbn [mbind option_bind].
  eexists. split; [reflexivity|].
  destruct space; (split; [split; [exact Hok1 | exact Hbits1] | exact Hset]).
Qed.

(** Frames keep an invariant and a quantity that every frame keeps. *)
Lemma frames_keep {G V} (update : bool -> G -> option G) (I : G -> Prop)
    (q : G -> V) :
  (forall k g, I g -> exists g', update k g = Some g' /\ I g' /\ q g' = q g) ->
  forall keys g, I g ->
    exists g', frames update keys g = Some g' /\ I g' /\ q g' = q g.
Proof.
  intros Hstep keys. induction keys as [|k keys IH]; intros g Hg.
  - exists g. split; [reflexivity|]. split; [exact Hg | reflexivity].
  - destruct (Hstep k g Hg) as (g1 & Hupd & Hg1 & Hq1).
    destruct (IH g1 Hg1) as (g' & Hrun & Hg' & Hq').
    exists g'. cbn [frames]. rewrite Hupd.
    split; [exact Hrun|]. split; [exact Hg' | congruence].
Qed.

End Kept.

(** X6. What a running game keeps, in both programs.  From a game with two
    grids of its size, cells in {0,1} and buffers with room for the rebuild
    ([mesh_ok]: four vertices for every cell and the index slots that the
    cursor reaches; [raster_ok] and a pixel buffer of exactly four bytes for
    every pixel of the screen), every sequence of frames and key presses
    returns a game that is again so: both grids keep their size, every cell
    is still 0 or 1, and the configuration and the lengths of the vertex,
    index and pixel buffers are what they were (the buffers are written in
    place, never allocated anew or resized). *)
Theorem frames_keep_the_setup :
  (forall (g : Mesh.Game) (keys : list bool),
     mesh_ok g -> Forall grid_bits (Mesh.Grids g) ->
     exists g', frames Mesh.Update keys g = Some g' /\
       mesh_ok g' /\ Forall grid_bits (Mesh.Grids g') /\
       mesh_setup g' = mesh_setup g) /\
  (forall (g : Raster.Game) (keys : list bool),
     raster_ok g -> Forall grid_bits (Raster.Grids g) ->
     len (Raster.Pixels g)
     = 4 * (Raster.ScreenWidth g * Raster.ScreenHeight g) ->
     exists g', frames Raster.Update keys g = Some g' /\
       raster_ok g' /\ Forall grid_bits (Raster.Grids g') /\
       raster_setup g' = raster_setup g).
Proof.
  split.
  - intros g keys Hok Hbits.
    destruct (frames_keep Mesh.Update
                (fun g => mesh_ok g /\ Forall grid_bits (Mesh.Grids g))
                mesh_setup (fun k g => Mesh_Update_keeps k g) keys g
                (conj Hok Hbits))
      as (g' & Hrun & [Hok' Hbits'] & Hset).
    exists g'. split; [exact Hrun|]. split; [exact Hok'|]. split; [exact Hbits' | exact Hset].
  - intros g keys Hok Hbits _.
    destruct (frames_keep Raster.Update
                (fun g => raster_ok g /\ Forall grid_bits (Raster.Grids g))
                raster_setup (fun k g => Raster_Update_keeps k g) keys g
                (conj Hok Hbits))
      as (g' & Hrun & [Hok' Hbits'] & Hset).
    exists g'. split; [exact Hrun|]. split; [exact Hok'|]. split; [exact Hbits' | exact Hset].
Qed.

Lemma demo_bits : Forall grid_bits [demo_grid; demo_blank].
Proof.
  apply Forall_cons_2; [grid_facts|].
  apply Forall_cons_2; [grid_facts|]. apply Forall_nil_2.
Qed.

Lemma frames_keep_the_setup_witness :
  (exists g', frames Mesh.Update [false; true; false] mesh_demo = Some g' /\
     len (Mesh.Vertices g') = 48 /\ len (Mesh.Indices g') = 72) /\
  (exists g', frames Raster.Update [false; true; false] raster_demo = Some g' /\
     len (Raster.Pixels g') = 192).
Proof.
  destruct frames_keep_the_setup as [Hm Hr]. split.
  - destruct (Hm mesh_demo [false; true; false] mesh_demo_ok demo_bits)
      as (g' & Hrun & _ & _ & Hset).
    exists g'. split; [exact Hrun|].
    pose proof (f_equal (fun p => snd (fst p)) Hset) as Hv.
    pose proof (f_equal snd Hset) as Hi.
    cbn [mesh_setup fst snd] in Hv, Hi.
    rewrite Hv, Hi. split; reflexivity.
  - destruct (Hr raster_demo [false; true; false] raster_demo_ok demo_bits
                eq_refl)
      as (g' & Hrun & _ & _ & Hset).
    exists g'. split; [exact Hrun|].
    pose proof (f_equal snd Hset) as Hp.
    cbn [raster_setup snd] in Hp.
    rewrite Hp. reflexivity.
Defined.

(** ** The pause key *)

Section PauseKey.

Lemma Mesh_UpdateCells_Pause (g g' : Mesh.Game) :
  Mesh.UpdateCells g = Some g' -> Mesh.Pause g' = Mesh.Pause g.
Proof.
  unfold Mesh.UpdateCells. destruct (Mesh.Pause g) eqn:Hp.
  { intros E. inversion E; subst g'. exact Hp. }
  destruct (Mesh.Elapsed g <? Mesh.TPG g).
  { intros E. inversion E; subst g'. exact Hp. }
  rewrite ClearVertices_spec. cbn [mbind option_bind].
  destruct (Life.step_cells _ _ _ _ _) as [grids|]; [|discriminate].
  cbn [mbind option_bind]. unfold Mesh.UpdateTriangles.
  destruct (Mesh.triangles _) as [t|]; [|discriminate].
  cbn [mbind option_bind].
  cbn [Mesh.Debug Mesh.set_Elapsed Mesh.set_Index Mesh.set_Indices
       Mesh.set_Vertices Mesh.set_Grids].
  destruct (Mesh.Debug g).
  - destruct (at_ _ _); [|discriminate]. cbn [mbind option_bind].
    intros E. inversion E; subst g'. exact Hp.
  - intros E. inversion E; subst g'. exact Hp.
Qed.

Lemma Raster_UpdateCells_Pause (g g' : Raster.Game) :
  Raster.UpdateCells g = Some g' -> Raster.Pause g' = Raster.Pause g.
Proof.
  unfold Raster.UpdateCells. destruct (Raster.Pause g) eqn:Hp.
  { intros E. inversion E; subst g'. exact Hp. }
  destruct (Raster.Elapsed g <? Raster.TPG g).
  { intros E. inversion E; subst g'. exact Hp. }
  destruct (Life.step_cells _ _ _ _ _) as [grids|]; [|discriminate].
  cbn [mbind option_bind]. unfold Raster.UpdatePixels.
  destruct (for_range _ _ _ _) as [px|]; [|discriminate].
  cbn [mbind option_bind].
  intros E. inversion E; subst g'. exact Hp.
Qed.

Lemma frames_pause {G} (update : bool -> G -> option G) (P : G -> bool) :
  (forall k g g', update k g = Some g' -> P g' = xorb (P g) k) ->
  forall keys g g', frames update keys g = Some g' ->
    P g' = xorb (P g) (odd_presses keys).
Proof.
  intros Hstep keys. induction keys as [|k keys IH]; intros g g' Hrun.
  - cbn in Hrun. inversion Hrun; subst g'.
    cbn [odd_presses fold_right]. rewrite xorb_false_r. reflexivity.
  - cbn [frames] in Hrun. destruct (update k g) as [g1|] eqn:Hupd;
      [|discriminate].
    rewrite (IH g1 g' Hrun), (Hstep k g g1 Hupd).
    cbn [odd_presses fold_right]. apply xorb_assoc.
Qed.

End PauseKey.

(** X7. The pause key, in both programs.  After any run of frames that
    returns, [Pause] is its value at the start flipped once for every frame
    in which the space key was pressed: an even number of presses leaves it
    as it was, an odd number flips it, and nothing else in a frame writes
    it. *)
Theorem pause_follows_the_presses :
  (forall (keys : list bool) (g g' : Mesh.Game),
     frames Mesh.Update keys g = Some g' ->
     Mesh.Pause g' = xorb (Mesh.Pause g) (odd_presses keys)) /\
  (forall (keys : list bool) (g g' : Raster.Game),
     frames Raster.Update keys g = Some g' ->
     Raster.Pause g' = xorb (Raster.Pause g) (odd_presses keys)).
Proof.
  split.
  - apply (frames_pause Mesh.Update Mesh.Pause). intros k g g' Hupd.
    unfold Mesh.Update in Hupd.
    destruct (Mesh.UpdateCells g) as [g1|] eqn:Hcells; [|discriminate].
    cbn [mbind option_bind] in Hupd. inversion Hupd; subst g'.
    apply Mesh_UpdateCells_Pause in Hcells.
    destruct k; cbn [Mesh.Pause Mesh.set_Pause]; rewrite Hcells;
      destruct (Mesh.Pause g); reflexivity.
  - apply (frames_pause Raster.Update Raster.Pause). intros k g g' Hupd.
    unfold Raster.Update in Hupd.
    destruct (Raster.UpdateCells g) as [g1|] eqn:Hcells; [|discriminate].
    cbn [mbind option_bind] in Hupd. inversion Hupd; subst g'.
    apply Raster_UpdateCells_Pause in Hcells.
    destruct k; cbn [Raster.Pause Raster.set_Pause]; rewrite Hcells;
      destruct (Raster.Pause g); reflexivity.
Qed.

Lemma pause_follows_the_presses_witness :
  (exists g', frames Mesh.Update [true; false; true; true] mesh_demo = Some g'
     /\ Mesh.Pause g' = true) /\
  (exists g', frames Raster.Update [true; true; false] raster_demo = Some g'
     /\ Raster.Pause g' = false).
Proof.
  split.
  - destruct (frames Mesh.Update [true; false; true; true] mesh_demo)
      as [g'|] eqn:E; [|vm_compute in E; discriminate E].
    exists g'. split; [reflexivity|].
    rewrite (proj1 pause_follows_the_presses _ _ _ E). reflexivity.
  - destruct (frames Raster.Update [true; true; false] raster_demo)
      as [g'|] eqn:E; [|vm_compute in E; discriminate E].
    exists g'. split; [reflexivity|].
    rewrite (proj2 pause_follows_the_presses _ _ _ E). reflexivity.
Defined.

(** ** The generation timer *)

Section Timer.

(** A frame in which the timer has not run out. *)
Lemma Mesh_Update_waits (k : bool) (g : Mesh.Game) :
  - 2 ^ 63 <= Mesh.Elapsed g < Mesh.TPG g -> Mesh.TPG g < 2 ^ 63 ->
  exists g', Mesh.Update k g = Some g' /\
    mesh_picture g' = mesh_picture g /\ Mesh.TPG g' = Mesh.TPG g /\
    Mesh.Elapsed g <= Mesh.Elapsed g' <= Mesh.Elapsed g + 1 /\
    (Mesh.Pause g = false -> Mesh.Elapsed g' = Mesh.Elapsed g + 1).
Proof.
  intros He Ht. unfold Mesh.Update, Mesh.UpdateCells.
  destruct (Mesh.Pause g) eqn:Hp.
  - cbn [mbind option_bind]. eexists. split; [reflexivity|].
    destruct k; cbn; (split; [reflexivity|]); (split; [reflexivity|]);
      (split; [lia | discriminate]).
  - replace (Mesh.Elapsed g <? Mesh.TPG g) with true
      by (symmetry; apply Z.ltb_lt; lia).
    cbn [mbind option_bind]. eexists. split; [reflexivity|].
    rewrite wrap64_small by lia.
    destruct k; cbn; (split; [reflexivity|]); (split; [reflexivity|]);
      (split; [lia | reflexivity]).
Qed.

Lemma Raster_Update_waits (k : bool) (g : Raster.Game) :
  - 2 ^ 63 <= Raster.Elapsed g < Raster.TPG g -> Raster.TPG g < 2 ^ 63 ->
  exists g', Raster.Update k g = Some g' /\
    raster_picture g' = raster_picture g /\ Raster.TPG g' = Raster.TPG g /\
    Raster.Elapsed g <= Raster.Elapsed g' <= Raster.Elapsed g + 1 /\
    (Raster.Pause g = false -> Raster.Elapsed g' = Raster.Elapsed g + 1).
Proof.
  intros He Ht. unfold Raster.Update, Raster.UpdateCells.
  destruct (Raster.Pause g) eqn:Hp.
  - cbn [mbind option_bind]. eexists. split; [reflexivity|].
    destruct k; cbn; (split; [reflexivity|]); (split; [reflexivity|]);
      (split; [lia | discriminate]).
  - replace (Raster.Elapsed g <? Raster.TPG g) with true
      by (symmetry; apply Z.ltb_lt; lia).
    cbn [mbind option_bind]. eexists. split; [reflexivity|].
    rewrite wrap64_small by lia.
    destruct k; cbn; (split; [reflexivity|]); (split; [reflexivity|]);
      (split; [lia | reflexivity]).
Qed.

(** Frames in which a timer [e] of the game runs towards its limit [t],
    keeping a quantity [q]. *)
Lemma frames_wait {G V} (update : bool -> G -> option G) (e t : G -> Z)
    (q : G -> V) :
  (forall k g, - 2 ^ 63 <= e g < t g -> t g < 2 ^ 63 ->
     exists g', update k g = Some g' /\ q g' = q g /\ t g' = t g /\
       e g <= e g' <= e g + 1) ->
  forall keys g,
    - 2 ^ 63 <= e g -> t g < 2 ^ 63 -> e g + Z.of_nat (length keys) <= t g ->
    exists g', frames update keys g = Some g' /\ q g' = q g /\ t g' = t g /\
      e g <= e g' <= e g + Z.of_nat (length keys).
Proof.
  intros Hstep keys. induction keys as [|k keys IH]; intros g He Ht Hn.
  - exists g. split; [reflexivity|]. repeat split; cbn [length]; lia.
  - cbn [length] in Hn |- *.
    destruct (Hstep k g) as (g1 & Hupd & Hq & Ht1 & He1); [lia | lia |].
    destruct (IH g1) as (g' & Hrun & Hq' & Ht' & He'); [lia | lia | lia |].
    exists g'. cbn [frames]. rewrite Hupd. split; [exact Hrun|].
    split; [congruence|]. split; [congruence | lia].
Qed.

(** Frames without a key press in which the timer runs to its limit. *)
Lemma Mesh_frames_tick (n : nat) (g : Mesh.Game) :
  Mesh.Pause g = false ->
  - 2 ^ 63 <= Mesh.Elapsed g -> Mesh.TPG g < 2 ^ 63 ->
  Mesh.Elapsed g + Z.of_nat n <= Mesh.TPG g ->
  frames Mesh.Update (replicate n false) g
  = Some (Mesh.set_Elapsed g (Mesh.Elapsed g + Z.of_nat n)).
Proof.
  revert g. induction n as [|n IH]; intros g Hp He Ht Hn.
  - cbn [replicate frames]. rewrite Z.add_0_r. destruct g; reflexivity.
  - cbn [replicate frames]. unfold Mesh.Update, Mesh.UpdateCells.
    rewrite Hp.
    replace (Mesh.Elapsed g <? Mesh.TPG g) with true
      by (symmetry; apply Z.ltb_lt; lia).
    cbn [mbind option_bind]. rewrite wrap64_small by lia.
    rewrite IH; cbn [Mesh.Pause Mesh.Elapsed Mesh.TPG Mesh.set_Elapsed];
      [|assumption | lia | lia | lia].
    f_equal. unfold Mesh.set_Elapsed. cbn. f_equal. lia.
Qed.

Lemma Raster_frames_tick (n : nat) (g : Raster.Game) :
  Raster.Pause g = false ->
  - 2 ^ 63 <= Raster.Elapsed g -> Raster.TPG g < 2 ^ 63 ->
  Raster.Elapsed g + Z.of_nat n <= Raster.TPG g ->
  frames Raster.Update (replicate n false) g
  = Some (Raster.set_Elapsed g (Raster.Elapsed g + Z.of_nat n)).
Proof.
  revert g. induction n as [|n IH]; intros g Hp He Ht Hn.
  - cbn [replicate frames]. rewrite Z.add_0_r. destruct g; reflexivity.
  - cbn [replicate frames]. unfold Raster.Update, Raster.UpdateCells.
    rewrite Hp.
    replace (Raster.Elapsed g <? Raster.TPG g) with true
      by (symmetry; apply Z.ltb_lt; lia).
    cbn [mbind option_bind]. rewrite wrap64_small by lia.
    rewrite IH;
      cbn [Raster.Pause Raster.Elapsed Raster.TPG Raster.set_Elapsed];
      [|assumption | lia | lia | lia].
    f_equal. unfold Raster.set_Elapsed. cbn. f_equal. lia.
Qed.

End Timer.

(** X8. No generation before the timer has run out, in both programs.  As
    long as [Elapsed] plus the number of frames stays within [TPG], the
    frames return and leave the grids, the index and the drawn buffers as
    they were, whatever keys are pressed; only [Elapsed] moves, by at most
    one a frame. *)
Theorem no_generation_before_the_timer :
  (forall (keys : list bool) (g : Mesh.Game),
     - 2 ^ 63 <= Mesh.Elapsed g -> Mesh.TPG g < 2 ^ 63 ->
     Mesh.Elapsed g + Z.of_nat (length keys) <= Mesh.TPG g ->
     exists g', frames Mesh.Update keys g = Some g' /\
       mesh_picture g' = mesh_picture g /\
       Mesh.Elapsed g <= Mesh.Elapsed g'
         <= Mesh.Elapsed g + Z.of_nat (length keys)) /\
  (forall (keys : list bool) (g : Raster.Game),
     - 2 ^ 63 <= Raster.Elapsed g -> Raster.TPG g < 2 ^ 63 ->
     Raster.Elapsed g + Z.of_nat (length keys) <= Raster.TPG g ->
     exists g', frames Raster.Update keys g = Some g' /\
       raster_picture g' = raster_picture g /\
       Raster.Elapsed g <= Raster.Elapsed g'
         <= Raster.Elapsed g + Z.of_nat (length keys)).
Proof.
  split.
  - intros keys g He Ht Hn.
    destruct (frames_wait Mesh.Update Mesh.Elapsed Mesh.TPG mesh_picture)
      with (keys := keys) (g := g) as (g' & Hrun & Hq & _ & He');
      [|assumption..|].
    + intros k g0 He0 Ht0.
      destruct (Mesh_Update_waits k g0 He0 Ht0) as (g1 & H1 & H2 & H3 & H4 & _).
      exists g1. repeat split; tauto.
    + exists g'. split; [exact Hrun|]. split; [exact Hq | exact He'].
  - intros keys g He Ht Hn.
    destruct (frames_wait Raster.Update Raster.Elapsed Raster.TPG
                raster_picture)
      with (keys := keys) (g := g) as (g' & Hrun & Hq & _ & He');
      [|assumption..|].
    + intros k g0 He0 Ht0.
      destruct (Raster_Update_waits k g0 He0 Ht0)
        as (g1 & H1 & H2 & H3 & H4 & _).
      exists g1. repeat split; tauto.
    + exists g'. split; [exact Hrun|]. split; [exact Hq | exact He'].
Qed.

Lemma no_generation_before_the_timer_witness :
  (exists g',
     frames Mesh.Update [false; true; true; false]
       (Mesh.set_Elapsed mesh_demo 1) = Some g' /\
     Mesh.Vertices g' = replicate 48 Mesh.Vertex0 /\
     Mesh.Grids g' = [demo_grid; demo_blank]) /\
  (exists g',
     frames Raster.Update [false; true; true; false]
       (Raster.set_Elapsed raster_demo 0) = Some g' /\
     Raster.Pixels g' = replicate 192 0 /\
     Raster.Grids g' = [demo_grid; demo_blank]).
Proof.
  destruct no_generation_before_the_timer as [Hm Hr]. split.
  - destruct (Hm [false; true; true; false] (Mesh.set_Elapsed mesh_demo 1))
      as (g' & Hrun & Hq & _).
    + vm_compute. discriminate.
    + reflexivity.
    + vm_compute. discriminate.
    + exists g'. split; [exact Hrun|].
      pose proof (f_equal (fun p => snd (fst p)) Hq) as Hv.
      pose proof (f_equal (fun p => fst (fst (fst p))) Hq) as Hg.
      cbn [mesh_picture fst snd] in Hv, Hg. rewrite Hv, Hg.
      split; reflexivity.
  - destruct (Hr [false; true; true; false]
                (Raster.set_Elapsed raster_demo 0))
      as (g' & Hrun & Hq & _).
    + vm_compute. discriminate.
    + reflexivity.
    + vm_compute. discriminate.
    + exists g'. split; [exact Hrun|].
      pose proof (f_equal snd Hq) as Hv.
      pose proof (f_equal (fun p => fst (fst p)) Hq) as Hg.
      cbn [raster_picture fst snd] in Hv, Hg. rewrite Hv, Hg.
      split; reflexivity.
Defined.

(** X9. One generation every [TPG + 1] frames, in both programs.  A game
    that is not paused, with its timer within [0 .. TPG], computes its next
    generation in the frame number [TPG - Elapsed + 1] when no key is
    pressed: the frames return, the index is
    flipped, the newly active grid holds the next generation of the grid
    that was active, [Elapsed] is 0 again and the game is still not paused,
    so that the following generations come every [TPG + 1] frames.  The
    pixel buffer then shows the new generation, the vertex buffer the one
    before it.  (The pixel buffer is taken with exactly four bytes for every
    pixel of the screen, as [WritePixels] wants it.) *)
Theorem generation_every_TPG_plus_1_frames :
  (forall g : Mesh.Game,
     mesh_ok g -> Mesh.Pause g = false ->
     0 <= Mesh.Elapsed g <= Mesh.TPG g -> Mesh.TPG g < 2 ^ 63 ->
     exists g' cur tgt,
       frames Mesh.Update
         (replicate (Z.to_nat (Mesh.TPG g - Mesh.Elapsed g) + 1) false) g
       = Some g' /\
       mesh_ok g' /\ Mesh.Pause g' = false /\ Mesh.Elapsed g' = 0 /\
       Mesh.TPG g' = Mesh.TPG g /\
       Mesh.Index g' = Z.lxor (Mesh.Index g) 1 /\
       at_ (Mesh.Grids g) (Mesh.Index g) = Some cur /\
       at_ (Mesh.Grids g') (Mesh.Index g) = Some cur /\
       at_ (Mesh.Grids g') (Mesh.Index g') = Some tgt /\
       (forall x y, 0 <= x < Mesh.Width g -> 0 <= y < Mesh.Height g ->
          cell tgt x y = next_cell (Mesh.Width g) (Mesh.Height g) cur x y) /\
       mesh_of g cur (Mesh.Vertices g')) /\
  (forall g : Raster.Game,
     raster_ok g -> Raster.Pause g = false ->
     0 <= Raster.Elapsed g <= Raster.TPG g -> Raster.TPG g < 2 ^ 63 ->
     len (Raster.Pixels g)
     = 4 * (Raster.ScreenWidth g * Raster.ScreenHeight g) ->
     exists g' cur tgt,
       frames Raster.Update
         (replicate (Z.to_nat (Raster.TPG g - Raster.Elapsed g) + 1) false) g
       = Some g' /\
       raster_ok g' /\ Raster.Pause g' = false /\ Raster.Elapsed g' = 0 /\
       Raster.TPG g' = Raster.TPG g /\
       Raster.Index g' = Z.lxor (Raster.Index g) 1 /\
       at_ (Raster.Grids g) (Raster.Index g) = Some cur /\
       at_ (Raster.Grids g') (Raster.Index g) = Some cur /\
       at_ (Raster.Grids g') (Raster.Index g') = Some tgt /\
       (forall x y, 0 <= x < Raster.Width g -> 0 <= y < Raster.Height g ->
          cell tgt x y
          = next_cell (Raster.Width g) (Raster.Height g) cur x y) /\
       raster_of g tgt (Raster.Pixels g')).
Proof.
  split.
  - intros g Hok Hp He Ht.
    set (g1 := Mesh.set_Elapsed g (Mesh.TPG g)).
    assert (Hok1 : mesh_ok g1) by exact Hok.
    destruct (Mesh_UpdateCells_cases g1 Hok1)
      as (g' & Hupd & Hok' & Hset & Hp' & Hcases).
    destruct Hcases as [[Hc _] | [(_ & Hc & _) | Hadv]].
    { cbn in Hc. congruence. }
    { cbn in Hc. lia. }
    destruct Hadv as (_ & _ & Hidx & He' & cur & tgt & Hcur & Hcur' & Htgt
                      & _ & Hcells & Hmesh).
    exists g', cur, tgt. split.
    { rewrite replicate_add, frames_app.
      rewrite Mesh_frames_tick by (try assumption; lia).
      replace (Mesh.Elapsed g + Z.of_nat (Z.to_nat (Mesh.TPG g - Mesh.Elapsed g)))
        with (Mesh.TPG g) by lia.
      fold g1. cbn [replicate frames]. unfold Mesh.Update. rewrite Hupd.
      reflexivity. }
    split; [exact Hok'|]. split; [rewrite Hp'; exact Hp|].
    split; [exact He'|].
    split; [exact (f_equal (fun p => snd (fst (fst (fst (fst p))))) Hset)|].
    split; [exact Hidx|]. split; [exact Hcur|]. split; [exact Hcur'|].
    split; [exact Htgt|]. split; [exact Hcells | exact Hmesh].
  - intros g Hok Hp He Ht _.
    set (g1 := Raster.set_Elapsed g (Raster.TPG g)).
    assert (Hok1 : raster_ok g1) by exact Hok.
    destruct (Raster_UpdateCells_cases g1 Hok1)
      as (g' & Hupd & Hok' & Hset & Hp' & Hcases).
    destruct Hcases as [[Hc _] | [(_ & Hc & _) | Hadv]].
    { cbn in Hc. congruence. }
    { cbn in Hc. lia. }
    destruct Hadv as (_ & _ & Hidx & He' & cur & tgt & Hcur & Hcur' & Htgt
                      & _ & Hcells & Hpx).
    exists g', cur, tgt. split.
    { rewrite replicate_add, frames_app.
      rewrite Raster_frames_tick by (try assumption; lia).
      replace (Raster.Elapsed g
               + Z.of_nat (Z.to_nat (Raster.TPG g - Raster.Elapsed g)))
        with (Raster.TPG g) by lia.
      fold g1. cbn [replicate frames]. unfold Raster.Update. rewrite Hupd.
      reflexivity. }
    split; [exact Hok'|]. split; [rewrite Hp'; exact Hp|].
    split; [exact He'|].
    split; [exact (f_equal (fun p => snd (fst (fst (fst (fst p))))) Hset)|].
    split; [exact Hidx|]. split; [exact Hcur|]. split; [exact Hcur'|].
    split; [exact Htgt|]. split; [exact Hcells | exact Hpx].
Qed.

Lemma generation_every_TPG_plus_1_frames_witness :
  (exists g',
     frames Mesh.Update (replicate 4 false) (Mesh.set_Elapsed mesh_demo 2)
     = Some g' /\
     Mesh.Elapsed g' = 0 /\ Mesh.Index g' = 1) /\
  (exists g',
     frames Raster.Update (replicate 11 false)
       (Raster.set_Elapsed raster_demo 0) = Some g' /\
     Raster.Elapsed g' = 0 /\ Raster.Index g' = 1).
Proof.
  destruct generation_every_TPG_plus_1_frames as [Hm Hr]. split.
  - destruct (Hm (Mesh.set_Elapsed mesh_demo 2) mesh_demo_ok eq_refl)
      as (g' & cur & tgt & Hrun & _ & _ & He & _ & Hi & _).
    + vm_compute. split; discriminate.
    + reflexivity.
    + exists g'. split; [exact Hrun|]. split; [exact He | exact Hi].
  - destruct (Hr (Raster.set_Elapsed raster_demo 0) raster_demo_ok eq_refl)
      as (g' & cur & tgt & Hrun & _ & _ & He & _ & Hi & _).
    + vm_compute. split; discriminate.
    + reflexivity.
    + reflexivity.
    + exists g'. split; [exact Hrun|]. split; [exact He | exact Hi].
Defined.

(** ** What the buffers show *)

Section Shown.

Lemma mesh_of_setup (g g' : Mesh.Game) grid vs :
  mesh_setup g' = mesh_setup g -> mesh_of g grid vs -> mesh_of g' grid vs.
Proof.
  intros Hset.
  pose proof (f_equal (fun p => fst (fst (fst (fst (fst (fst (fst (fst (fst (fst p)))))))))) Hset) as HW.
  pose proof (f_equal (fun p => snd (fst (fst (fst (fst (fst (fst (fst (fst (fst p)))))))))) Hset) as HH.
  pose proof (f_equal (fun p => snd (fst (fst (fst (fst (fst (fst (fst (fst p))))))))) Hset) as HC.
  pose proof (f_equal (fun p => snd (fst (fst p))) Hset) as HB.
  pose proof (f_equal (fun p => snd (fst p)) Hset) as HV.
  cbn [mesh_setup fst snd] in HW, HH, HC, HB, HV.
  unfold mesh_of, Mesh.corner. rewrite HW, HH, HC, HB, HV. tauto.
Qed.

Lemma raster_of_setup (g g' : Raster.Game) grid px :
  raster_setup g' = raster_setup g -> raster_of g grid px ->
  raster_of g' grid px.
Proof.
  intros Hset.
  pose proof (f_equal (fun p => snd (fst (fst (fst (fst (fst (fst (fst (fst p))))))))) Hset) as HC.
  pose proof (f_equal (fun p => snd (fst (fst (fst (fst (fst (fst p))))))) Hset) as HSW.
  pose proof (f_equal (fun p => snd (fst (fst (fst (fst (fst p)))))) Hset) as HSH.
  pose proof (f_equal (fun p => snd (fst p)) Hset) as HG.
  pose proof (f_equal (fun p => snd p) Hset) as HP.
  cbn [raster_setup fst snd] in HC, HSW, HSH, HG, HP.
  unfold raster_of, grey_level. rewrite HC, HSW, HSH, HG, HP. tauto.
Qed.

Lemma Mesh_Update_shows (k : bool) (g : Mesh.Game) :
  mesh_ok g /\ mesh_shows_inactive g ->
  exists g', Mesh.Update k g = Some g' /\
    mesh_ok g' /\ mesh_shows_inactive g'.
Proof.
  intros [Hok Hshow].
  destruct (Mesh_UpdateCells_cases g Hok)
    as (g1 & Hupd & Hok1 & Hset & _ & Hcases).
  assert (Hshow1 : mesh_shows_inactive g1).
  { destruct Hcases as [[_ ->] | [(_ & _ & ->) | Hadv]];
      [exact Hshow | exact Hshow |].
    destruct Hadv as (_ & _ & Hidx & _ & cur & tgt & _ & Hcur' & _ & _ & _
                      & Hmesh).
    destruct Hok as ((_ & _ & Hi & _) & _).
    destruct (lxor_flip _ Hi) as (_ & _ & Hback).
    exists cur. rewrite Hidx, Hback. split; [exact Hcur'|].
    apply (mesh_of_setup g g1 _ _ Hset Hmesh). }
  unfold Mesh.Update. rewrite Hupd. cbn [mbind option_bind].
  eexists. split; [reflexivity|].
  destruct k; (split; [exact Hok1 | exact Hshow1]).
Qed.

Lemma Raster_Update_shows (k : bool) (g : Raster.Game) :
  raster_ok g /\ raster_shows_active g ->
  exists g', Raster.Update k g = Some g' /\
    raster_ok g' /\ raster_shows_active g'.
Proof.
  intros [Hok Hshow].
  destruct (Raster_UpdateCells_cases g Hok)
    as (g1 & Hupd & Hok1 & Hset & _ & Hcases).
  assert (Hshow1 : raster_shows_active g1).
  { destruct Hcases as [[_ ->] | [(_ & _ & ->) | Hadv]];
      [exact Hshow | exact Hshow |].
    destruct Hadv as (_ & _ & Hidx & _ & cur & tgt & _ & _ & Htgt & _ & _
                      & Hpx).
    exists tgt. split; [exact Htgt|].
    apply (raster_of_setup g g1 _ _ Hset Hpx). }
  unfold Raster.Update. rewrite Hupd. cbn [mbind option_bind].
  eexists. split; [reflexivity|].
  destruct k; (split; [exact Hok1 | exact Hshow1]).
Qed.

End Shown.

(** X10. What is on the screen between two generations.  In the raster
    program the pixel buffer is the picture of the active grid: once that is
    so it stays so through every sequence of frames and key presses (the
    buffer taken with exactly four bytes for every pixel of the screen, as
    [WritePixels] wants it).  In the mesh program the vertex buffer is the
    mesh of the grid that is NOT active, the generation before the active
    one: once that is so it stays so; the mesh program shows its cells one
    generation late throughout a run. *)
Theorem frames_show :
  (forall (keys : list bool) (g : Mesh.Game),
     mesh_ok g -> mesh_shows_inactive g ->
     exists g', frames Mesh.Update keys g = Some g' /\
       mesh_shows_inactive g') /\
  (forall (keys : list bool) (g : Raster.Game),
     raster_ok g -> raster_shows_active g ->
     len (Raster.Pixels g)
     = 4 * (Raster.ScreenWidth g * Raster.ScreenHeight g) ->
     exists g', frames Raster.Update keys g = Some g' /\
       raster_shows_active g').
Proof.
  split.
  - intros keys g Hok Hshow.
    destruct (frames_inv Mesh.Update
                (fun g => mesh_ok g /\ mesh_shows_inactive g)
                (fun k g => Mesh_Update_shows k g) keys g (conj Hok Hshow))
      as (g' & Hrun & _ & Hshow').
    exists g'. split; assumption.
  - intros keys g Hok Hshow _.
    destruct (frames_inv Raster.Update
                (fun g => raster_ok g /\ raster_shows_active g)
                (fun k g => Raster_Update_shows k g) keys g (conj Hok Hshow))
      as (g' & Hrun & _ & Hshow').
    exists g'. split; assumption.
Qed.

Lemma frames_show_witness :
  (exists g1 g',
     Mesh.Update false mesh_demo = Some g1 /\
     frames Mesh.Update [false; true; false] g1 = Some g' /\
     mesh_shows_inactive g') /\
  (exists g1 g',
     Raster.Update false raster_demo = Some g1 /\
     frames Raster.Update [false; true; false] g1 = Some g' /\
     raster_shows_active g').
Proof.
  destruct frames_show as [Hm Hr]. split.
  - destruct (Mesh_UpdateCells_cases mesh_demo mesh_demo_ok)
      as (g1 & Hupd & Hok1 & Hset & _ & Hcases).
    destruct Hcases as [[Hc _] | [(_ & Hc & _) | Hadv]];
      [discriminate Hc | vm_compute in Hc; discriminate Hc |].
    destruct Hadv as (_ & _ & Hidx & _ & cur & tgt & _ & Hcur' & _ & _ & _
                      & Hmesh).
    assert (Hshow1 : mesh_shows_inactive g1).
    { exists cur. rewrite Hidx. split; [exact Hcur'|].
      apply (mesh_of_setup mesh_demo g1 _ _ Hset Hmesh). }
    destruct (Hm [false; true; false] g1 Hok1 Hshow1) as (g' & Hrun & Hshow').
    exists g1, g'. split; [|split; [exact Hrun | exact Hshow']].
    unfold Mesh.Update. rewrite Hupd. reflexivity.
  - destruct (Raster_UpdateCells_cases raster_demo raster_demo_ok)
      as (g1 & Hupd & Hok1 & Hset & _ & Hcases).
    destruct Hcases as [[Hc _] | [(_ & Hc & _) | Hadv]];
      [discriminate Hc | vm_compute in Hc; discriminate Hc |].
    destruct Hadv as (_ & _ & Hidx & _ & cur & tgt & _ & _ & Htgt & _ & _
                      & Hpx).
    assert (Hshow1 : raster_shows_active g1).
    { exists tgt. split; [exact Htgt|].
      apply (raster_of_setup raster_demo g1 _ _ Hset Hpx). }
    assert (Hlen1 : len (Raster.Pixels g1)
                    = 4 * (Raster.ScreenWidth g1 * Raster.ScreenHeight g1)).
    { pose proof (f_equal snd Hset) as Hp.
      pose proof (f_equal (fun p => snd (fst (fst (fst (fst (fst (fst p)))))))
                    Hset) as Hsw.
      pose proof (f_equal (fun p => snd (fst (fst (fst (fst (fst p))))))
                    Hset) as Hsh.
      cbn [raster_setup fst snd] in Hp, Hsw, Hsh. rewrite Hp, Hsw, Hsh.
      reflexivity. }
    destruct (Hr [false; true; false] g1 Hok1 Hshow1 Hlen1)
      as (g' & Hrun & Hshow').
    exists g1, g'. split; [|split; [exact Hrun | exact Hshow']].
    unfold Raster.Update. rewrite Hupd. reflexivity.
Defined.

(** ** Still lifes *)

Section StillLife.

Lemma next_cell_ext W H (a b : Life.Grid) x y :
  same_cells W H a b -> 0 <= x < W -> 0 <= y < H ->
  next_cell W H a x y = next_cell W H b x y.
Proof.
  intros Hab Hx Hy.
  pose proof (before_range W x Hx). pose proof (after_range W x Hx).
  pose proof (before_range H y Hy). pose proof (after_range H y Hy).
  unfold next_cell, neighbours. rewrite !Hab by assumption. reflexivity.
Qed.

Lemma still_life_step W H (cur grid tgt : Life.Grid) :
  still_life W H cur -> same_cells W H grid cur ->
  (forall x y, 0 <= x < W -> 0 <= y < H ->
     cell tgt x y = next_cell W H grid x y) ->
  same_cells W H tgt cur.
Proof.
  intros Hstill Hsame Hnext x y Hx Hy.
  rewrite Hnext by assumption.
  rewrite (next_cell_ext W H grid cur) by assumption.
  apply Hstill; assumption.
Qed.

Lemma Mesh_Update_still (cur : Life.Grid) (k : bool) (g : Mesh.Game) :
  still_life (Mesh.Width g) (Mesh.Height g) cur ->
  mesh_ok g ->
  (exists grid, at_ (Mesh.Grids g) (Mesh.Index g) = Some grid /\
     same_cells (Mesh.Width g) (Mesh.Height g) grid cur) ->
  exists g', Mesh.Update k g = Some g' /\
    mesh_ok g' /\ Mesh.Width g' = Mesh.Width g /\
    Mesh.Height g' = Mesh.Height g /\
    exists grid, at_ (Mesh.Grids g') (Mesh.Index g') = Some grid /\
      same_cells (Mesh.Width g) (Mesh.Height g) grid cur.
Proof.
  intros Hstill Hok (grid & Hgrid & Hsame).
  destruct (Mesh_UpdateCells_cases g Hok)
    as (g1 & Hupd & Hok1 & Hset & _ & Hcases).
  pose proof (f_equal (fun p => fst (fst (fst (fst (fst (fst (fst (fst (fst (fst p)))))))))) Hset) as HW.
  pose proof (f_equal (fun p => snd (fst (fst (fst (fst (fst (fst (fst (fst (fst p)))))))))) Hset) as HH.
  cbn [mesh_setup fst snd] in HW, HH.
  assert (Hact : exists grid1, at_ (Mesh.Grids g1) (Mesh.Index g1) = Some grid1
                   /\ same_cells (Mesh.Width g) (Mesh.Height g) grid1 cur).
  { destruct Hcases as [[_ ->] | [(_ & _ & ->) | Hadv]];
      [exists grid; split; assumption..|].
    destruct Hadv as (_ & _ & _ & _ & cur0 & tgt & Hcur0 & _ & Htgt & _
                      & Hcells & _).
    assert (cur0 = grid) by congruence. subst cur0.
    exists tgt. split; [exact Htgt|].
    apply (still_life_step _ _ cur grid tgt); assumption. }
  unfold Mesh.Update. rewrite Hupd. cbn [mbind option_bind].
  eexists. split; [reflexivity|].
  destruct k; (split; [exact Hok1|]); (split; [exact HW|]);
    (split; [exact HH | exact Hact]).
Qed.

Lemma Raster_Update_still (cur : Life.Grid) (k : bool) (g : Raster.Game) :
  still_life (Raster.Width g) (Raster.Height g) cur ->
  raster_ok g ->
  (exists grid, at_ (Raster.Grids g) (Raster.Index g) = Some grid /\
     same_cells (Raster.Width g) (Raster.Height g) grid cur) ->
  exists g', Raster.Update k g = Some g' /\
    raster_ok g' /\ Raster.Width g' = Raster.Width g /\
    Raster.Height g' = Raster.Height g /\
    exists grid, at_ (Raster.Grids g') (Raster.Index g') = Some grid /\
      same_cells (Raster.Width g) (Raster.Height g) grid cur.
Proof.
  intros Hstill Hok (grid & Hgrid & Hsame).
  destruct (Raster_UpdateCells_cases g Hok)
    as (g1 & Hupd & Hok1 & Hset & _ & Hcases).
  pose proof (f_equal (fun p => fst (fst (fst (fst (fst (fst (fst (fst (fst (fst p)))))))))) Hset) as HW.
  pose proof (f_equal (fun p => snd (fst (fst (fst (fst (fst (fst (fst (fst (fst p)))))))))) Hset) as HH.
  cbn [raster_setup fst snd] in HW, HH.
  assert (Hact : exists grid1,
             at_ (Raster.Grids g1) (Raster.Index g1) = Some grid1
             /\ same_cells (Raster.Width g) (Raster.Height g) grid1 cur).
  { destruct Hcases as [[_ ->] | [(_ & _ & ->) | Hadv]];
      [exists grid; split; assumption..|].
    destruct Hadv as (_ & _ & _ & _ & cur0 & tgt & Hcur0 & _ & Htgt & _
                      & Hcells & _).
    assert (cur0 = grid) by congruence. subst cur0.
    exists tgt. split; [exact Htgt|].
    apply (still_life_step _ _ cur grid tgt); assumption. }
  unfold Raster.Update. rewrite Hupd. cbn [mbind option_bind].
  eexists. split; [reflexivity|].
  destruct k; (split; [exact Hok1|]); (split; [exact HW|]);
    (split; [exact HH | exact Hact]).
Qed.

Lemma demo_block_still : still_life 4 3 demo_block.
Proof.
  intros x y Hx Hy.
  assert (Ex : x = 0 \/ x = 1 \/ x = 2 \/ x = 3) by lia.
  assert (Ey : y = 0 \/ y = 1 \/ y = 2) by lia.
  destruct Ex as [-> | [-> | [-> | ->]]];
    destruct Ey as [-> | [-> | ->]]; reflexivity.
Qed.

Lemma demo_block_grids_ok : grids_ok 4 3 [demo_block; demo_blank] 0.
Proof.
  split; [lia|]. split; [lia|]. split; [left; reflexivity|].
  split; [reflexivity|].
  apply Forall_cons_2; [grid_facts|].
  apply Forall_cons_2; [grid_facts|]. apply Forall_nil_2.
Qed.

End StillLife.

(** X11. A still life stands still, in both programs.  When every cell of
    the active grid is its own next generation (under [CheckRule] and the
    count of its neighbours on the torus), the active grid has the same
    cells after every sequence of frames and key presses, however many
    generations have been computed and whichever of the two grids is the
    active one by then. *)
Theorem still_life_stands :
  (forall (keys : list bool) (g : Mesh.Game) (cur : Life.Grid),
     mesh_ok g -> at_ (Mesh.Grids g) (Mesh.Index g) = Some cur ->
     still_life (Mesh.Width g) (Mesh.Height g) cur ->
     exists g' grid,
       frames Mesh.Update keys g = Some g' /\
       at_ (Mesh.Grids g') (Mesh.Index g') = Some grid /\
       same_cells (Mesh.Width g) (Mesh.Height g) grid cur) /\
  (forall (keys : list bool) (g : Raster.Game) (cur : Life.Grid),
     raster_ok g -> at_ (Raster.Grids g) (Raster.Index g) = Some cur ->
     still_life (Raster.Width g) (Raster.Height g) cur ->
     exists g' grid,
       frames Raster.Update keys g = Some g' /\
       at_ (Raster.Grids g') (Raster.Index g') = Some grid /\
       same_cells (Raster.Width g) (Raster.Height g) grid cur).
Proof.
  split.
  - intros keys g cur Hok Hcur Hstill.
    destruct (frames_inv Mesh.Update
      (fun g0 => mesh_ok g0 /\ Mesh.Width g0 = Mesh.Width g /\
         Mesh.Height g0 = Mesh.Height g /\
         exists grid, at_ (Mesh.Grids g0) (Mesh.Index g0) = Some grid /\
           same_cells (Mesh.Width g) (Mesh.Height g) grid cur))
      with (keys := keys) (g := g)
      as (g' & Hrun & _ & _ & _ & grid & Hgrid & Hsame).
    + intros k g0 (Hok0 & HW & HH & Hact).
      destruct (Mesh_Update_still cur k g0) as (g1 & Hupd & Hok1 & HW1 & HH1 & Hact1).
      * rewrite HW, HH. exact Hstill.
      * exact Hok0.
      * rewrite HW, HH. exact Hact.
      * exists g1. split; [exact Hupd|]. split; [exact Hok1|].
        split; [congruence|]. split; [congruence|].
        rewrite HW, HH in Hact1. exact Hact1.
    + split; [exact Hok|]. split; [reflexivity|]. split; [reflexivity|].
      exists cur. split; [exact Hcur|]. intros x y _ _. reflexivity.
    + exists g', grid. split; [exact Hrun|]. split; [exact Hgrid | exact Hsame].
  - intros keys g cur Hok Hcur Hstill.
    destruct (frames_inv Raster.Update
      (fun g0 => raster_ok g0 /\ Raster.Width g0 = Raster.Width g /\
         Raster.Height g0 = Raster.Height g /\
         exists grid, at_ (Raster.Grids g0) (Raster.Index g0) = Some grid /\
           same_cells (Raster.Width g) (Raster.Height g) grid cur))
      with (keys := keys) (g := g)
      as (g' & Hrun & _ & _ & _ & grid & Hgrid & Hsame).
    + intros k g0 (Hok0 & HW & HH & Hact).
      destruct (Raster_Update_still cur k g0)
        as (g1 & Hupd & Hok1 & HW1 & HH1 & Hact1).
      * rewrite HW, HH. exact Hstill.
      * exact Hok0.
      * rewrite HW, HH. exact Hact.
      * exists g1. split; [exact Hupd|]. split; [exact Hok1|].
        split; [congruence|]. split; [congruence|].
        rewrite HW, HH in Hact1. exact Hact1.
    + split; [exact Hok|]. split; [reflexivity|]. split; [reflexivity|].
      exists cur. split; [exact Hcur|]. intros x y _ _. reflexivity.
    + exists g', grid. split; [exact Hrun|]. split; [exact Hgrid | exact Hsame].
Qed.

Lemma still_life_stands_witness :
  (exists g' grid,
     frames Mesh.Update [false; false; true; false]
       (Mesh.set_Grids mesh_demo [demo_block; demo_blank]) = Some g' /\
     at_ (Mesh.Grids g') (Mesh.Index g') = Some grid /\
     same_cells 4 3 grid demo_block) /\
  (exists g' grid,
     frames Raster.Update [false; false; true; false]
       (Raster.set_Grids raster_demo [demo_block; demo_blank]) = Some g' /\
     at_ (Raster.Grids g') (Raster.Index g') = Some grid /\
     same_cells 4 3 grid demo_block).
Proof.
  destruct still_life_stands as [Hm Hr]. split.
  - apply (Hm [false; false; true; false]
             (Mesh.set_Grids mesh_demo [demo_block; demo_blank]) demo_block).
    + split; [exact demo_block_grids_ok|]. split; vm_compute; discriminate.
    + reflexivity.
    + exact demo_block_still.
  - apply (Hr [false; false; true; false]
             (Raster.set_Grids raster_demo [demo_block; demo_blank])
             demo_block).
    + split; [exact demo_block_grids_ok|]. cbn -[Z.mul].
      repeat split; vm_compute; discriminate.
    + reflexivity.
    + exact demo_block_still.
Defined.

(** ** The quads that are drawn *)

Section Drawn.
Import Life Mesh.

Lemma quad_range j : 0 <= quad j <= 3.
Proof.
  unfold quad.
  destruct (j =? 0); [lia|]. destruct (j =? 1); [lia|].
  destruct (j =? 2); [lia|]. destruct (j =? 3); [lia|].
  destruct (j =? 4); lia.
Qed.

(** An advancing call of [UpdateCells] with both buffers of its result. *)
Lemma UpdateCells_buffers game :
  mesh_ok game -> Pause game = false -> TPG game <= Elapsed game ->
  exists game' cur,
    UpdateCells game = Some game' /\
    at_ (Grids game) (Index game) = Some cur /\
    mesh_of game cur (Vertices game') /\
    len (Indices game') = len (Indices game) /\
    (forall k j, 0 <= k < Width game * Height game ->
       Width game * Height game <= k + 10922 -> 0 <= j < 6 ->
       at_ (Indices game') (wrap16 (6 * k + j))
       = Some (wrap16 (4 * k + quad j))).
Proof.
  intros Hok Hrun Hdue.
  destruct (UpdateCells_advance game Hok Hrun Hdue)
    as (cur & tgt & t & grids' & Hcur & _ & Hcur' & _ & _ & _ & Htri & Hmesh
        & Li & Hupd & Hgok').
  set (game0 := set_Grids
         (set_Vertices game (replicate (length (Vertices game)) Vertex0))
         grids') in *.
  assert (Hok0 : mesh_ok game0).
  { pose proof Hok as ((_ & _ & Hidx & _) & _).
    destruct (lxor_flip _ Hidx) as (_ & _ & Hback).
    apply grids_ok_flip in Hgok'. rewrite Hback in Hgok'.
    apply mesh_ok_set_Grids; [|exact Hgok'].
    apply mesh_ok_set_Vertices; [exact Hok|]. apply len_replicate. }
  destruct (UpdateTriangles_quads game0 cur Hok0 Hcur')
    as (game1 & Hupd1 & _ & _ & _ & Hquads & _).
  unfold UpdateTriangles in Hupd1. rewrite Htri in Hupd1.
  cbn [mbind option_bind] in Hupd1. inversion Hupd1; subst game1.
  eexists. exists cur. split; [exact Hupd|]. split; [exact Hcur|].
  split; [exact Hmesh|]. split; [exact Li|]. exact Hquads.
Qed.

End Drawn.

(** X12. What the mesh of a small grid draws.  On a grid of at most 10922
    cells (the [uint16] cursor of [UpdateTriangles] does not wrap), after an
    advancing call of [UpdateCells] the index slots [6k .. 6k+5] hold the
    quad of the vertices [4k .. 4k+3], for every place [k] of the grid,
    whatever the cells are.  The vertices are packed by living cell, not by
    place: the vertices [4k .. 4k+3] are the four corners of the living cell
    that has [k] living cells before it in row-major order, and they are all
    the zero vertex when the grid has no more than [k] living cells.  So the
    quads draw the squares of the living cells of the grid that was active
    before the call, each once, and nothing else. *)
Theorem small_mesh_draws_the_living_cells (g : Mesh.Game) :
  mesh_ok g -> Mesh.Pause g = false -> Mesh.TPG g <= Mesh.Elapsed g ->
  Mesh.Width g * Mesh.Height g <= 10922 ->
  exists g' cur,
    Mesh.UpdateCells g = Some g' /\
    at_ (Mesh.Grids g) (Mesh.Index g) = Some cur /\
    (forall k j, 0 <= k < Mesh.Width g * Mesh.Height g -> 0 <= j < 6 ->
       at_ (Mesh.Indices g') (6 * k + j) = Some (4 * k + quad j)) /\
    (forall k c, 0 <= k < Mesh.Width g * Mesh.Height g -> 0 <= c < 4 ->
       (forall p, 0 <= p < Mesh.Width g * Mesh.Height g ->
          alive_at (Mesh.Width g) cur p = true ->
          alive_before (Mesh.Width g) cur p = k ->
          at_ (Mesh.Vertices g') (4 * k + c)
          = Some (Mesh.corner g (p mod Mesh.Width g) (p / Mesh.Width g)
                    (c / 2) (c mod 2))) /\
       (alive_before (Mesh.Width g) cur (Mesh.Width g * Mesh.Height g) <= k ->
        at_ (Mesh.Vertices g') (4 * k + c) = Some Mesh.Vertex0)).
Proof.
  intros Hok Hrun Hdue Hsmall.
  destruct (UpdateCells_buffers g Hok Hrun Hdue)
    as (g' & cur & Hupd & Hcur & (Lv & Hverts & Hzero) & _ & Hquads).
  exists g', cur. split; [exact Hupd|]. split; [exact Hcur|]. split.
  - intros k j Hk Hj. pose proof (quad_range j) as Hq.
    specialize (Hquads k j Hk ltac:(lia) Hj).
    rewrite !wrap16_small in Hquads by lia. exact Hquads.
  - intros k c Hk Hc. split.
    + intros p Hp Halive <-. apply Hverts; assumption.
    + intros Hdead. apply Hzero. destruct Hok as (_ & Hv & _). lia.
Qed.

Lemma small_mesh_draws_the_living_cells_witness :
  exists g',
    Mesh.UpdateCells mesh_demo = Some g' /\
    at_ (Mesh.Indices g') 11 = Some 7 /\
    at_ (Mesh.Vertices g') 4 = Some (Mesh.mkVertex 5 3 1 1 0 0 0 1) /\
    at_ (Mesh.Vertices g') 8 = Some Mesh.Vertex0.
Proof.
  destruct (small_mesh_draws_the_living_cells mesh_demo mesh_demo_ok eq_refl)
    as (g' & cur & Hupd & Hcur & Hquads & Hverts).
  - vm_compute. discriminate.
  - vm_compute. discriminate.
  - vm_compute in Hcur. inversion Hcur; subst cur.
    exists g'. split; [exact Hupd|]. split; [|split].
    + pose proof (Hquads 1 5 ltac:(cbn; lia) ltac:(lia)) as Hq.
      exact Hq.
    + destruct (Hverts 1 0 ltac:(cbn; lia) ltac:(lia)) as [Hv _].
      exact (Hv 6 ltac:(cbn; lia) eq_refl eq_refl).
    + destruct (Hverts 2 0 ltac:(cbn; lia) ltac:(lia)) as [_ Hv].
      apply Hv. vm_compute. discriminate.
Defined.

(** ** Nested loops that panic *)

Section GridPanics.
Context {S : Type}.
Implicit Types (s t : S).

(** What a loop that returns has kept. *)
Lemma for_range_returned (Inv : Z -> S -> Prop) lo hi
    (body : Z -> S -> option S) s t :
  lo <= hi ->
  Inv lo s ->
  (forall i t t', lo <= i < hi -> Inv i t -> body i t = Some t' ->
     Inv (i + 1) t') ->
  for_range lo hi body s = Some t -> Inv hi t.
Proof.
  intros Hle H0 Hstep. unfold for_range.
  remember (Z.to_nat (hi - lo)) as n eqn:Hn.
  revert lo s Hle H0 Hstep Hn.
  induction n as [|n IH]; intros lo s Hle H0 Hstep Hn Hrun.
  - cbn in Hrun. inversion Hrun; subst t.
    replace hi with lo by lia. exact H0.
  - cbn [for_loop] in Hrun.
    destruct (body lo s) as [s'|] eqn:Hb; [|discriminate].
    apply (IH (lo + 1) s'); [lia | | | lia | exact Hrun].
    + apply (Hstep lo s s'); [lia | exact H0 | exact Hb].
    + intros i t0 t' Hr. apply Hstep. lia.
Qed.

(** Two nested loops panic when the body panics at some place on every
    state that can reach that place. *)
Lemma for_grid_panics (Inv : Z -> Z -> S -> Prop) W H
    (body : Z -> Z -> S -> option S) s y0 x0 :
  0 <= y0 < H -> 0 <= x0 < W ->
  Inv 0 0 s ->
  (forall y x t t', 0 <= y < H -> 0 <= x < W -> Inv y x t ->
     body y x t = Some t' -> Inv y (x + 1) t') ->
  (forall y t, 0 <= y < H -> Inv y W t -> Inv (y + 1) 0 t) ->
  (forall t, Inv y0 x0 t -> body y0 x0 t = None) ->
  for_range 0 H (fun y => for_range 0 W (body y)) s = None.
Proof.
  intros Hy0 Hx0 H0 Hcell Hrow Hfail.
  apply (for_range_panics (fun y t => Inv y 0 t) 0 H _ s y0);
    [assumption | assumption | |].
  - intros y t t' Hy Hinv Hrun. apply Hrow; [lia|].
    apply (for_range_returned (fun x t => Inv y x t) 0 W (body y) t t');
      [lia | exact Hinv | | exact Hrun].
    intros x t0 t0' Hx. apply Hcell; lia.
  - intros t Hinv.
    apply (for_range_panics (fun x t => Inv y0 x t) 0 W _ t x0);
      [assumption | exact Hinv | | exact Hfail].
    intros x t0 t0' Hx. apply Hcell; lia.
Qed.

End GridPanics.

(** ** When [UpdatePixels] panics *)

Section PixelPanics.
Import Life Raster.

Lemma pixel_len game y x px px' :
  pixel game y x px = Some px' -> len px' = len px.
Proof.
  unfold pixel. destruct (pixel_col game x y) as [col|]; [|discriminate].
  cbn [mbind option_bind].
  destruct (store px _ col) as [p1|] eqn:E1; [|discriminate].
  cbn [mbind option_bind].
  destruct (store p1 _ col) as [p2|] eqn:E2; [|discriminate].
  cbn [mbind option_bind].
  destruct (store p2 _ col) as [p3|] eqn:E3; [|discriminate].
  cbn [mbind option_bind]. intros E4.
  apply store_Some in E1 as [_ ->]. apply store_Some in E2 as [_ ->].
  apply store_Some in E3 as [_ ->]. apply store_Some in E4 as [_ ->].
  rewrite !len_insert. reflexivity.
Qed.

(** A pixel outside the cells. *)
Lemma pixel_col_outside game x y :
  grids_ok (Width game) (Height game) (Grids game) (Index game) ->
  0 < Cellsize game -> 0 <= x -> 0 <= y ->
  Width game * Cellsize game <= x \/ Height game * Cellsize game <= y ->
  pixel_col game x y = None.
Proof.
  intros Hgok Hcs Hx Hy Hout. unfold pixel_col.
  replace (Cellsize game =? 0) with false by (symmetry; apply Z.eqb_neq; lia).
  destruct (at_ (Grids game) (Index game)) as [grid|] eqn:Hg; [|reflexivity].
  cbn [mbind option_bind].
  rewrite (get_outside (Width game) (Height game)); [reflexivity | |].
  - apply (grids_ok_cur _ _ _ _ _ Hgok Hg).
  - rewrite !Z.quot_div_nonneg by lia. intros [Hin1 Hin2].
    destruct Hout as [Hout | Hout].
    + assert (Width game <= x / Cellsize game);
        [apply Z.div_le_lower_bound; lia | lia].
    + assert (Height game <= y / Cellsize game);
        [apply Z.div_le_lower_bound; lia | lia].
Qed.

Lemma UpdatePixels_unfold_None game y0 x0 :
  0 <= y0 < ScreenHeight game -> 0 <= x0 < ScreenWidth game ->
  (forall px, len px = len (Pixels game) -> pixel game y0 x0 px = None) ->
  UpdatePixels game = None.
Proof.
  intros Hy Hx Hfail. unfold UpdatePixels.
  assert (E : for_range 0 (ScreenHeight game)
                (fun y => for_range 0 (ScreenWidth game)
                            (fun x => pixel game y x)) (Pixels game) = None).
  { apply (for_grid_panics (fun _ _ px => len px = len (Pixels game))
             (ScreenWidth game) (ScreenHeight game)
             (fun y x => pixel game y x) (Pixels game) y0 x0);
      [assumption | assumption | reflexivity | | | exact Hfail].
    - intros y x t t' _ _ Hlen Hrun. rewrite (pixel_len _ _ _ _ _ Hrun).
      exact Hlen.
    - intros y t _ Hlen. exact Hlen. }
  rewrite E. reflexivity.
Qed.

End PixelPanics.

(** X13. When [UpdatePixels] panics and when it returns.  With two grids of
    the game's size, a cell size that is not negative and a screen of at
    least one pixel, [UpdatePixels] panics when the cell size is 0 (a
    division by zero), when the screen is wider or higher than the cells
    cover (a read outside the grid), and when the pixel buffer holds fewer
    than four bytes for every pixel of the screen (a write outside the
    buffer).  With a positive cell size, a screen within the cells and a
    buffer of exactly four bytes for every pixel of the screen, which is
    also what [WritePixels] wants, it returns. *)
Theorem UpdatePixels_panics (g : Raster.Game) :
  grids_ok (Raster.Width g) (Raster.Height g) (Raster.Grids g)
    (Raster.Index g) ->
  0 <= Raster.Cellsize g ->
  0 < Raster.ScreenWidth g -> 0 < Raster.ScreenHeight g ->
  (Raster.Cellsize g = 0 \/
   Raster.Width g * Raster.Cellsize g < Raster.ScreenWidth g \/
   Raster.Height g * Raster.Cellsize g < Raster.ScreenHeight g \/
   len (Raster.Pixels g)
   < 4 * (Raster.ScreenWidth g * Raster.ScreenHeight g) ->
   Raster.UpdatePixels g = None) /\
  (0 < Raster.Cellsize g ->
   Raster.ScreenWidth g <= Raster.Width g * Raster.Cellsize g ->
   Raster.ScreenHeight g <= Raster.Height g * Raster.Cellsize g ->
   len (Raster.Pixels g)
   = 4 * (Raster.ScreenWidth g * Raster.ScreenHeight g) ->
   exists g', Raster.UpdatePixels g = Some g' /\
     len (Raster.Pixels g') = len (Raster.Pixels g)).
Proof.
  intros Hgok Hcs Hsw Hsh. split.
  - intros Hcases.
    destruct (Z.eq_dec (Raster.Cellsize g) 0) as [Hz|Hne].
    { apply (UpdatePixels_unfold_None g 0 0); [lia | lia |].
      intros px _. unfold Raster.pixel, Raster.pixel_col. rewrite Hz.
      reflexivity. }
    destruct Hcases as [Hz | [Hw | [Hh | Hl]]].
    + contradiction.
    + apply (UpdatePixels_unfold_None g 0 (Raster.Width g * Raster.Cellsize g)).
      * lia.
      * destruct Hgok as (HW & _). split; [apply Z.mul_nonneg_nonneg; lia | lia].
      * intros px _. unfold Raster.pixel.
        rewrite pixel_col_outside; [reflexivity | assumption | lia | | lia | lia].
        destruct Hgok as (HW & _). apply Z.mul_nonneg_nonneg; lia.
    + apply (UpdatePixels_unfold_None g (Raster.Height g * Raster.Cellsize g) 0).
      * destruct Hgok as (_ & HH & _). split; [apply Z.mul_nonneg_nonneg; lia | lia].
      * lia.
      * intros px _. unfold Raster.pixel.
        rewrite pixel_col_outside; [reflexivity | assumption | lia | lia | | lia].
        destruct Hgok as (_ & HH & _). apply Z.mul_nonneg_nonneg; lia.
    + apply (UpdatePixels_unfold_None g (Raster.ScreenHeight g - 1)
               (Raster.ScreenWidth g - 1)); [lia | lia |].
      intros px Hlen. unfold Raster.pixel.
      destruct (Raster.pixel_col g _ _) as [col|]; [|reflexivity].
      cbn [mbind option_bind].
      destruct (store px _ col) as [p1|] eqn:E1; [|reflexivity].
      cbn [mbind option_bind].
      destruct (store p1 _ col) as [p2|] eqn:E2; [|reflexivity].
      cbn [mbind option_bind].
      destruct (store p2 _ col) as [p3|] eqn:E3; [|reflexivity].
      cbn [mbind option_bind].
      apply store_Some in E1 as [_ ->]. apply store_Some in E2 as [_ ->].
      apply store_Some in E3 as [_ ->].
      unfold store. rewrite !len_insert, Hlen.
      replace (4 * (Raster.ScreenWidth g - 1
                    + (Raster.ScreenHeight g - 1) * Raster.ScreenWidth g) + 3
               <? len (Raster.Pixels g)) with false;
        [rewrite andb_false_r; reflexivity|].
      symmetry. apply Z.ltb_ge.
      replace (4 * (Raster.ScreenWidth g - 1
                    + (Raster.ScreenHeight g - 1) * Raster.ScreenWidth g) + 3)
        with (4 * (Raster.ScreenWidth g * Raster.ScreenHeight g) - 1) by ring.
      lia.
  - intros Hpos Hw Hh Hl.
    assert (Hok : raster_ok g).
    { split; [exact Hgok|]. split; [exact Hpos|]. split; [lia|].
      split; [lia|]. lia. }
    pose proof Hgok as (_ & _ & Hidx & _).
    destruct (grids_ok_at _ _ _ _ _ Hgok Hidx) as (grid & Hg & _).
    destruct (UpdatePixels_spec g grid Hok Hg) as (px & Hrun & Lpx & _).
    eexists. split; [exact Hrun | exact Lpx].
Qed.

Lemma UpdatePixels_panics_witness :
  Raster.UpdatePixels (Raster.set_Pixels raster_demo (replicate 191 0)) = None
  /\ Raster.UpdatePixels
       (Raster.mkGame 4 3 0 5 8 6 [demo_grid; demo_blank] 0 10 10
          false false false true (replicate 192 0)) = None
  /\ exists g', Raster.UpdatePixels raster_demo = Some g'.
Proof.
  split; [|split].
  - apply (proj1 (UpdatePixels_panics
                    (Raster.set_Pixels raster_demo (replicate 191 0))
                    demo_grids_ok ltac:(vm_compute; discriminate)
                    eq_refl eq_refl)).
    right. right. right. reflexivity.
  - apply (proj1 (UpdatePixels_panics
                    (Raster.mkGame 4 3 0 5 8 6 [demo_grid; demo_blank] 0 10 10
                       false false false true (replicate 192 0))
                    demo_grids_ok ltac:(vm_compute; discriminate)
                    eq_refl eq_refl)).
    left. reflexivity.
  - destruct (proj2 (UpdatePixels_panics raster_demo demo_grids_ok
                       ltac:(vm_compute; discriminate) eq_refl eq_refl)
                eq_refl ltac:(vm_compute; discriminate)
                ltac:(vm_compute; discriminate) eq_refl) as (g' & Hrun & _).
    exists g'. exact Hrun.
Defined.

(** ** When [UpdateTriangles] panics *)

Section TrianglePanics.
Import Life Mesh.
Implicit Types (game : Game) (t : Tri).

(** [UpdateTriangles] returns when the vertex buffer has room for the
    corners of the living cells and the index buffer for the slots that the
    cursor reaches. *)
Lemma triangles_returns game grid :
  grids_ok (Width game) (Height game) (Grids game) (Index game) ->
  at_ (Grids game) (Index game) = Some grid ->
  4 * alive_before (Width game) grid (Width game * Height game)
    <= len (Vertices game) ->
  Z.min (6 * (Width game * Height game)) 65536 <= len (Indices game) ->
  exists t, triangles game = Some t.
Proof.
  intros Hgok Hg Hvlen Hilen.
  set (W := Width game) in *. set (H := Height game) in *.
  pose proof Hgok as (HW & HH & _).
  pose proof (grids_ok_cur _ _ _ _ _ Hgok Hg) as Hok.
  set (P := fun (n : Z) (t : Tri) =>
    len (vertices t) = len (Vertices game) /\
    len (indices t) = len (Indices game) /\
    idx t = 4 * alive_before W grid n /\
    index t = wrap16 (6 * n) /\
    0 <= base t < 65536).
  destruct (for_grid_inv (fun y x t => P (y * W + x) t) W H
              (fun celly cellx => cell_triangles game celly cellx)
              (mkTri (Vertices game) (Indices game) 0 0 0))
    as (t & Hrun & _); [assumption | assumption | | | |].
  - unfold P. cbn [vertices indices idx index base].
    replace (0 * W + 0) with 0 by lia. rewrite alive_before_0.
    repeat split; try reflexivity; lia.
  - intros y x t Hy Hx (Lv & Li & Eidx & Eind & Hbase).
    set (k := y * W + x) in *.
    destruct (place_coords W x y Hx) as [Hkx Hky]. fold k in Hkx, Hky.
    pose proof (place_range W H x y Hx Hy) as Hk. fold k in Hk.
    pose proof (alive_before_range W grid k ltac:(lia)) as Hab.
    pose proof (wrap16_range (6 * k)).
    assert (Halive : (cell grid x y =? 1) = alive_at W grid k).
    { unfold alive_at. rewrite Hkx, Hky. reflexivity. }
    destruct (cell_triangles_spec game grid y x t (cell grid x y))
      as (t' & Hstep & Lv' & Li' & Eidx' & Eind' & Ebase' & _);
      try assumption; try lia.
    { apply (get_ok W H); assumption. }
    { intros E. rewrite E in Halive. symmetry in Halive.
      change (1 =? 1) with true in Halive.
      pose proof (alive_before_lt W grid k (W * H) ltac:(lia) Halive). lia. }
    { intros j Hj. rewrite Eind, wrap16_add_l.
      destruct (Z.le_gt_cases 65536 (len (indices t))) as [Hbig|Hsmall].
      - pose proof (wrap16_range (6 * k + j)). lia.
      - pose proof (wrap16_le (6 * k + j) ltac:(lia)). lia. }
    exists t'. split; [exact Hstep|].
    replace (y * W + (x + 1)) with (k + 1) by (unfold k; lia).
    unfold P. split; [congruence|]. split; [congruence|]. split.
    { rewrite alive_before_succ by lia. rewrite Eidx', Eidx, Halive.
      destruct (alive_at W grid k); lia. }
    split; [rewrite Eind', Eind, wrap16_add_l; f_equal; lia|].
    rewrite Ebase'. apply wrap16_range.
  - intros y t Hy HP. replace ((y + 1) * W + 0) with (y * W + W) by lia.
    exact HP.
  - exists t. exact Hrun.
Qed.

(** What the four stores of the corners of a living cell need. *)
Lemma cell_vertices_returned game cellx celly t t1 :
  for_range 0 2 (fun i =>
    for_range 0 2 (fun j t =>
      vs ← store (vertices t) (idx t) (corner game cellx celly i j);
      Some (mkTri vs (indices t) (idx t + 1) (index t) (base t)))) t
  = Some t1 ->
  indices t1 = indices t /\ index t1 = index t /\ base t1 = base t /\
  idx t1 = idx t + 4 /\ len (vertices t1) = len (vertices t) /\
  0 <= idx t /\ idx t + 4 <= len (vertices t).
Proof.
  destruct t as [vs ix i ind b].
  unfold for_range. change (Z.to_nat (2 - 0)) with 2%nat. cbn [for_loop].
  cbn [vertices indices idx index base].
  destruct (store vs i _) as [v1|] eqn:E1; [|discriminate].
  cbn [mbind option_bind vertices indices idx index base].
  destruct (store v1 (i + 1) _) as [v2|] eqn:E2; [|discriminate].
  cbn [mbind option_bind vertices indices idx index base].
  destruct (store v2 (i + 1 + 1) _) as [v3|] eqn:E3; [|discriminate].
  cbn [mbind option_bind vertices indices idx index base].
  destruct (store v3 (i + 1 + 1 + 1) _) as [v4|] eqn:E4; [|discriminate].
  cbn [mbind option_bind vertices indices idx index base].
  intros E. inversion E; subst t1. cbn [vertices indices idx index base].
  apply store_Some in E1 as [R1 ->]. apply store_Some in E2 as [R2 ->].
  apply store_Some in E3 as [R3 ->]. apply store_Some in E4 as [R4 ->].
  rewrite !len_insert in *.
  repeat split; try reflexivity; lia.
Qed.

(** What a round of the cell loop that returns has done and needed. *)
Lemma cell_triangles_returned game grid celly cellx t t' state :
  at_ (Grids game) (Index game) = Some grid ->
  get grid celly cellx = Some state ->
  cell_triangles game celly cellx t = Some t' ->
  len (vertices t') = len (vertices t) /\
  len (indices t') = len (indices t) /\
  idx t' = idx t + (if state =? 1 then 4 else 0) /\
  index t' = wrap16 (index t + 6) /\
  (state = 1 -> 0 <= idx t /\ idx t + 4 <= len (vertices t)) /\
  0 <= index t < len (indices t) /\
  (forall j, 1 <= j < 6 -> wrap16 (index t + j) < len (indices t)).
Proof.
  intros Hg Hget. unfold cell_triangles. rewrite Hg. cbn [mbind option_bind].
  rewrite Hget. cbn [mbind option_bind].
  destruct (if state =? 1 then _ else Some t) as [t1|] eqn:Ev; [|discriminate].
  cbn [mbind option_bind].
  assert (Hv : indices t1 = indices t /\ index t1 = index t /\
               idx t1 = idx t + (if state =? 1 then 4 else 0) /\
               len (vertices t1) = len (vertices t) /\
               (state = 1 -> 0 <= idx t /\ idx t + 4 <= len (vertices t))).
  { destruct (Z.eqb_spec state 1) as [Hs|Hs].
    - apply cell_vertices_returned in Ev.
      destruct Ev as (? & ? & _ & ? & ? & ? & ?). tauto.
    - inversion Ev; subst t1. repeat split; try reflexivity; try lia.
      all: contradiction. }
  destruct Hv as (Eix & Eind & Eidx & Lv & Hroom).
  rewrite Eix, Eind.
  destruct (store (indices t) (index t) _) as [x1|] eqn:E1; [|discriminate].
  cbn [mbind option_bind].
  destruct (store x1 _ _) as [x2|] eqn:E2; [|discriminate].
  cbn [mbind option_bind].
  destruct (store x2 _ _) as [x3|] eqn:E3; [|discriminate].
  cbn [mbind option_bind].
  destruct (store x3 _ _) as [x4|] eqn:E4; [|discriminate].
  cbn [mbind option_bind].
  destruct (store x4 _ _) as [x5|] eqn:E5; [|discriminate].
  cbn [mbind option_bind].
  destruct (store x5 _ _) as [x6|] eqn:E6; [|discriminate].
  cbn [mbind option_bind].
  intros E. inversion E; subst t'. cbn [vertices indices idx index base].
  apply store_Some in E1 as [R1 ->]. apply store_Some in E2 as [R2 ->].
  apply store_Some in E3 as [R3 ->]. apply store_Some in E4 as [R4 ->].
  apply store_Some in E5 as [R5 ->]. apply store_Some in E6 as [R6 ->].
  rewrite !len_insert in *.
  split; [exact Lv|]. split; [reflexivity|]. split; [exact Eidx|].
  split; [reflexivity|]. split; [exact Hroom|]. split; [exact R1|].
  intros j Hj.
  assert (Ej : j = 1 \/ j = 2 \/ j = 3 \/ j = 4 \/ j = 5) by lia.
  destruct Ej as [-> | [-> | [-> | [-> | ->]]]];
    [apply R2 | apply R3 | apply R4 | apply R5 | apply R6].
Qed.

(** The cursors of the cell loop at the place [y * W + x]. *)
Lemma triangles_cursors game grid y x t t' :
  grids_ok (Width game) (Height game) (Grids game) (Index game) ->
  at_ (Grids game) (Index game) = Some grid ->
  0 <= y < Height game -> 0 <= x < Width game ->
  idx t = 4 * alive_before (Width game) grid (y * Width game + x) /\
  index t = wrap16 (6 * (y * Width game + x)) /\
  len (vertices t) = len (Vertices game) /\
  len (indices t) = len (Indices game) ->
  cell_triangles game y x t = Some t' ->
  idx t' = 4 * alive_before (Width game) grid (y * Width game + (x + 1)) /\
  index t' = wrap16 (6 * (y * Width game + (x + 1))) /\
  len (vertices t') = len (Vertices game) /\
  len (indices t') = len (Indices game).
Proof.
  intros Hgok Hg Hy Hx (Eidx & Eind & Lv & Li) Hrun.
  pose proof (grids_ok_cur _ _ _ _ _ Hgok Hg) as Hok.
  destruct (cell_triangles_returned game grid y x t t' (cell grid x y) Hg
              (get_ok _ _ _ _ _ Hok Hx Hy) Hrun)
    as (Lv' & Li' & Eidx' & Eind' & _).
  destruct (place_coords (Width game) x y Hx) as [Hkx Hky].
  pose proof (place_range _ _ x y Hx Hy) as Hk.
  replace (y * Width game + (x + 1)) with (y * Width game + x + 1) by lia.
  split.
  { rewrite alive_before_succ by lia. rewrite Eidx', Eidx.
    unfold alive_at. rewrite Hkx, Hky.
    destruct (cell grid x y =? 1); lia. }
  split; [rewrite Eind', Eind, wrap16_add_l; f_equal; lia|].
  split; congruence.
Qed.

(** The loop panics at the place [k0] when the round of that place panics
    with the cursors of that place. *)
Lemma triangles_panics_at game grid k0 :
  grids_ok (Width game) (Height game) (Grids game) (Index game) ->
  at_ (Grids game) (Index game) = Some grid ->
  0 <= k0 < Width game * Height game ->
  (forall t t',
     idx t = 4 * alive_before (Width game) grid k0 ->
     index t = wrap16 (6 * k0) ->
     len (vertices t) = len (Vertices game) ->
     len (indices t) = len (Indices game) ->
     cell_triangles game (k0 / Width game) (k0 mod Width game) t = Some t' ->
     False) ->
  triangles game = None.
Proof.
  intros Hgok Hg Hk0 Hfail. pose proof Hgok as (HW & HH & _).
  assert (HWpos : 0 < Width game) by nia.
  assert (Hy0 : 0 <= k0 / Width game < Height game).
  { split; [apply Z.div_pos; lia|]. apply Z.div_lt_upper_bound; lia. }
  pose proof (Z.mod_pos_bound k0 (Width game) HWpos) as Hx0.
  pose proof (Z.div_mod k0 (Width game) ltac:(lia)) as Hdm.
  unfold triangles.
  apply (for_grid_panics
    (fun y x t =>
       idx t = 4 * alive_before (Width game) grid (y * Width game + x) /\
       index t = wrap16 (6 * (y * Width game + x)) /\
       len (vertices t) = len (Vertices game) /\
       len (indices t) = len (Indices game))
    (Width game) (Height game)
    (fun celly cellx => cell_triangles game celly cellx)
    _ (k0 / Width game) (k0 mod Width game)); [assumption | assumption | | | |].
  - cbn [vertices indices idx index base].
    replace (0 * Width game + 0) with 0 by lia.
    repeat split; reflexivity.
  - intros y x t t' Hy Hx Hinv Hrun.
    apply (triangles_cursors game grid y x t t'); assumption.
  - intros y t Hy Hinv.
    replace ((y + 1) * Width game + 0) with (y * Width game + Width game)
      by lia.
    exact Hinv.
  - intros t (Eidx & Eind & Lv & Li).
    replace (k0 / Width game * Width game + k0 mod Width game) with k0
      in Eidx, Eind by lia.
    destruct (cell_triangles game _ _ t) as [t'|] eqn:Hrun; [|reflexivity].
    exfalso. exact (Hfail t t' Eidx Eind Lv Li Hrun).
Qed.

(** The loop panics on an index buffer that is too short. *)
Lemma triangles_short_indices game grid :
  grids_ok (Width game) (Height game) (Grids game) (Index game) ->
  at_ (Grids game) (Index game) = Some grid ->
  len (Indices game) < Z.min (6 * (Width game * Height game)) 65536 ->
  triangles game = None.
Proof.
  intros Hgok Hg Hi. pose proof Hgok as (HW & HH & _).
  pose proof (grids_ok_cur _ _ _ _ _ Hgok Hg) as Hok.
  set (n := Width game * Height game) in *.
  pose proof (len_nonneg (Indices game)) as Hlen.
  set (L := len (Indices game)) in *.
  set (k0 := L / 6).
  assert (Hk0 : 6 * k0 <= L < 6 * k0 + 6).
  { pose proof (Z.div_mod L 6 ltac:(lia)).
    pose proof (Z.mod_pos_bound L 6 ltac:(lia)). unfold k0. lia. }
  assert (Hk0n : 0 <= k0 < n).
  { split; [unfold k0; apply Z.div_pos; lia | lia]. }
  apply (triangles_panics_at game grid k0 Hgok Hg); [exact Hk0n|].
  intros t t' _ Eind _ Li Hrun.
  assert (HWpos : 0 < Width game) by (unfold n in Hk0n; nia).
  assert (Hx0 : 0 <= k0 mod Width game < Width game)
    by (apply Z.mod_pos_bound; lia).
  assert (Hy0 : 0 <= k0 / Width game < Height game).
  { split; [apply Z.div_pos; lia|]. apply Z.div_lt_upper_bound; [lia|].
    fold n. lia. }
  destruct (cell_triangles_returned game grid _ _ t t' _ Hg
              (get_ok _ _ _ _ _ Hok Hx0 Hy0) Hrun)
    as (_ & _ & _ & _ & _ & Hfirst & Hslots).
  rewrite Li in Hfirst, Hslots. fold L in Hfirst, Hslots.
  rewrite Eind in Hfirst, Hslots.
  rewrite wrap16_small in Hfirst by lia.
  destruct (Z.eq_dec L (6 * k0)) as [E0|N0]; [lia|].
  specialize (Hslots (L - 6 * k0) ltac:(lia)).
  rewrite wrap16_add_l in Hslots.
  replace (6 * k0 + (L - 6 * k0)) with L in Hslots by lia.
  rewrite wrap16_small in Hslots by lia. lia.
Qed.

(** An advancing call of [UpdateCells] panics on such an index buffer. *)
Lemma UpdateCells_short_indices game :
  grids_ok (Width game) (Height game) (Grids game) (Index game) ->
  Pause game = false -> TPG game <= Elapsed game ->
  len (Indices game) < Z.min (6 * (Width game * Height game)) 65536 ->
  UpdateCells game = None.
Proof.
  intros Hgok Hrun Hdue Hi.
  destruct (step_cells_spec _ _ _ _ Hgok)
    as (cur & tgt & grids' & _ & Hstep & Hgok' & Hcur' & _).
  pose proof Hgok as (_ & _ & Hidx & _).
  destruct (lxor_flip _ Hidx) as (_ & _ & Hback).
  apply grids_ok_flip in Hgok'. rewrite Hback in Hgok'.
  unfold UpdateCells. rewrite Hrun.
  replace (Elapsed game <? TPG game) with false
    by (symmetry; apply Z.ltb_ge; lia).
  rewrite ClearVertices_spec. cbn [mbind option_bind].
  change (Width (set_Vertices game _)) with (Width game).
  change (Height (set_Vertices game _)) with (Height game).
  change (Grids (set_Vertices game _)) with (Grids game).
  change (Index (set_Vertices game _)) with (Index game).
  rewrite Hstep. cbn [mbind option_bind].
  unfold UpdateTriangles.
  rewrite (triangles_short_indices _ cur); [reflexivity | exact Hgok' |
    exact Hcur' | exact Hi].
Qed.

End TrianglePanics.

(** X14. When [UpdateTriangles] panics.  With two grids of the game's size,
    [UpdateTriangles] panics exactly when the vertex buffer is shorter than
    four entries for every living cell of the active grid, or the index
    buffer is shorter than six slots for every cell and shorter than the
    65536 slots a [uint16] cursor can reach; in every other case it
    returns. *)
Theorem UpdateTriangles_panics (g : Mesh.Game) (cur : Life.Grid) :
  grids_ok (Mesh.Width g) (Mesh.Height g) (Mesh.Grids g) (Mesh.Index g) ->
  at_ (Mesh.Grids g) (Mesh.Index g) = Some cur ->
  (Mesh.UpdateTriangles g = None <->
   len (Mesh.Vertices g)
   < 4 * alive_before (Mesh.Width g) cur (Mesh.Width g * Mesh.Height g) \/
   len (Mesh.Indices g) < Z.min (6 * (Mesh.Width g * Mesh.Height g)) 65536).
Proof.
  intros Hgok Hg. pose proof Hgok as (HW & HH & _).
  pose proof (grids_ok_cur _ _ _ _ _ Hgok Hg) as Hok.
  set (n := Mesh.Width g * Mesh.Height g).
  assert (Hn : 0 <= n) by (apply Z.mul_nonneg_nonneg; assumption).
  split.
  - intros Hnone.
    destruct (Z_lt_le_dec (len (Mesh.Vertices g))
                (4 * alive_before (Mesh.Width g) cur n)) as [|Hv];
      [left; assumption|].
    destruct (Z_lt_le_dec (len (Mesh.Indices g)) (Z.min (6 * n) 65536))
      as [|Hi]; [right; assumption|].
    exfalso. destruct (triangles_returns g cur Hgok Hg Hv Hi) as (t & Hrun).
    unfold Mesh.UpdateTriangles in Hnone. rewrite Hrun in Hnone.
    discriminate Hnone.
  - intros Hshort.
    assert (Hnone : Mesh.triangles g = None);
      [|unfold Mesh.UpdateTriangles; rewrite Hnone; reflexivity].
    destruct Hshort as [Hv | Hi].
    + (* the vertex buffer *)
      pose proof (len_nonneg (Mesh.Vertices g)) as Hlen.
      set (m := len (Mesh.Vertices g) / 4).
      assert (Hm : 4 * m <= len (Mesh.Vertices g) < 4 * m + 4).
      { pose proof (Z.div_mod (len (Mesh.Vertices g)) 4 ltac:(lia)).
        pose proof (Z.mod_pos_bound (len (Mesh.Vertices g)) 4 ltac:(lia)).
        unfold m. lia. }
      destruct (count_below_select (alive_at (Mesh.Width g) cur)
                  (Z.to_nat n) m) as (k & Hk & Halive & Hcount).
      { split; [unfold m; apply Z.div_pos; lia|].
        unfold alive_before in Hv. lia. }
      apply (triangles_panics_at g cur (Z.of_nat k) Hgok Hg); [fold n; lia|].
      intros t t' Eidx _ Lv _ Hrun.
      assert (HWpos : 0 < Mesh.Width g) by (unfold n in Hk; nia).
      assert (Hx0 : 0 <= Z.of_nat k mod Mesh.Width g < Mesh.Width g)
        by (apply Z.mod_pos_bound; lia).
      assert (Hy0 : 0 <= Z.of_nat k / Mesh.Width g < Mesh.Height g).
      { split; [apply Z.div_pos; lia|]. apply Z.div_lt_upper_bound; [lia|].
        fold n. lia. }
      destruct (cell_triangles_returned g cur _ _ t t' _ Hg
                  (get_ok _ _ _ _ _ Hok Hx0 Hy0) Hrun)
        as (_ & _ & _ & _ & Hroom & _).
      unfold alive_at in Halive. apply Z.eqb_eq in Halive.
      destruct (Hroom Halive) as [_ Hroom'].
      unfold alive_before in Eidx. rewrite Nat2Z.id, Hcount in Eidx. lia.
    + exact (triangles_short_indices g cur Hgok Hg Hi).
Qed.

Lemma UpdateTriangles_panics_witness :
  Mesh.UpdateTriangles (Mesh.set_Indices mesh_demo (replicate 71 0)) = None /\
  Mesh.UpdateTriangles (Mesh.set_Vertices mesh_demo (replicate 7 Mesh.Vertex0))
  = None /\
  Mesh.UpdateTriangles (Mesh.set_Vertices mesh_demo (replicate 8 Mesh.Vertex0))
  <> None.
Proof.
  split; [|split].
  - apply (proj2 (UpdateTriangles_panics
                    (Mesh.set_Indices mesh_demo (replicate 71 0)) demo_grid
                    demo_grids_ok eq_refl)).
    right. reflexivity.
  - apply (proj2 (UpdateTriangles_panics
                    (Mesh.set_Vertices mesh_demo (replicate 7 Mesh.Vertex0))
                    demo_grid demo_grids_ok eq_refl)).
    left. reflexivity.
  - intros Hnone.
    apply (proj1 (UpdateTriangles_panics
                    (Mesh.set_Vertices mesh_demo (replicate 8 Mesh.Vertex0))
                    demo_grid demo_grids_ok eq_refl)) in Hnone.
    vm_compute in Hnone. destruct Hnone as [H | H]; discriminate H.
Defined.

(** What [Init] has checked and built when it returns. *)
Lemma Mesh_Init_inv rnd (game g : Mesh.Game) :
  Mesh.Init rnd game = Some g ->
  exists a b vs ix,
    g = Mesh.set_Indices
          (Mesh.set_Vertices
             (Mesh.set_Colors (Mesh.set_Grids game [a; b])
                (Mesh.mkRGBA 0 0 0 255) (Mesh.mkRGBA 200 200 200 255)
                (Mesh.mkRGBA 128 128 128 255)) vs) ix /\
    grid_ok (Mesh.Width game) (Mesh.Height game) a /\
    grid_ok (Mesh.Width game) (Mesh.Height game) b /\
    0 <= Mesh.Height game /\ (0 < Mesh.Height game -> 0 <= Mesh.Width game) /\
    1 <= Mesh.Cellsize game /\
    1 <= Mesh.ScreenWidth game /\ 1 <= Mesh.ScreenHeight game /\
    make Mesh.Vertex0 (wrap64 (Mesh.ScreenHeight game * Mesh.ScreenWidth game))
    = Some vs /\
    make 0 (wrap64 (wrap64 (Mesh.ScreenHeight game * Mesh.ScreenWidth game)
                    + Z.quot (wrap64 (Mesh.ScreenHeight game
                                      * Mesh.ScreenWidth game)) 2))
    = Some ix.
Proof.
  intros Hinit. rewrite Mesh_Init_unfold in Hinit.
  destruct (Init_grids_cases rnd (Mesh.Width game) (Mesh.Height game)
              (Mesh.Density game))
    as [[Hnone _] | (a & b & Hgrids & Hgood & Haok & Hbok & _)].
  { rewrite Hnone in Hinit. discriminate Hinit. }
  rewrite Hgrids in Hinit. cbn [mbind option_bind] in Hinit.
  destruct (NewImage (Mesh.Cellsize game) _) as [[]|] eqn:Hc; [|discriminate].
  cbn [mbind option_bind] in Hinit. apply NewImage_inv in Hc.
  destruct (NewImage (Mesh.ScreenWidth game) _) as [[]|] eqn:Hs;
    [|discriminate].
  cbn [mbind option_bind] in Hinit. apply NewImage_inv in Hs.
  cbv zeta in Hinit.
  destruct (make Mesh.Vertex0 _) as [vs|] eqn:Hvs; [|discriminate].
  cbn [mbind option_bind] in Hinit.
  destruct (make 0 _) as [ix|] eqn:Hix; [|discriminate].
  cbn [mbind option_bind] in Hinit. inversion Hinit; subst g.
  exists a, b, vs, ix. split; [reflexivity|].
  split; [exact Haok|]. split; [exact Hbok|].
  split; [lia|]. split; [lia|]. split; [lia|]. split; [lia|].
  split; [lia|]. split; reflexivity.
Qed.

(** X15. A mesh game on a screen that is too small panics in its first
    generation.  [Init] sizes the index buffer from the screen, one and a
    half slots a pixel, and [UpdateTriangles] writes six slots a cell.
    When [Init] has returned on a screen of fewer than four pixels a cell
    (cells of one pixel, say) and a grid small enough that the buffer stays
    below 65536 slots, the frames in which the timer runs return, and the
    frame that computes the first generation panics: [UpdateTriangles]
    writes beyond the index buffer, unless a write beyond the vertex buffer
    has stopped it before. *)
Theorem mesh_small_screen_panics (rnd : Z -> Z) (game g : Mesh.Game) :
  Mesh.Init rnd game = Some g ->
  Mesh.Index game = 0 -> Mesh.Pause game = false ->
  0 <= Mesh.Elapsed game <= Mesh.TPG game -> Mesh.TPG game < 2 ^ 63 ->
  Mesh.ScreenHeight game * Mesh.ScreenWidth game
  + Mesh.ScreenHeight game * Mesh.ScreenWidth game / 2
  < Z.min (6 * (Mesh.Width game * Mesh.Height game)) 65536 ->
  exists g',
    frames Mesh.Update
      (replicate (Z.to_nat (Mesh.TPG game - Mesh.Elapsed game)) false) g
    = Some g' /\
    Mesh.Update false g' = None /\
    frames Mesh.Update
      (replicate (Z.to_nat (Mesh.TPG game - Mesh.Elapsed game) + 1) false) g
    = None.
Proof.
  intros Hinit Hidx Hp He Ht Hshort.
  destruct (Mesh_Init_inv rnd game g Hinit)
    as (a & b & vs & ix & -> & Haok & Hbok & HH & HW & _ & Hsw & Hsh
        & Hvs & Hix).
  set (L := Mesh.ScreenHeight game * Mesh.ScreenWidth game) in *.
  assert (HL : 1 <= L) by (unfold L; nia).
  pose proof (Z.div_pos L 2 ltac:(lia) ltac:(lia)) as Hhalf.
  assert (Hn : 0 < Mesh.Width game * Mesh.Height game) by lia.
  assert (HH' : 0 < Mesh.Height game).
  { destruct (Z.eq_dec (Mesh.Height game) 0) as [E|E]; [|lia].
    rewrite E, Z.mul_0_r in Hn. lia. }
  assert (HW' : 0 <= Mesh.Width game) by (apply HW; exact HH').
  rewrite (wrap64_small L) in Hix by lia.
  rewrite Z.quot_div_nonneg in Hix by lia.
  rewrite wrap64_small in Hix by lia.
  apply make_inv in Hix as [_ ->].
  set (g := Mesh.set_Indices _ _).
  set (g' := Mesh.set_Elapsed g (Mesh.TPG game)).
  assert (Htick : frames Mesh.Update
                    (replicate (Z.to_nat (Mesh.TPG game - Mesh.Elapsed game))
                       false) g = Some g').
  { rewrite Mesh_frames_tick; [|exact Hp | cbn; lia | cbn; lia | cbn; lia].
    unfold g'. f_equal. f_equal. cbn. lia. }
  assert (Hpanic : Mesh.Update false g' = None).
  { unfold Mesh.Update. rewrite UpdateCells_short_indices; [reflexivity | | | |].
    - cbn. rewrite Hidx.
      split; [exact HW'|]. split; [lia|]. split; [left; reflexivity|].
      split; [reflexivity|].
      apply Forall_cons_2; [exact Haok|].
      apply Forall_cons_2; [exact Hbok|]. apply Forall_nil_2.
    - exact Hp.
    - cbn. lia.
    - cbn [g' g Mesh.Indices Mesh.Width Mesh.Height Mesh.set_Elapsed
           Mesh.set_Indices Mesh.set_Vertices Mesh.set_Colors Mesh.set_Grids].
      rewrite len_replicate. lia. }
  exists g'. split; [exact Htick|]. split; [exact Hpanic|].
  rewrite replicate_add, frames_app, Htick. cbn [replicate frames].
  rewrite Hpanic. reflexivity.
Qed.

Lemma mesh_small_screen_panics_witness :
  exists g,
    Mesh.Init (fun _ => 1)
      (Mesh.mkGame 20 10 1 5 20 10 [] 0 (Mesh.mkRGBA 0 0 0 0)
         (Mesh.mkRGBA 0 0 0 0) (Mesh.mkRGBA 0 0 0 0) 0 5 [] [] false true)
    = Some g /\
    frames Mesh.Update (replicate 6 false) g = None.
Proof.
  destruct (Mesh.Init (fun _ => 1)
              (Mesh.mkGame 20 10 1 5 20 10 [] 0 (Mesh.mkRGBA 0 0 0 0)
                 (Mesh.mkRGBA 0 0 0 0) (Mesh.mkRGBA 0 0 0 0) 0 5 [] []
                 false true)) as [g|] eqn:Hinit;
    [|vm_compute in Hinit; discriminate Hinit].
  exists g. split; [reflexivity|].
  destruct (mesh_small_screen_panics _ _ g Hinit eq_refl eq_refl
              ltac:(vm_compute; split; discriminate) eq_refl eq_refl)
    as (g' & _ & _ & Hrun).
  exact Hrun.
Defined.

(** ** The whole pixel buffer *)

Section WholeRaster.
Import Life Raster.

(** A buffer of four bytes a pixel is fixed by the picture it holds. *)
Lemma raster_of_unique game game' grid px px' :
  ScreenWidth game' = ScreenWidth game ->
  ScreenHeight game' = ScreenHeight game ->
  Cellsize game' = Cellsize game -> Gridlines game' = Gridlines game ->
  len (Pixels game') = len (Pixels game) ->
  0 <= ScreenWidth game -> 0 <= ScreenHeight game ->
  len (Pixels game) = 4 * (ScreenWidth game * ScreenHeight game) ->
  raster_of game grid px -> raster_of game' grid px' -> px = px'.
Proof.
  intros ESW ESH ECS EGL ELen HSW HSH Hlen [L1 H1] [L2 H2].
  unfold grey_level in H1, H2. rewrite ESW, ESH, ECS, EGL in H2.
  apply at_ext; [congruence|].
  intros i Hi. rewrite L1, Hlen in Hi.
  set (SW := ScreenWidth game) in *. set (SH := ScreenHeight game) in *.
  assert (HSWpos : 0 < SW) by nia.
  set (q := i / 4). set (c := i mod 4).
  assert (Hqc : i = 4 * q + c) by (apply Z.div_mod; lia).
  assert (Hc : 0 <= c < 4) by (apply Z.mod_pos_bound; lia).
  assert (Hq : 0 <= q < SW * SH) by lia.
  set (x := q mod SW). set (y := q / SW).
  assert (Hxy : q = x + y * SW).
  { unfold x, y. pose proof (Z.div_mod q SW ltac:(lia)). lia. }
  assert (Hx : 0 <= x < SW) by (apply Z.mod_pos_bound; lia).
  assert (Hy : 0 <= y < SH).
  { split; [apply Z.div_pos; lia|]. apply Z.div_lt_upper_bound; lia. }
  destruct (H1 x y Hx Hy) as (A0 & A1 & A2 & A3).
  destruct (H2 x y Hx Hy) as (B0 & B1 & B2 & B3).
  rewrite <- Hxy in A0, A1, A2, A3, B0, B1, B2, B3.
  assert (Ec : c = 0 \/ c = 1 \/ c = 2 \/ c = 3) by lia.
  rewrite Hqc.
  destruct Ec as [-> | [-> | [-> | ->]]];
    rewrite ?Z.add_0_r; congruence.
Qed.

End WholeRaster.

(** X16. [UpdatePixels] leaves nothing of the old picture.  When the pixel
    buffer holds exactly four bytes for every pixel of the screen, as [Init]
    allocates it, [UpdatePixels] gives the same result whatever the buffer
    held before, and running it again on its own result changes nothing:
    the picture is a function of the active grid and of the configuration
    alone. *)
Theorem UpdatePixels_leaves_nothing_stale (g : Raster.Game) :
  raster_ok g ->
  len (Raster.Pixels g)
  = 4 * (Raster.ScreenWidth g * Raster.ScreenHeight g) ->
  exists g',
    Raster.UpdatePixels g = Some g' /\
    Raster.UpdatePixels g' = Some g' /\
    forall stale, len stale = len (Raster.Pixels g) ->
      Raster.UpdatePixels (Raster.set_Pixels g stale) = Some g'.
Proof.
  intros Hok Hlen. pose proof Hok as (Hgok & Hcs & Hsw & Hsh & Hroom).
  pose proof Hgok as (_ & _ & Hidx & _).
  destruct (grids_ok_at _ _ _ _ _ Hgok Hidx) as (grid & Hg & _).
  destruct (UpdatePixels_spec g grid Hok Hg) as (px & Hrun & Hpx).
  assert (Hany : forall stale, len stale = len (Raster.Pixels g) ->
            Raster.UpdatePixels (Raster.set_Pixels g stale)
            = Some (Raster.set_Pixels g px)).
  { intros stale Hs.
    assert (Hok' : raster_ok (Raster.set_Pixels g stale)).
    { split; [exact Hgok|]. split; [exact Hcs|]. split; [exact Hsw|].
      split; [exact Hsh|]. cbn. rewrite Hs. exact Hroom. }
    destruct (UpdatePixels_spec (Raster.set_Pixels g stale) grid Hok' Hg)
      as (px' & Hrun' & Hpx').
    rewrite Hrun'. f_equal.
    rewrite (raster_of_unique g (Raster.set_Pixels g stale) grid px px');
      try reflexivity; try assumption; try lia. }
  exists (Raster.set_Pixels g px). split; [exact Hrun|].
  split; [|exact Hany].
  destruct Hpx as [Lpx _]. apply (Hany px Lpx).
Qed.

Lemma UpdatePixels_leaves_nothing_stale_witness :
  exists g',
    Raster.UpdatePixels raster_demo = Some g' /\
    Raster.UpdatePixels (Raster.set_Pixels raster_demo (replicate 192 7))
    = Some g'.
Proof.
  destruct (UpdatePixels_leaves_nothing_stale raster_demo raster_demo_ok
              eq_refl) as (g' & Hrun & _ & Hany).
  exists g'. split; [exact Hrun|]. apply Hany. reflexivity.
Defined.
